(** * Verification of the audio noise-reduction core

    A shallow embedding of [src/core/noise_reducer.py] ([NoiseReducer]) and
    [src/core/evaluator.py] ([AudioEvaluator]).

    Modelling conventions.
    - A numpy array of float64 samples is a [list R]: floating point is
      idealised as real arithmetic, so rounding, [nan] and [inf] are outside
      the model.
    - A Python exception is the [Raise] case of [result]; the methods are
      written in the error monad, in the order of the source statements.
    - [numpy], [librosa] and [scipy.signal] are not part of the repository.
      The small functions ([np.sum], [np.max], [np.median], [np.convolve],
      [librosa.util.frame], [librosa.amplitude_to_db]) are written out after
      the libraries' documented definitions; the transforms ([librosa.stft],
      [librosa.istft], [signal.filtfilt] of a Butterworth filter,
      [signal.cwt]) are the fields of the class [Transforms], with the shape
      laws their documentation states. *)

From Stdlib Require Import Reals List ZArith Lia Lra Bool Arith.
Import ListNotations.
Open Scope R_scope.

(** ** Exceptions *)

Inductive exn : Type :=
| ParameterError   (* librosa.util.exceptions.ParameterError *)
| ValueError
| IndexError.

Inductive result (A : Type) : Type :=
| Ok (a : A)
| Raise (e : exn).
Arguments Ok {A} a.
Arguments Raise {A} e.

Definition bind {A B : Type} (c : result A) (k : A -> result B) : result B :=
  match c with
  | Ok a => k a
  | Raise e => Raise e
  end.

Notation "x <- c ;; k" := (bind c (fun x => k))
  (at level 61, c at next level, right associativity).
Notation "' pat <- c ;; k" := (bind c (fun x => match x with pat => k end))
  (at level 61, pat pattern, c at next level, right associativity).

Definition raises {A : Type} (c : result A) : Prop :=
  exists e, c = Raise e.

Definition returns {A : Type} (c : result A) : Prop :=
  exists a, c = Ok a.

(** ** Comparisons of floats, as booleans *)

Definition Rltb (x y : R) : bool := if Rlt_dec x y then true else false.
Definition Rleb (x y : R) : bool := if Rle_dec x y then true else false.
Definition Rgtb (x y : R) : bool := Rltb y x.
Definition Rgeb (x y : R) : bool := Rleb y x.

Definition log10 (x : R) : R := ln x / ln 10.

(** ** numpy *)

Module np.

Definition sum (xs : list R) : R := fold_right Rplus 0 xs.

Definition mean (xs : list R) : R := sum xs / INR (length xs).

Definition square (xs : list R) : list R := map (fun x => x * x) xs.

Definition abs (xs : list R) : list R := map Rabs xs.

(** [np.max] raises ValueError on a zero-size array. *)
Definition max (xs : list R) : result R :=
  match xs with
  | [] => Raise ValueError
  | x :: t => Ok (fold_left Rmax t x)
  end.

(** [np.std]: population standard deviation (ddof = 0). *)
Definition std (xs : list R) : R :=
  let m := mean xs in
  sqrt (mean (square (map (fun x => x - m) xs))).

(** [np.sum] of a boolean array counts the [True] entries. *)
Definition count (m : list bool) : nat := length (filter (fun b => b) m).

(** [a[mask]]: boolean-mask selection; IndexError when the mask's length is
    not the array's. *)
Fixpoint select_loop {A : Type} (a : list A) (mask : list bool) : list A :=
  match a, mask with
  | x :: a', b :: mask' =>
      if b then x :: select_loop a' mask' else select_loop a' mask'
  | _, _ => []
  end.

Definition select {A : Type} (a : list A) (mask : list bool)
  : result (list A) :=
  if Nat.eqb (length mask) (length a) then Ok (select_loop a mask)
  else Raise IndexError.

(** [a[mask] = v]: boolean-mask assignment of an array [v]; IndexError when
    the mask's length is not the array's, ValueError when [v] has not one
    value per [True] entry. *)
Fixpoint assign_loop {A : Type} (a : list A) (mask : list bool) (v : list A)
  : list A :=
  match a, mask with
  | x :: a', b :: mask' =>
      if b then
        match v with
        | y :: v' => y :: assign_loop a' mask' v'
        | [] => x :: assign_loop a' mask' []
        end
      else x :: assign_loop a' mask' v
  | _, _ => a
  end.

Definition assign {A : Type} (a : list A) (mask : list bool) (v : list A)
  : result (list A) :=
  if Nat.eqb (length mask) (length a) then
    if Nat.eqb (length v) (count mask) then Ok (assign_loop a mask v)
    else Raise ValueError
  else Raise IndexError.

Definition zeros (n : nat) : list R := repeat 0 n.
Definition ones (n : nat) : list R := repeat 1 n.

End np.

(** ** librosa *)

Module librosa.

(** [librosa.util.frame(x, frame_length, hop_length)]: raises
    ParameterError when the input is shorter than one frame or the hop is
    below 1; otherwise frame [i] is [x[i*hop : i*hop + frame_length]] for
    [i < 1 + (len(x) - frame_length) // hop_length]. *)
Definition frame (x : list R) (frame_length hop_length : Z)
  : result (list (list R)) :=
  if (Z.of_nat (length x) <? frame_length)%Z then Raise ParameterError
  else if (hop_length <? 1)%Z then Raise ParameterError
  else
    let n_frames :=
      Z.to_nat (1 + (Z.of_nat (length x) - frame_length) / hop_length) in
    Ok (map (fun i => firstn (Z.to_nat frame_length)
                        (skipn (i * Z.to_nat hop_length) x))
            (seq 0 n_frames)).

(** [librosa.power_to_db(S, ref, amin, top_db)]. *)
Definition power_to_db (S : list R) (ref amin top_db : R)
  : result (list R) :=
  let log_spec :=
    map (fun s => 10 * log10 (Rmax amin s) - 10 * log10 (Rmax amin ref)) S in
  top <- np.max log_spec ;;
  Ok (map (fun v => Rmax v (top - top_db)) log_spec).

(** [librosa.amplitude_to_db(S, ref=np.max)] with the defaults
    [amin = 1e-5] and [top_db = 80.0]: the input is squared and handed to
    [power_to_db] with [ref**2] and [amin**2]. *)
Definition amplitude_to_db (S : list R) : result (list R) :=
  let magnitude := np.abs S in
  ref_value <- np.max magnitude ;;
  let power := np.square magnitude in
  power_to_db power (ref_value * ref_value) (1e-5 * 1e-5) 80.

End librosa.

(** ** Shared by both classes: frame energies and the frame-level mask *)

(** [int(0.02 * sr)] and [int(0.01 * sr)]: truncation toward zero. *)
Definition frame_length_of (sr : Z) : Z := Z.quot (2 * sr) 100.
Definition hop_length_of (sr : Z) : Z := Z.quot sr 100.

(** Lines 42-50 of noise_reducer.py, 104-112 of evaluator.py. *)
Definition frame_energy (audio_data : list R) (sr : Z) : result (list R) :=
  frames <- librosa.frame audio_data (frame_length_of sr) (hop_length_of sr) ;;
  Ok (map (fun f => np.sum (np.square f)) frames).

Definition frame_silence (audio_data : list R) (sr : Z) (threshold_db : R)
  : result (list bool) :=
  energy <- frame_energy audio_data sr ;;
  energy_db <- librosa.amplitude_to_db energy ;;
  Ok (map (fun d => Rltb d threshold_db) energy_db).

(** ** More numpy: median, axis means, convolution *)

Module npx.

Fixpoint insert (x : R) (l : list R) : list R :=
  match l with
  | [] => [x]
  | y :: t => if Rle_dec x y then x :: l else y :: insert x t
  end.

Definition sort (l : list R) : list R := fold_right insert [] l.

(** [np.median] of the flattened array: the middle element of the sorted
    values, or the mean of the two middle ones. (numpy gives [nan] on a
    zero-size array; here the value is then [0].) *)
Definition median (xs : list R) : R :=
  let s := sort xs in
  let n := length s in
  if Nat.even n then (nth (n / 2 - 1) s 0 + nth (n / 2) s 0) / 2
  else nth (n / 2) s 0.

Definition column (m : list (list R)) (t : nat) : list R :=
  map (fun row => nth t row 0) m.

(** [np.mean(m, axis=0)] of a matrix stored by rows. *)
Definition mean_axis0 (m : list (list R)) : list R :=
  match m with
  | [] => []
  | r :: _ => map (fun t => np.mean (column m t)) (seq 0 (length r))
  end.

(** [np.mean(m, axis=1)]. *)
Definition mean_axis1 (m : list (list R)) : list R := map np.mean m.

(** The full discrete convolution, [len(a) + len(v) - 1] values. *)
Definition convolve_full (a v : list R) : list R :=
  map (fun n =>
         np.sum (map (fun j => nth j a 0 * nth (n - j) v 0) (seq 0 (S n))))
      (seq 0 (length a + length v - 1)).

(** [np.convolve(a, v, mode='same')]: ValueError on an empty argument; the
    arguments are swapped so that [a] is the longer one, and the result is
    the centred slice of the full convolution with the length of the
    longer argument. *)
Definition convolve_same (a v : list R) : result (list R) :=
  if Nat.eqb (length a) 0 then Raise ValueError
  else if Nat.eqb (length v) 0 then Raise ValueError
  else
    let '(a, v) := if Nat.ltb (length a) (length v) then (v, a) else (a, v) in
    Ok (firstn (length a)
          (skipn ((length v - 1) / 2) (convolve_full a v))).

End npx.

(** ** Complex numbers, as far as the spectral branch needs them *)

Definition C : Type := (R * R)%type.

(** [np.abs] of a complex number. *)
Definition Cabs (z : C) : R := sqrt (fst z * fst z + snd z * snd z).

(** [np.exp(1j * np.angle(z))]: the unit phasor of [z] ([angle(0) = 0]). *)
Definition Cphase (z : C) : C :=
  if Req_dec_T (Cabs z) 0 then (1, 0)
  else (fst z / Cabs z, snd z / Cabs z).

Definition Cscale (m : R) (z : C) : C := (m * fst z, m * snd z).

(** ** The transforms of librosa and scipy.signal

    Shapes as documented: [librosa.stft(y, n_fft=2048, hop_length=512)] has
    [1 + 2048/2 = 1025] rows and a number of columns that depends on
    [len(y)] only; [librosa.istft(D, hop_length=512, length=n)] returns
    exactly [n] samples; [signal.filtfilt] returns an array of the shape of
    its input; [signal.cwt(data, signal.ricker, np.arange(1, 31))] returns a
    [30 x len(data)] matrix. *)
Class Transforms : Type := {
  stft : list R -> list (list C);
  istft : list (list C) -> nat -> list R;
  butter_filtfilt : list R -> list R;
  cwt : list R -> list (list R);
  stft_rows : forall y, length (stft y) = 1025%nat;
  istft_length : forall D n, length (istft D n) = n;
  butter_filtfilt_length : forall x, length (butter_filtfilt x) = length x;
  cwt_rows : forall x, length (cwt x) = 30%nat;
  cwt_cols : forall x row, In row (cwt x) -> length row = length x
}.

(** ** class NoiseReducer *)

Record NoiseReducer : Type := {
  sample_rate : Z;
  silence_threshold_db : R;
  wavelet_threshold_mult : R;
  target_snr : R
}.

(** [NoiseReducer.__init__]. *)
Definition NoiseReducer_init (sample_rate : Z) : NoiseReducer :=
  {| sample_rate := sample_rate;
     silence_threshold_db := -45;
     wavelet_threshold_mult := 2.5;
     target_snr := 20 |}.

(** [full_mask[start:end] = True]. *)
Definition set_range (start stop : nat) (mask : list bool) : list bool :=
  map (fun '(j, b) =>
         if (Nat.leb start j && Nat.ltb j stop)%bool then true else b)
      (combine (seq 0 (length mask)) mask).

(** The loop of lines 53-58. *)
Definition expand_mask (n : nat) (frame_length hop_length : nat)
    (silence_mask : list bool) : list bool :=
  fold_left
    (fun full_mask '(i, is_silence) =>
       let start := (i * hop_length)%nat in
       let stop := Nat.min (start + frame_length) n in
       if is_silence : bool then set_range start stop full_mask
       else full_mask)
    (combine (seq 0 (length silence_mask)) silence_mask)
    (repeat false n).

Definition detect_silence (self : NoiseReducer) (audio_data : list R)
    (threshold_db : option R) : result (list bool) :=
  let threshold_db :=
    match threshold_db with
    | None => silence_threshold_db self
    | Some t => t
    end in
  let frame_length := frame_length_of (sample_rate self) in
  let hop_length := hop_length_of (sample_rate self) in
  silence_mask <- frame_silence audio_data (sample_rate self) threshold_db ;;
  Ok (expand_mask (length audio_data) (Z.to_nat frame_length)
        (Z.to_nat hop_length) silence_mask).

(** Line 94: [np.maximum(stft_mag - noise_spec, 0.01 * stft_mag)], the noise
    spectrum broadcast along each row. *)
Definition subtract_bin (noise magnitude : R) : R :=
  Rmax (magnitude - noise) (0.01 * magnitude).

Definition spectral_subtract (stft_mag : list (list R)) (noise_spec : list R)
  : list (list R) :=
  map (fun '(row, noise) => map (subtract_bin noise) row)
      (combine stft_mag noise_spec).

(** [masked_stft_mag * np.exp(1j * np.angle(stft))]. *)
Definition with_phase (mag : list (list R)) (D : list (list C))
  : list (list C) :=
  map (fun '(mrow, drow) =>
         map (fun '(m, z) => Cscale m (Cphase z)) (combine mrow drow))
      (combine mag D).

(** The coefficient-wise rule of line 124: a boolean multiplies as 1 or 0. *)
Definition hard_threshold (threshold c : R) : R :=
  c * (if Rgtb (Rabs c) threshold then 1 else 0).

Definition rms (xs : list R) : R := sqrt (np.mean (np.square xs)).

(** The blend of lines 163-165 and 189-193: [zeros_like], then two
    boolean-mask assignments. *)
Definition mask_blend (silence_mask : list bool) (denoised audio_data : list R)
    (gain_silent gain_voiced keep_voiced : R) : result (list R) :=
  let non_silence_mask := map negb silence_mask in
  let mixed := np.zeros (length audio_data) in
  d_sil <- np.select denoised silence_mask ;;
  mixed <- np.assign mixed silence_mask
             (map (fun x => x * gain_silent) d_sil) ;;
  d_voi <- np.select denoised non_silence_mask ;;
  a_voi <- np.select audio_data non_silence_mask ;;
  np.assign mixed non_silence_mask
    (map (fun '(d, a) => d * gain_voiced + a * keep_voiced)
         (combine d_voi a_voi)).

Section Denoisers.

Context {T : Transforms}.

(** [signal.filtfilt(b, a, x)] with [b, a = signal.butter(8, 0.1)]: nine
    coefficients each, so the default pad length is [3 * 9 = 27], and an
    input of at most that many samples is a ValueError. *)
Definition filtfilt (x : list R) : result (list R) :=
  if Nat.leb (length x) 27 then Raise ValueError
  else Ok (butter_filtfilt x).

Definition reduce_noise_standard (self : NoiseReducer) (audio_data : list R)
  : result (list R) :=
  silence_mask <- detect_silence self audio_data None ;;
  if Nat.ltb 0 (np.count silence_mask) then
    noise_sample <- np.select audio_data silence_mask ;;
    let D := stft audio_data in
    let stft_mag := map (map Cabs) D in
    let noise_mag := map (map Cabs) (stft noise_sample) in
    let noise_spec := npx.mean_axis1 noise_mag in
    let masked_stft_mag := spectral_subtract stft_mag noise_spec in
    let masked_stft := with_phase masked_stft_mag D in
    Ok (istft masked_stft (length audio_data))
  else
    filtfilt audio_data.

Definition wavelet_threshold (self : NoiseReducer) (coeffs : list (list R))
  : R :=
  wavelet_threshold_mult self * npx.median (np.abs (concat coeffs)) / 0.6745.

(** Lines 118-127: decomposition, threshold, reconstruction. *)
Definition wavelet_reconstruct (self : NoiseReducer) (audio_data : list R)
  : list R :=
  let coeffs := cwt audio_data in
  let threshold := wavelet_threshold self coeffs in
  let coeffs_thresholded := map (map (hard_threshold threshold)) coeffs in
  npx.mean_axis0 coeffs_thresholded.

(** Lines 130-131. *)
Definition normalize_peak (denoised : list R) : result (list R) :=
  peak <- np.max (np.abs denoised) ;;
  Ok (if Rgtb peak 0 then map (fun x => x / peak) denoised else denoised).

(** Lines 134-138. *)
Definition restore_energy (audio_data denoised : list R) : list R :=
  let orig_energy := rms audio_data in
  let denoised_energy := rms denoised in
  if Rgtb denoised_energy 0
  then map (fun x => x * (orig_energy / denoised_energy)) denoised
  else denoised.

Definition reduce_noise_wavelet (self : NoiseReducer) (audio_data : list R)
  : result (list R) :=
  let denoised := wavelet_reconstruct self audio_data in
  denoised <- normalize_peak denoised ;;
  Ok (restore_energy audio_data denoised).

Definition multi_stage_denoising (self : NoiseReducer) (audio_data : list R)
  : result (list R) :=
  stage1_audio <- reduce_noise_standard self audio_data ;;
  stage2_audio <- reduce_noise_wavelet self stage1_audio ;;
  silence_mask <- detect_silence self audio_data None ;;
  mask_blend silence_mask stage2_audio audio_data 0.9 0.6 0.4.

Definition enhanced_multi_stage_denoising (self : NoiseReducer)
    (audio_data : list R) (voice_preserve : bool) : result (list R) :=
  denoised_audio <- multi_stage_denoising self audio_data ;;
  if voice_preserve then
    silence_mask <- detect_silence self audio_data None ;;
    result <- mask_blend silence_mask denoised_audio audio_data 0.9 0.7 0.3 ;;
    let window_size := Z.to_nat (hop_length_of (sample_rate self)) in
    npx.convolve_same result
      (map (fun x => x / INR window_size) (np.ones window_size))
  else
    Ok denoised_audio.

(** The four methods, as [ExperimentRunner.process_file] dispatches them
    (an unknown method name falls back to the enhanced one). *)
Inductive method : Type :=
| standard | wavelet | multi_stage | enhanced_multi_stage.

(** [process_file] after the file is decoded: the reducer's sample rate is
    set to the file's, the method runs, and the processed samples are
    returned with the sample rate of the input. *)
Definition process_file (noise_reducer : NoiseReducer)
    (audio_data : list R) (sr : Z) (m : method) : result (list R * Z) :=
  let noise_reducer :=
    {| sample_rate := sr;
       silence_threshold_db := silence_threshold_db noise_reducer;
       wavelet_threshold_mult := wavelet_threshold_mult noise_reducer;
       target_snr := target_snr noise_reducer |} in
  processed_audio <-
    match m with
    | standard => reduce_noise_standard noise_reducer audio_data
    | wavelet => reduce_noise_wavelet noise_reducer audio_data
    | multi_stage => multi_stage_denoising noise_reducer audio_data
    | enhanced_multi_stage =>
        enhanced_multi_stage_denoising noise_reducer audio_data true
    end ;;
  Ok (processed_audio, sr).

End Denoisers.

(** ** class AudioEvaluator *)

Module Evaluator.

(** The [standards] dictionary. *)
Record Standards : Type := {
  std_rms_db : R;
  std_peak_db : R;
  std_cv : R;
  std_snr : R;
  std_non_speech_ratio : R;
  std_max_silence : R
}.

Record AudioEvaluator : Type := { standards : Standards }.

(** [AudioEvaluator.__init__]. *)
Definition init : AudioEvaluator :=
  {| standards :=
       {| std_rms_db := -30;
          std_peak_db := 0;
          std_cv := 0.5;
          std_snr := 20;
          std_non_speech_ratio := 0.3;
          std_max_silence := 1.0 |} |}.

(** The [metrics] dictionary. *)
Record Metrics : Type := {
  m_rms : R;
  m_rms_db : R;
  m_peak : R;
  m_peak_db : R;
  m_cv : R;
  m_snr : R;
  m_non_speech_ratio : R;
  m_max_silence : R
}.

Definition calculate_rms (audio_data : list R) : R * R :=
  let rms := sqrt (np.mean (np.square audio_data)) in
  let rms_db := if Rgtb rms 0 then 20 * log10 rms else -100 in
  (rms, rms_db).

Definition calculate_peak (audio_data : list R) : result (R * R) :=
  peak <- np.max (np.abs audio_data) ;;
  let peak_db := if Rgtb peak 0 then 20 * log10 peak else -100 in
  Ok (peak, peak_db).

Definition calculate_cv (audio_data : list R) : R :=
  let abs_data := np.abs audio_data in
  if Rgtb (np.mean abs_data) 0
  then np.std abs_data / np.mean abs_data
  else 1.0.

Definition estimate_snr (audio_data : list R) : R :=
  let signal_power := np.mean (np.square audio_data) in
  let m := np.mean audio_data in
  let noise := map (fun x => x - m) audio_data in
  let noise_power := np.mean (np.square noise) in
  if Rgtb noise_power 0
  then 10 * log10 (signal_power / noise_power)
  else 100.

(** The loop of lines 118-129: the longest run of silent frames. *)
Definition longest_run (silence_mask : list bool) : nat :=
  let '(max_silence_frames, current_silence) :=
    fold_left
      (fun '(max_silence_frames, current_silence) (is_silence : bool) =>
         if is_silence then (max_silence_frames, S current_silence)
         else (Nat.max max_silence_frames current_silence, O))
      silence_mask (O, O) in
  Nat.max max_silence_frames current_silence.

Definition detect_silence (audio_data : list R) (sr : Z) (threshold_db : R)
  : result (R * R) :=
  let hop_length := hop_length_of sr in
  silence_mask <- frame_silence audio_data sr threshold_db ;;
  let non_speech_ratio :=
    INR (np.count silence_mask) / INR (length silence_mask) in
  let max_silence_frames := longest_run silence_mask in
  let max_silence := INR max_silence_frames * IZR hop_length / IZR sr in
  Ok (non_speech_ratio, max_silence).

(** Lines 168-175. *)
Definition check_standards (st : Standards) (m : Metrics) : bool :=
  Rgeb (m_rms_db m) (std_rms_db st) &&
  Rleb (m_peak_db m) (std_peak_db st) &&
  Rleb (m_cv m) (std_cv st) &&
  Rgeb (m_snr m) (std_snr st) &&
  Rleb (m_non_speech_ratio m) (std_non_speech_ratio st) &&
  Rleb (m_max_silence m) (std_max_silence st).

Definition evaluate_audio (self : AudioEvaluator) (audio_data : list R)
    (sr : Z) : result (Metrics * bool) :=
  let '(rms, rms_db) := calculate_rms audio_data in
  '(peak, peak_db) <- calculate_peak audio_data ;;
  let cv := calculate_cv audio_data in
  let snr := estimate_snr audio_data in
  '(non_speech_ratio, max_silence) <- detect_silence audio_data sr (-45) ;;
  let metrics :=
    {| m_rms := rms; m_rms_db := rms_db;
       m_peak := peak; m_peak_db := peak_db;
       m_cv := cv; m_snr := snr;
       m_non_speech_ratio := non_speech_ratio;
       m_max_silence := max_silence |} in
  let compliant := check_standards (standards self) metrics in
  Ok (metrics, compliant).

End Evaluator.

(** ** The specification's reading of the silence detector

    Section 4.1 of the specification, in its words: frames as in the code,
    each frame's energy in decibels as [10 * log10 (energy / max_energy)], or
    [-100] when the buffer is entirely silent. *)

Definition spec_energy_db (energy : list R) : result (list R) :=
  max_energy <- np.max energy ;;
  Ok (map (fun e =>
             if Req_dec_T max_energy 0 then -100
             else 10 * log10 (e / max_energy)) energy).

Definition spec_frame_silence (audio_data : list R) (sr : Z) (threshold_db : R)
  : result (list bool) :=
  energy <- frame_energy audio_data sr ;;
  energy_db <- spec_energy_db energy ;;
  Ok (map (fun d => Rltb d threshold_db) energy_db).

(** What [librosa.amplitude_to_db(energy, ref=np.max)] amounts to on frame
    energies: twenty times the logarithm of the clamped ratio, floored 80 dB
    below the loudest frame. *)
Definition clamped_db (max_energy e : R) : R :=
  Rmax (20 * log10 (Rmax 1e-5 e) - 20 * log10 (Rmax 1e-5 max_energy)) (-80).

(** ** The specification's reading of the smoothing filter

    A boxcar moving average of [w] samples around sample [k], the buffer
    taken as zero outside its range; the window is the one
    [np.convolve(..., mode='same')] centres. *)

Definition sample_at (x : list R) (z : Z) : R :=
  if (z <? 0)%Z then 0 else nth (Z.to_nat z) x 0.

Definition moving_average (w : nat) (x : list R) (k : nat) : R :=
  np.sum (map (fun i => sample_at x (Z.of_nat k + Z.of_nat ((w - 1) / 2)
                                     - Z.of_nat i))
              (seq 0 w)) / INR w.

(** The per-sample mixing rule of sections 4.4 and 4.5. *)
Definition mix (gain_silent gain_voiced keep_voiced : R)
    (silent : bool) (denoised original : R) : R :=
  if silent then gain_silent * denoised
  else gain_voiced * denoised + keep_voiced * original.

(** ** A small implementation of the transform interface

    Used to run the methods on concrete buffers: every frequency bin holds
    the sum of the samples in a single column, the inverse transform and the
    filter return silence and the input, and only the finest of the 30
    scales of the multiscale transform responds, with the signal itself. *)

Definition plain_transforms : Transforms :=
  {| stft := fun y => repeat [(np.sum y, 0)] 1025;
     istft := fun _ n => repeat 0 n;
     butter_filtfilt := fun x => x;
     cwt := fun x => x :: repeat (repeat 0 (length x)) 29;
     stft_rows := fun y => repeat_length [(np.sum y, 0)] 1025;
     istft_length := fun _ n => repeat_length 0 n;
     butter_filtfilt_length := fun x => eq_refl;
     cwt_rows := fun x =>
       f_equal S (repeat_length (repeat 0 (length x)) 29);
     cwt_cols := fun x row H =>
       match H with
       | or_introl e => f_equal (@length R) (eq_sym e)
       | or_intror H' =>
           eq_trans
             (f_equal (@length R)
                (repeat_spec 29 (repeat 0 (length x)) row H'))
             (repeat_length 0 (length x))
       end |}.

(** ** Buffers the framing accepts

    At least one hop of one sample, and at least one whole frame. *)
Definition framable (audio_data : list R) (sr : Z) : Prop :=
  (1 <= hop_length_of sr)%Z /\
  (frame_length_of sr <= Z.of_nat (length audio_data))%Z.

(** ** The silence loop of the evaluator, from an arbitrary state

    [Evaluator.longest_run] is this loop started with both counters at 0. *)
Definition run_final (silence_mask : list bool)
    (max_silence_frames current_silence : nat) : nat :=
  let '(max_silence_frames, current_silence) :=
    fold_left
      (fun '(max_silence_frames, current_silence) (is_silence : bool) =>
         if is_silence then (max_silence_frames, S current_silence)
         else (Nat.max max_silence_frames current_silence, O))
      silence_mask (max_silence_frames, current_silence) in
  Nat.max max_silence_frames current_silence.

(** ** ExperimentRunner.analyze_audio_pair

    Lines 106-139 of experiment_runner.py, from the two decoded buffers on:
    the decoding of the files ([librosa.load], which brings the processed
    file to the sample rate of the original) and the file name are left
    out. *)
Module Runner.

Record Improvements : Type := {
  rms_improvement : R;
  peak_improvement : R;
  snr_improvement : R;
  cv_improvement : R
}.

Record Analysis : Type := {
  original_compliant : bool;
  processed_compliant : bool;
  original_metrics : Evaluator.Metrics;
  processed_metrics : Evaluator.Metrics;
  improvements : Improvements
}.

Definition analyze_audio_pair (evaluator : Evaluator.AudioEvaluator)
    (original_audio processed_audio : list R) (sr : Z) : result Analysis :=
  let min_len := Nat.min (length original_audio) (length processed_audio) in
  let original_audio := firstn min_len original_audio in
  let processed_audio := firstn min_len processed_audio in
  '(original_metrics, original_compliant) <-
    Evaluator.evaluate_audio evaluator original_audio sr ;;
  '(processed_metrics, processed_compliant) <-
    Evaluator.evaluate_audio evaluator processed_audio sr ;;
  let improvements :=
    {| rms_improvement :=
         if Rgtb (Evaluator.m_rms original_metrics) 0
         then ((Evaluator.m_rms processed_metrics
                - Evaluator.m_rms original_metrics)
               / Evaluator.m_rms original_metrics) * 100
         else 0;
       peak_improvement :=
         if Rgtb (Evaluator.m_peak original_metrics) 0
         then ((Evaluator.m_peak processed_metrics
                - Evaluator.m_peak original_metrics)
               / Evaluator.m_peak original_metrics) * 100
         else 0;
       snr_improvement :=
         Evaluator.m_snr processed_metrics - Evaluator.m_snr original_metrics;
       cv_improvement :=
         if Rgtb (Evaluator.m_cv original_metrics) 0
         then ((Evaluator.m_cv processed_metrics
                - Evaluator.m_cv original_metrics)
               / Evaluator.m_cv original_metrics) * 100
         else 0 |} in
  Ok {| original_compliant := original_compliant;
        processed_compliant := processed_compliant;
        original_metrics := original_metrics;
        processed_metrics := processed_metrics;
        improvements := improvements |}.

End Runner.

(** * Basic facts *)

Lemma Rltb_true (x y : R) : Rltb x y = true <-> x < y.
Proof. unfold Rltb; destruct (Rlt_dec x y); split; intros; try easy. Qed.

Lemma Rltb_false (x y : R) : Rltb x y = false <-> y <= x.
Proof.
  unfold Rltb; destruct (Rlt_dec x y); split; intros; try easy; lra.
Qed.

Lemma Rleb_true (x y : R) : Rleb x y = true <-> x <= y.
Proof. unfold Rleb; destruct (Rle_dec x y); split; intros; try easy. Qed.

Lemma Rleb_false (x y : R) : Rleb x y = false <-> y < x.
Proof.
  unfold Rleb; destruct (Rle_dec x y); split; intros; try easy; lra.
Qed.

Lemma Rgtb_true (x y : R) : Rgtb x y = true <-> x > y.
Proof. unfold Rgtb; rewrite Rltb_true; lra. Qed.

Lemma Rgtb_false (x y : R) : Rgtb x y = false <-> x <= y.
Proof. unfold Rgtb; rewrite Rltb_false; lra. Qed.

Lemma Rgeb_true (x y : R) : Rgeb x y = true <-> x >= y.
Proof. unfold Rgeb; rewrite Rleb_true; lra. Qed.

Lemma Rgeb_false (x y : R) : Rgeb x y = false <-> x < y.
Proof. unfold Rgeb; rewrite Rleb_false; lra. Qed.

Lemma bind_Ok {A B : Type} (c : result A) (k : A -> result B) (b : B) :
  bind c k = Ok b -> exists a, c = Ok a /\ k a = Ok b.
Proof. destruct c as [a|e]; simpl; intros E; [eauto | discriminate]. Qed.

Lemma bind_Raise {A B : Type} (c : result A) (k : A -> result B) (e : exn) :
  c = Raise e -> bind c k = Raise e.
Proof. intros ->; reflexivity. Qed.

(** Inversion of a successful monadic computation, one bind at a time. *)
Ltac inv_bind H :=
  let a := fresh "a" in
  let E := fresh "E" in
  apply bind_Ok in H; destruct H as (a & E & H).

(** ** Matrices stored by rows *)

Lemma nth_map_rows {A B : Type} (f : A -> B) (m : list (list A)) (s : nat) :
  nth s (map (map f) m) [] = map f (nth s m []).
Proof. change (@nil B) with (map f []); apply map_nth. Qed.

Lemma nth_map_map (f : R -> R) (m : list (list R)) (s t : nat) :
  f 0 = 0 ->
  nth t (nth s (map (map f) m) []) 0 = f (nth t (nth s m []) 0).
Proof.
  intros f0; rewrite nth_map_rows.
  rewrite <- f0 at 1; apply map_nth.
Qed.

Lemma hard_threshold_0 (threshold : R) : hard_threshold threshold 0 = 0.
Proof. unfold hard_threshold; lra. Qed.

Lemma hard_threshold_cases (threshold c : R) :
  hard_threshold threshold c = if Rle_dec (Rabs c) threshold then 0 else c.
Proof.
  unfold hard_threshold.
  destruct (Rle_dec (Rabs c) threshold) as [Hle|Hgt].
  - apply Rgtb_false in Hle; rewrite Hle; lra.
  - assert (Hlt : Rabs c > threshold) by lra.
    apply Rgtb_true in Hlt; rewrite Hlt; lra.
Qed.

(** * Wavelet thresholding *)

(** C10. With the threshold [2.5 * median(|coefficients|) / 0.6745] of a
    reducer as constructed, every entry of the thresholded scale-by-time
    matrix is exactly zero when the coefficient's absolute value is at or
    below the threshold, and exactly the coefficient when it is strictly
    above; the reconstruction averages this matrix over the scales. *)
Theorem C10_hard_threshold_keeps_or_zeroes {T : Transforms}
    (sr : Z) (audio_data : list R) (s t : nat) :
  let self := NoiseReducer_init sr in
  let coeffs := cwt audio_data in
  let threshold := 2.5 * npx.median (np.abs (concat coeffs)) / 0.6745 in
  let thresholded := map (map (hard_threshold threshold)) coeffs in
  let c := nth t (nth s coeffs []) 0 in
  wavelet_threshold self coeffs = threshold /\
  wavelet_reconstruct self audio_data = npx.mean_axis0 thresholded /\
  nth t (nth s thresholded []) 0
  = (if Rle_dec (Rabs c) threshold then 0 else c).
Proof.
  cbv zeta; repeat split.
  rewrite (nth_map_map _ _ _ _ (hard_threshold_0 _)).
  apply hard_threshold_cases.
Qed.

(** * The sample-level silence mask *)

Lemma set_range_length (start stop : nat) (mask : list bool) :
  length (set_range start stop mask) = length mask.
Proof.
  unfold set_range.
  rewrite length_map, length_combine, length_seq; lia.
Qed.

Lemma expand_loop_length (frame_length hop_length n : nat)
    (l : list (nat * bool)) (acc : list bool) :
  length
    (fold_left
       (fun full_mask '(i, is_silence) =>
          let start := (i * hop_length)%nat in
          let stop := Nat.min (start + frame_length) n in
          if is_silence : bool then set_range start stop full_mask
          else full_mask) l acc)
  = length acc.
Proof.
  revert acc; induction l as [|[i b] l IH]; intros acc; simpl; [easy|].
  rewrite IH; destruct b; [apply set_range_length | reflexivity].
Qed.

Lemma expand_mask_length (n frame_length hop_length : nat)
    (silence_mask : list bool) :
  length (expand_mask n frame_length hop_length silence_mask) = n.
Proof.
  unfold expand_mask; rewrite expand_loop_length; apply repeat_length.
Qed.

Lemma detect_silence_length (self : NoiseReducer) (audio_data : list R)
    (threshold_db : option R) (mask : list bool) :
  detect_silence self audio_data threshold_db = Ok mask ->
  length mask = length audio_data.
Proof.
  unfold detect_silence; intros E; inv_bind E.
  injection E as <-; apply expand_mask_length.
Qed.

(** * Boolean-mask selection and assignment *)

Lemma select_loop_length {A : Type} (a : list A) (mask : list bool) :
  length mask = length a ->
  length (np.select_loop a mask) = np.count mask.
Proof.
  revert mask; induction a as [|x a IH]; intros [|b mask] E;
    simpl in *; try easy.
  injection E as E; unfold np.count in *; simpl.
  destruct b; simpl; rewrite IH; auto.
Qed.

Lemma select_Ok {A : Type} (a : list A) (mask : list bool) :
  length mask = length a -> np.select a mask = Ok (np.select_loop a mask).
Proof. unfold np.select; intros ->; rewrite Nat.eqb_refl; reflexivity. Qed.

Lemma assign_Ok {A : Type} (a : list A) (mask : list bool) (v : list A) :
  length mask = length a -> length v = np.count mask ->
  np.assign a mask v = Ok (np.assign_loop a mask v).
Proof.
  unfold np.assign; intros -> ->; rewrite !Nat.eqb_refl; reflexivity.
Qed.

Lemma assign_loop_length {A : Type} (a : list A) (mask : list bool)
    (v : list A) :
  length (np.assign_loop a mask v) = length a.
Proof.
  revert mask v; induction a as [|x a IH]; intros [|b mask] v;
    simpl; try easy.
  destruct b; [destruct v|]; simpl; rewrite IH; reflexivity.
Qed.

Lemma count_negb (mask : list bool) :
  (np.count mask + np.count (map negb mask) = length mask)%nat.
Proof.
  unfold np.count; induction mask as [|[|] mask IH]; simpl; lia.
Qed.

(** Selecting with a mask, transforming, and assigning under the same mask
    is a pointwise update of the entries the mask marks. *)
Lemma assign_select_nth (f : R -> R -> R) (mask : list bool) :
  forall (target d a : list R) (i : nat),
    length target = length mask -> length d = length mask ->
    length a = length mask -> (i < length mask)%nat ->
    nth i (np.assign_loop target mask
             (map (fun '(x, y) => f x y)
                (combine (np.select_loop d mask) (np.select_loop a mask)))) 0
    = if nth i mask false then f (nth i d 0) (nth i a 0) else nth i target 0.
Proof.
  induction mask as [|b mask IH];
    intros [|t0 target] [|d0 d] [|a0 a] i Ht Hd Ha Hi; simpl in *; try lia.
  destruct b; simpl.
  - destruct i as [|i]; [reflexivity|].
    apply IH; lia.
  - destruct i as [|i]; [reflexivity|].
    apply IH; lia.
Qed.

Lemma assign_select_nth1 (f : R -> R) (mask : list bool)
    (target d : list R) (i : nat) :
  length target = length mask -> length d = length mask ->
  (i < length mask)%nat ->
  nth i (np.assign_loop target mask (map f (np.select_loop d mask))) 0
  = if nth i mask false then f (nth i d 0) else nth i target 0.
Proof.
  intros Ht Hd Hi.
  rewrite <- (assign_select_nth (fun x _ => f x) mask target d d i)
    by assumption.
  do 2 f_equal.
  generalize (np.select_loop d mask) as l.
  induction l as [|x l IH]; simpl; [reflexivity | now rewrite IH].
Qed.

Lemma nth_negb (mask : list bool) (i : nat) :
  (i < length mask)%nat ->
  nth i (map negb mask) false = negb (nth i mask false).
Proof.
  intros Hi.
  rewrite (nth_indep _ false (negb false)) by (rewrite length_map; lia).
  apply map_nth.
Qed.

(** The blend returns whenever the three arrays have one length, and its
    value is the per-sample mixing rule. *)
Lemma mask_blend_spec (silence_mask : list bool) (denoised audio_data : list R)
    (gs gv kv : R) :
  length silence_mask = length audio_data ->
  length denoised = length audio_data ->
  exists out,
    mask_blend silence_mask denoised audio_data gs gv kv = Ok out /\
    length out = length audio_data /\
    forall i, (i < length audio_data)%nat ->
      nth i out 0
      = mix gs gv kv (nth i silence_mask false)
          (nth i denoised 0) (nth i audio_data 0).
Proof.
  intros Hm Hd.
  unfold mask_blend.
  assert (Hz : length (np.zeros (length audio_data)) = length silence_mask).
  { unfold np.zeros; rewrite repeat_length; lia. }
  assert (Hn : length (map negb silence_mask) = length audio_data).
  { rewrite length_map; exact Hm. }
  rewrite (select_Ok denoised silence_mask) by lia; simpl.
  rewrite assign_Ok;
    [| lia | rewrite length_map; apply select_loop_length; lia]; simpl.
  rewrite (select_Ok denoised (map negb silence_mask)) by lia; simpl.
  rewrite (select_Ok audio_data (map negb silence_mask)) by lia; simpl.
  rewrite assign_Ok;
    [| rewrite assign_loop_length, Hn; unfold np.zeros;
       now rewrite repeat_length
     | rewrite length_map, length_combine, !select_loop_length by lia; lia].
  eexists; split; [reflexivity|]; split.
  - rewrite !assign_loop_length; unfold np.zeros; apply repeat_length.
  - intros i Hi.
    rewrite (assign_select_nth (fun d a => d * gv + a * kv));
      try rewrite assign_loop_length; try lia.
    rewrite nth_negb by lia.
    rewrite assign_select_nth1 by lia.
    unfold mix; destruct (nth i silence_mask false); simpl; [lra|lra].
Qed.

(** * Maxima and decibels *)

Lemma fold_max_ge (t : list R) (x : R) : x <= fold_left Rmax t x.
Proof.
  revert x; induction t as [|y t IH]; intros x; simpl; [lra|].
  eapply Rle_trans; [apply (Rmax_l x y) | apply IH].
Qed.

Lemma fold_max_upper (t : list R) (x y : R) :
  In y (x :: t) -> y <= fold_left Rmax t x.
Proof.
  revert x; induction t as [|z t IH]; intros x [<-|Hy]; simpl in *;
    try easy; try lra.
  - eapply Rle_trans; [apply (Rmax_l x z) | apply fold_max_ge].
  - destruct Hy as [<-|Hy].
    + eapply Rle_trans; [apply (Rmax_r x z) | apply fold_max_ge].
    + apply IH; right; exact Hy.
Qed.

Lemma fold_max_in (t : list R) (x : R) : In (fold_left Rmax t x) (x :: t).
Proof.
  revert x; induction t as [|z t IH]; intros x; simpl; [auto|].
  destruct (IH (Rmax x z)) as [E|Hin]; [|auto].
  rewrite <- E; unfold Rmax; destruct (Rle_dec x z); auto.
Qed.

Lemma max_Ok (l : list R) (m : R) :
  np.max l = Ok m <-> In m l /\ forall y, In y l -> y <= m.
Proof.
  destruct l as [|x t]; simpl.
  - split; [discriminate | intros [[] _]].
  - split.
    + intros E; injection E as <-; split;
        [apply fold_max_in | apply fold_max_upper].
    + intros [Hin Hub]; f_equal.
      apply Rle_antisym; [apply Hub, fold_max_in|].
      now apply fold_max_upper.
Qed.

Lemma max_returns (l : list R) : l <> [] -> exists m, np.max l = Ok m.
Proof. destruct l; [easy | simpl; eauto]. Qed.

Lemma ln10_pos : 0 < ln 10.
Proof. rewrite <- ln_1; apply ln_increasing; lra. Qed.

Lemma log10_le (x y : R) : 0 < x -> x <= y -> log10 x <= log10 y.
Proof.
  intros Hx [Hlt| ->]; [|lra].
  unfold log10; apply Rmult_le_compat_r.
  - left; apply Rinv_0_lt_compat, ln10_pos.
  - left; now apply ln_increasing.
Qed.

Lemma log10_square (x : R) : 0 < x -> log10 (x * x) = 2 * log10 x.
Proof.
  intros Hx; unfold log10; rewrite ln_mult by assumption.
  pose proof ln10_pos; field; lra.
Qed.

Lemma log10_1 : log10 1 = 0.
Proof. unfold log10; rewrite ln_1; lra. Qed.

Lemma log10_pow10_inv (n : nat) : log10 (/ 10 ^ n) = - INR n.
Proof.
  unfold log10; rewrite ln_Rinv by (apply pow_lt; lra).
  rewrite ln_pow by lra.
  pose proof ln10_pos; field; lra.
Qed.

Lemma log10_lt (x y : R) : 0 < x -> x < y -> log10 x < log10 y.
Proof.
  intros Hx Hlt; unfold log10; apply Rmult_lt_compat_r.
  - apply Rinv_0_lt_compat, ln10_pos.
  - now apply ln_increasing.
Qed.

Lemma log10_100 : log10 100 = 2.
Proof.
  replace 100 with (10 ^ 2) by lra.
  unfold log10; rewrite ln_pow by lra.
  pose proof ln10_pos; simpl; field; lra.
Qed.

Lemma Rmax_square (a e : R) :
  0 <= a -> 0 <= e -> Rmax (a * a) (e * e) = Rmax a e * Rmax a e.
Proof.
  intros Ha He; unfold Rmax.
  destruct (Rle_dec a e), (Rle_dec (a * a) (e * e)); try reflexivity; nra.
Qed.

(** On a non-negative value, the decibel entry that [power_to_db] computes
    from the squared input is [20 * log10] of the clamped value. *)
Lemma db_entry (M e : R) :
  0 <= M -> 0 <= e ->
  10 * log10 (Rmax (1e-5 * 1e-5) (e * e))
  - 10 * log10 (Rmax (1e-5 * 1e-5) (M * M))
  = 20 * log10 (Rmax 1e-5 e) - 20 * log10 (Rmax 1e-5 M).
Proof.
  intros HM He.
  rewrite !Rmax_square by lra.
  rewrite !log10_square; [lra | |];
    (eapply Rlt_le_trans; [|apply Rmax_l]; lra).
Qed.

Lemma db_entry_nonpos (M e : R) :
  e <= M -> 20 * log10 (Rmax 1e-5 e) - 20 * log10 (Rmax 1e-5 M) <= 0.
Proof.
  intros Hle.
  assert (log10 (Rmax 1e-5 e) <= log10 (Rmax 1e-5 M)); [|lra].
  apply log10_le.
  - eapply Rlt_le_trans; [|apply Rmax_l]; lra.
  - now apply Rle_max_compat_l.
Qed.

Lemma abs_nonneg_id (l : list R) :
  (forall x, In x l -> 0 <= x) -> np.abs l = l.
Proof.
  unfold np.abs; induction l as [|x l IH]; intros H; simpl; [reflexivity|].
  rewrite Rabs_right by (apply Rle_ge, H; simpl; auto).
  rewrite IH; [reflexivity | intros; apply H; simpl; auto].
Qed.

(** [librosa.amplitude_to_db(energy, ref=np.max)] on non-negative energies:
    every frame is measured against the loudest, both clamped at [1e-5],
    with twenty (not ten) times the logarithm, and floored at -80 dB. *)
Lemma amplitude_to_db_clamped (energy : list R) (max_energy : R) :
  (forall e, In e energy -> 0 <= e) ->
  np.max energy = Ok max_energy ->
  librosa.amplitude_to_db energy = Ok (map (clamped_db max_energy) energy).
Proof.
  intros Hpos Hmax.
  unfold librosa.amplitude_to_db, librosa.power_to_db.
  rewrite (abs_nonneg_id _ Hpos), Hmax; simpl.
  apply max_Ok in Hmax; destruct Hmax as [Hin Hub].
  pose proof (Hpos _ Hin) as HM.
  unfold np.square; rewrite map_map.
  assert (Htop : np.max
            (map (fun x => 10 * log10 (Rmax (1e-5 * 1e-5) (x * x))
                           - 10 * log10 (Rmax (1e-5 * 1e-5)
                                           (max_energy * max_energy)))
               energy) = Ok 0).
  { apply max_Ok; split.
    - apply in_map_iff; exists max_energy; split; [|assumption]. lra.
    - intros y Hy; apply in_map_iff in Hy; destruct Hy as (e & <- & He).
      rewrite db_entry by auto.
      apply db_entry_nonpos; auto. }
  rewrite Htop; simpl; f_equal.
  rewrite map_map; apply map_ext_in; intros e He.
  rewrite db_entry by auto.
  unfold clamped_db; f_equal; lra.
Qed.

(** * Framing *)

Lemma sum_square_nonneg (f : list R) : 0 <= np.sum (np.square f).
Proof. induction f as [|x f IH]; simpl; [lra | nra]. Qed.

Lemma frame_Ok (x : list R) (frame_length hop_length : Z) :
  (1 <= hop_length)%Z -> (frame_length <= Z.of_nat (length x))%Z ->
  exists n,
    librosa.frame x frame_length hop_length
    = Ok (map (fun i => firstn (Z.to_nat frame_length)
                          (skipn (i * Z.to_nat hop_length) x))
              (seq 0 (S n))).
Proof.
  intros Hhop Hlen; unfold librosa.frame.
  destruct (Z.ltb_spec (Z.of_nat (length x)) frame_length); [lia|].
  destruct (Z.ltb_spec hop_length 1); [lia|].
  assert (Hq : (0 <= (Z.of_nat (length x) - frame_length) / hop_length)%Z)
    by (apply Z.div_pos; lia).
  exists (Z.to_nat ((Z.of_nat (length x) - frame_length) / hop_length)).
  do 3 f_equal; lia.
Qed.

Lemma frame_raises_short (x : list R) (frame_length hop_length : Z) :
  (Z.of_nat (length x) < frame_length)%Z ->
  librosa.frame x frame_length hop_length = Raise ParameterError.
Proof.
  intros H; unfold librosa.frame.
  destruct (Z.ltb_spec (Z.of_nat (length x)) frame_length); [reflexivity|lia].
Qed.

Lemma frame_raises_hop (x : list R) (frame_length hop_length : Z) :
  (hop_length < 1)%Z ->
  librosa.frame x frame_length hop_length = Raise ParameterError.
Proof.
  intros H; unfold librosa.frame.
  destruct (Z.ltb_spec (Z.of_nat (length x)) frame_length); [reflexivity|].
  destruct (Z.ltb_spec hop_length 1); [reflexivity|lia].
Qed.

(** The framing rejects every buffer unless it is [framable]. *)
Lemma frame_energy_raises (audio_data : list R) (sr : Z) :
  ~ framable audio_data sr ->
  frame_energy audio_data sr = Raise ParameterError.
Proof.
  intros Hn; unfold frame_energy.
  destruct (Z.lt_ge_cases (Z.of_nat (length audio_data)) (frame_length_of sr)).
  - now rewrite frame_raises_short.
  - rewrite frame_raises_hop; [reflexivity|].
    unfold framable in Hn; lia.
Qed.

Lemma frame_energy_Ok (audio_data : list R) (sr : Z) :
  framable audio_data sr ->
  exists frames,
    librosa.frame audio_data (frame_length_of sr) (hop_length_of sr)
    = Ok frames /\
    frames <> [] /\
    (forall f, In f frames ->
       (length f <= Z.to_nat (frame_length_of sr))%nat) /\
    frame_energy audio_data sr
    = Ok (map (fun f => np.sum (np.square f)) frames).
Proof.
  intros [Hhop Hlen].
  destruct (frame_Ok audio_data _ _ Hhop Hlen) as [n E].
  eexists; split; [exact E|]; split; [simpl; discriminate|]; split.
  - intros f Hf; apply in_map_iff in Hf; destruct Hf as (i & <- & _).
    rewrite length_firstn; lia.
  - unfold frame_energy; rewrite E; reflexivity.
Qed.

Lemma frame_energy_inv (audio_data : list R) (sr : Z) (energy : list R) :
  frame_energy audio_data sr = Ok energy ->
  framable audio_data sr /\ energy <> [] /\
  forall e, In e energy -> 0 <= e.
Proof.
  intros E.
  assert (Hf : framable audio_data sr).
  { destruct (Z.lt_ge_cases (hop_length_of sr) 1);
      [|destruct (Z.lt_ge_cases (Z.of_nat (length audio_data))
                    (frame_length_of sr))].
    - rewrite frame_energy_raises in E; [discriminate|].
      unfold framable; lia.
    - rewrite frame_energy_raises in E; [discriminate|].
      unfold framable; lia.
    - split; lia. }
  split; [exact Hf|].
  destruct (frame_energy_Ok _ _ Hf) as (frames & _ & Hne & _ & E').
  rewrite E' in E; injection E as <-; split.
  - destruct frames; [easy | simpl; discriminate].
  - intros e He; apply in_map_iff in He; destruct He as (f & <- & _).
    apply sum_square_nonneg.
Qed.

(** The frame-level mask, in closed form. *)
Lemma frame_silence_clamped (audio_data : list R) (sr : Z) (threshold_db : R)
    (energy : list R) :
  frame_energy audio_data sr = Ok energy ->
  exists max_energy,
    np.max energy = Ok max_energy /\
    librosa.amplitude_to_db energy = Ok (map (clamped_db max_energy) energy) /\
    frame_silence audio_data sr threshold_db
    = Ok (map (fun e => Rltb (clamped_db max_energy e) threshold_db) energy).
Proof.
  intros E.
  destruct (frame_energy_inv _ _ _ E) as (_ & Hne & Hpos).
  destruct (max_returns _ Hne) as [M HM].
  exists M; split; [exact HM|].
  pose proof (amplitude_to_db_clamped _ _ Hpos HM) as Hdb.
  split; [exact Hdb|].
  unfold frame_silence; rewrite E; simpl; rewrite Hdb; simpl.
  now rewrite map_map.
Qed.

Lemma frame_silence_Ok (audio_data : list R) (sr : Z) (threshold_db : R) :
  framable audio_data sr ->
  exists mask, frame_silence audio_data sr threshold_db = Ok mask /\
               mask <> [].
Proof.
  intros Hf.
  destruct (frame_energy_Ok _ _ Hf) as (frames & _ & Hne & _ & E).
  destruct (frame_silence_clamped _ _ threshold_db _ E) as (M & _ & _ & ->).
  eexists; split; [reflexivity|].
  destruct frames; [easy | simpl; discriminate].
Qed.

Lemma frame_silence_raises (audio_data : list R) (sr : Z) (threshold_db : R) :
  ~ framable audio_data sr ->
  frame_silence audio_data sr threshold_db = Raise ParameterError.
Proof.
  intros Hn; unfold frame_silence.
  now rewrite frame_energy_raises.
Qed.

(** A frame whose energy and the loudest frame's are both at most [1e-5]
    measures 0 dB. *)
Lemma clamped_db_quiet (max_energy e : R) :
  max_energy <= 1e-5 -> e <= 1e-5 -> clamped_db max_energy e = 0.
Proof.
  intros HM He; unfold clamped_db.
  rewrite !(Rmax_left 1e-5) by assumption.
  rewrite Rmax_left; lra.
Qed.

(** The loudest frame measures 0 dB, so it is never below a negative
    threshold. *)
Lemma clamped_db_loudest (max_energy : R) :
  clamped_db max_energy max_energy = 0.
Proof. unfold clamped_db; rewrite Rmax_left; lra. Qed.

(** * The silence detector's decibel scale *)

(** What the detector of both classes computes, for every buffer the
    framing accepts. *)
Lemma silence_detectors_closed_form (self : NoiseReducer)
    (audio_data : list R) (energy : list R) (max_energy : R) :
  frame_energy audio_data (sample_rate self) = Ok energy ->
  np.max energy = Ok max_energy ->
  detect_silence self audio_data None
  = Ok (expand_mask (length audio_data)
          (Z.to_nat (frame_length_of (sample_rate self)))
          (Z.to_nat (hop_length_of (sample_rate self)))
          (map (fun e => Rltb (clamped_db max_energy e)
                           (silence_threshold_db self)) energy)).
Proof.
  intros E HM.
  destruct (frame_silence_clamped _ _ (silence_threshold_db self) _ E)
    as (M & HM' & _ & Hs).
  rewrite HM in HM'; injection HM' as <-.
  unfold detect_silence; rewrite Hs; reflexivity.
Qed.

(** C5 (as amended). For every buffer the framing accepts, each 20 ms frame's
    energy is the sum of its squared samples, and its decibel value is the
    one of [librosa.amplitude_to_db(energy, ref=np.max)]:
    [20 * log10 (max (energy, 1e-5)) - 20 * log10 (max (max_energy, 1e-5))],
    floored at -80 dB. There is no -100 dB sentinel: when no frame energy
    exceeds [1e-5], as in an entirely silent buffer, every frame measures
    0 dB. A frame is silent exactly when its decibel value is strictly below
    the threshold, -45 dB by default. *)
Theorem C5_frame_decibels (self : NoiseReducer) (audio_data : list R)
    (threshold_db : R) :
  let sr := sample_rate self in
  framable audio_data sr ->
  exists frames max_energy,
    librosa.frame audio_data (Z.quot (2 * sr) 100) (Z.quot sr 100)
    = Ok frames /\
    let energy := map (fun f => np.sum (np.square f)) frames in
    let db e :=
      Rmax (20 * log10 (Rmax 1e-5 e) - 20 * log10 (Rmax 1e-5 max_energy))
           (-80) in
    np.max energy = Ok max_energy /\
    librosa.amplitude_to_db energy = Ok (map db energy) /\
    frame_silence audio_data sr threshold_db
    = Ok (map (fun e => Rltb (db e) threshold_db) energy) /\
    (forall e, Rltb (db e) threshold_db = true <-> db e < threshold_db) /\
    (max_energy <= 1e-5 -> forall e, In e energy -> db e = 0) /\
    detect_silence self audio_data None
    = Ok (expand_mask (length audio_data)
            (Z.to_nat (frame_length_of sr)) (Z.to_nat (hop_length_of sr))
            (map (fun e => Rltb (db e) (silence_threshold_db self)) energy)) /\
    silence_threshold_db (NoiseReducer_init sr) = -45.
Proof.
  intros sr Hf.
  destruct (frame_energy_Ok _ _ Hf) as (frames & Hfr & _ & _ & E).
  destruct (frame_silence_clamped _ _ threshold_db _ E) as (M & HM & Hdb & Hs).
  exists frames, M; cbv zeta.
  split; [exact Hfr|].
  split; [exact HM|].
  split; [exact Hdb|].
  split; [exact Hs|].
  split; [intros e; apply Rltb_true|].
  split.
  - intros HMle e He.
    apply clamped_db_quiet; [exact HMle|].
    apply max_Ok in HM; destruct HM as [_ Hub].
    eapply Rle_trans; [apply Hub, He | exact HMle].
  - split; [|reflexivity].
    now apply silence_detectors_closed_form.
Qed.

Lemma log10_1e_4 : log10 0.0001 = -4.
Proof.
  replace 0.0001 with (/ 10 ^ 4) by lra.
  rewrite log10_pow10_inv; simpl; lra.
Qed.

Lemma log10_1e_5 : log10 1e-5 = -5.
Proof.
  replace 1e-5 with (/ 10 ^ 5) by lra.
  rewrite log10_pow10_inv; simpl; lra.
Qed.

Lemma framable_3_at_100 (a b c : R) : framable [a; b; c] 100.
Proof. unfold framable; simpl; split; vm_compute; discriminate. Qed.

Lemma C5_frame_decibels_witness :
  exists frames max_energy,
    librosa.frame [1; 0; 0.01] (Z.quot (2 * 100) 100) (Z.quot 100 100)
    = Ok frames /\
    np.max (map (fun f => np.sum (np.square f)) frames) = Ok max_energy.
Proof.
  destruct (C5_frame_decibels (NoiseReducer_init 100) [1; 0; 0.01] (-45)
              (framable_3_at_100 _ _ _))
    as (frames & M & Hfr & HM & _).
  exists frames, M; split; [exact Hfr | exact HM].
Defined.

Lemma frame_energy_example :
  frame_energy [1; 0; 0.01] 100 = Ok [1; 0.0001].
Proof.
  unfold frame_energy.
  change (librosa.frame [1; 0; 0.01] (frame_length_of 100) (hop_length_of 100))
    with (Ok [[1; 0]; [0; 0.01]]).
  simpl; do 3 f_equal; lra.
Qed.

(** C5 as the specification states it fails: at 100 Hz the buffer
    [1, 0, 0.01] has the
    frame energies [1, 0.0001]; the second frame is 40 dB below the first by
    [10 * log10 (energy / max_energy)], hence not silent at -45 dB, but the
    detector measures it at -80 dB and marks it silent. *)
Lemma C5_counterexample :
  frame_silence [1; 0; 0.01] 100 (-45) = Ok [false; true] /\
  spec_frame_silence [1; 0; 0.01] 100 (-45) = Ok [false; false].
Proof.
  assert (Hmax : np.max [1; 0.0001] = Ok 1).
  { simpl; f_equal; apply Rmax_left; lra. }
  split.
  - destruct (frame_silence_clamped _ _ (-45) _ frame_energy_example)
      as (M & HM & _ & ->).
    rewrite Hmax in HM; injection HM as <-.
    simpl; do 2 f_equal.
    + apply Rltb_false; rewrite clamped_db_loudest; lra.
    + f_equal; apply Rltb_true; unfold clamped_db.
      rewrite (Rmax_right 1e-5 0.0001), (Rmax_right 1e-5 1) by lra.
      rewrite log10_1e_4, log10_1; rewrite Rmax_left; lra.
  - unfold spec_frame_silence; rewrite frame_energy_example.
    unfold bind at 1; unfold spec_energy_db; rewrite Hmax; simpl.
    destruct (Req_dec_T 1 0) as [H|_]; [lra|].
    do 2 f_equal.
    + apply Rltb_false.
      replace (1 / 1) with 1 by lra; rewrite log10_1; lra.
    + f_equal; apply Rltb_false.
      replace (0.0001 / 1) with 0.0001 by lra; rewrite log10_1e_4; lra.
Qed.

(** * Near-silent buffers *)

Lemma in_firstn {A : Type} (n : nat) (l : list A) (x : A) :
  In x (firstn n l) -> In x l.
Proof.
  intros H; rewrite <- (firstn_skipn n l); apply in_or_app; now left.
Qed.

Lemma in_skipn {A : Type} (n : nat) (l : list A) (x : A) :
  In x (skipn n l) -> In x l.
Proof.
  intros H; rewrite <- (firstn_skipn n l); apply in_or_app; now right.
Qed.

Lemma frame_members (x : list R) (frame_length hop_length : Z)
    (frames : list (list R)) (f : list R) (s : R) :
  librosa.frame x frame_length hop_length = Ok frames ->
  In f frames -> In s f -> In s x.
Proof.
  unfold librosa.frame.
  destruct (_ <? _)%Z; [discriminate|].
  destruct (_ <? _)%Z; [discriminate|].
  intros E; injection E as <-.
  intros Hf Hs; apply in_map_iff in Hf; destruct Hf as (i & <- & _).
  eapply in_skipn, in_firstn, Hs.
Qed.

Lemma sum_square_bound (f : list R) (a : R) :
  (forall s, In s f -> Rabs s <= a) ->
  np.sum (np.square f) <= INR (length f) * (a * a).
Proof.
  induction f as [|s f IH]; intros H.
  - simpl; lra.
  - change (np.sum (np.square (s :: f)))
      with (s * s + np.sum (np.square f)).
    rewrite length_cons, S_INR.
    assert (Hs : Rabs s <= a) by (apply H; simpl; auto).
    assert (Hss : s * s <= a * a).
    { pose proof (Rabs_pos s).
      replace (s * s) with (Rabs s * Rabs s)
        by (unfold Rabs; destruct (Rcase_abs s); lra).
      nra. }
    assert (np.sum (np.square f) <= INR (length f) * (a * a))
      by (apply IH; intros; apply H; simpl; auto).
    lra.
Qed.

Lemma longest_run_loop_false (mask : list bool) :
  (forall b, In b mask -> b = false) ->
  fold_left
    (fun '(max_silence_frames, current_silence) (is_silence : bool) =>
       if is_silence then (max_silence_frames, S current_silence)
       else (Nat.max max_silence_frames current_silence, O))
    mask (O, O) = (O, O).
Proof.
  induction mask as [|b mask IH]; intros H; simpl; [reflexivity|].
  rewrite (H b) by (simpl; auto); simpl.
  apply IH; intros; apply H; simpl; auto.
Qed.

Lemma count_false (mask : list bool) :
  (forall b, In b mask -> b = false) -> np.count mask = O.
Proof.
  unfold np.count; induction mask as [|b mask IH]; intros H; [reflexivity|].
  simpl; rewrite (H b) by (simpl; auto).
  apply IH; intros; apply H; simpl; auto.
Qed.

Lemma framable_frame_length (audio_data : list R) (sr : Z) :
  framable audio_data sr -> (2 <= frame_length_of sr)%Z.
Proof.
  intros [Hhop _]; unfold frame_length_of, hop_length_of in *.
  Z.to_euclidean_division_equations; lia.
Qed.

(** When every sample is within [a] of zero and a whole frame of such
    samples stays under the [1e-5] clamp, every frame measures 0 dB, and no
    frame is below a negative threshold. *)
Lemma bounded_buffer_no_silence (a : R) (audio_data : list R) (sr : Z)
    (threshold_db : R) :
  framable audio_data sr ->
  0 <= a -> IZR (frame_length_of sr) * (a * a) <= 1e-5 ->
  threshold_db <= 0 ->
  (forall s, In s audio_data -> Rabs s <= a) ->
  exists mask,
    frame_silence audio_data sr threshold_db = Ok mask /\
    mask <> [] /\ forall b, In b mask -> b = false.
Proof.
  intros Hf Ha Hfl Hth Hq.
  destruct (frame_energy_Ok _ _ Hf) as (frames & Hfr & Hne & Hlen & E).
  destruct (frame_silence_clamped _ _ threshold_db _ E) as (M & HM & _ & Hs).
  assert (Hquiet : forall e,
             In e (map (fun f => np.sum (np.square f)) frames) -> e <= 1e-5).
  { intros e He; apply in_map_iff in He; destruct He as (f & <- & Hin).
    eapply Rle_trans.
    - apply (sum_square_bound f a).
      intros s Hs'; apply Hq; eapply frame_members; eauto.
    - assert (HI : INR (length f) <= IZR (frame_length_of sr)).
      { rewrite INR_IZR_INZ; apply IZR_le.
        specialize (Hlen f Hin).
        pose proof (framable_frame_length _ _ Hf); lia. }
      assert (0 <= a * a) by nra.
      eapply Rle_trans; [|exact Hfl].
      apply Rmult_le_compat_r; assumption. }
  eexists; split; [exact Hs|]; split.
  - destruct frames; [easy | simpl; discriminate].
  - intros b Hb; apply in_map_iff in Hb; destruct Hb as (e & <- & He).
    apply Rltb_false; rewrite clamped_db_quiet; auto.
    apply Hquiet, max_Ok, HM.
Qed.

Lemma bounded_buffer_detect_silence (a : R) (audio_data : list R) (sr : Z) :
  framable audio_data sr ->
  0 <= a -> IZR (frame_length_of sr) * (a * a) <= 1e-5 ->
  (forall s, In s audio_data -> Rabs s <= a) ->
  Evaluator.detect_silence audio_data sr (-45) = Ok (0, 0).
Proof.
  intros Hf Ha Hfl Hq.
  destruct (bounded_buffer_no_silence a _ _ (-45) Hf Ha Hfl ltac:(lra) Hq)
    as (mask & E & _ & Hfalse).
  unfold Evaluator.detect_silence; rewrite E; simpl.
  unfold Evaluator.longest_run.
  rewrite (longest_run_loop_false _ Hfalse), (count_false _ Hfalse); simpl.
  do 2 f_equal; unfold Rdiv; lra.
Qed.

Lemma quiet_buffer_detect_silence (audio_data : list R) (sr : Z) :
  framable audio_data sr ->
  (frame_length_of sr <= 10 ^ 7)%Z ->
  (forall s, In s audio_data -> Rabs s <= 1e-6) ->
  Evaluator.detect_silence audio_data sr (-45) = Ok (0, 0).
Proof.
  intros Hf Hfl Hq.
  apply (bounded_buffer_detect_silence 1e-6); try assumption; [lra|].
  apply IZR_le in Hfl; change (10 ^ 7)%Z with 10000000%Z in Hfl; lra.
Qed.

Lemma zero_buffer_detect_silence (audio_data : list R) (sr : Z) :
  framable audio_data sr ->
  (forall s, In s audio_data -> s = 0) ->
  Evaluator.detect_silence audio_data sr (-45) = Ok (0, 0).
Proof.
  intros Hf Hz.
  apply (bounded_buffer_detect_silence 0); try assumption; [lra | lra |].
  intros s Hs; rewrite (Hz s Hs), Rabs_R0; lra.
Qed.

(** The record [evaluate_audio] returns, given its two fallible steps. *)
Lemma evaluate_audio_Ok (self : Evaluator.AudioEvaluator)
    (audio_data : list R) (sr : Z) (peak peak_db ratio silence : R) :
  Evaluator.calculate_peak audio_data = Ok (peak, peak_db) ->
  Evaluator.detect_silence audio_data sr (-45) = Ok (ratio, silence) ->
  let m :=
    {| Evaluator.m_rms := fst (Evaluator.calculate_rms audio_data);
       Evaluator.m_rms_db := snd (Evaluator.calculate_rms audio_data);
       Evaluator.m_peak := peak;
       Evaluator.m_peak_db := peak_db;
       Evaluator.m_cv := Evaluator.calculate_cv audio_data;
       Evaluator.m_snr := Evaluator.estimate_snr audio_data;
       Evaluator.m_non_speech_ratio := ratio;
       Evaluator.m_max_silence := silence |} in
  Evaluator.evaluate_audio self audio_data sr
  = Ok (m, Evaluator.check_standards (Evaluator.standards self) m).
Proof.
  intros Hp Hd; unfold Evaluator.evaluate_audio; simpl.
  rewrite Hp; simpl; rewrite Hd; reflexivity.
Qed.

Lemma calculate_peak_Ok (audio_data : list R) :
  audio_data <> [] ->
  exists peak, Evaluator.calculate_peak audio_data
               = Ok (peak, if Rgtb peak 0 then 20 * log10 peak else -100) /\
               np.max (np.abs audio_data) = Ok peak.
Proof.
  intros Hne; unfold Evaluator.calculate_peak.
  destruct (max_returns (np.abs audio_data)) as [p Hp].
  - destruct audio_data; [easy | simpl; discriminate].
  - exists p; rewrite Hp; auto.
Qed.

Lemma framable_nonempty (audio_data : list R) (sr : Z) :
  framable audio_data sr -> audio_data <> [].
Proof.
  intros [Hhop Hlen] ->; simpl in Hlen.
  unfold frame_length_of, hop_length_of in *.
  Z.to_euclidean_division_equations; lia.
Qed.

(** C6 (as amended). For every buffer whose samples all have amplitude at
    most [1e-6] (long enough to be framed, with frames of at most [10^7]
    samples), [evaluate_audio] returns, and its silence detection reports a
    non-speech ratio of 0 and a longest silence of 0 seconds: no frame is
    silent relative to the loudest one. *)
Theorem C6_quiet_buffer_has_no_silence (self : Evaluator.AudioEvaluator)
    (audio_data : list R) (sr : Z) :
  framable audio_data sr ->
  (frame_length_of sr <= 10 ^ 7)%Z ->
  (forall s, In s audio_data -> Rabs s <= 1e-6) ->
  exists m compliant,
    Evaluator.evaluate_audio self audio_data sr = Ok (m, compliant) /\
    Evaluator.m_non_speech_ratio m = 0 /\
    Evaluator.m_max_silence m = 0.
Proof.
  intros Hf Hfl Hq.
  destruct (calculate_peak_Ok _ (framable_nonempty _ _ Hf)) as (p & Hp & _).
  pose proof (quiet_buffer_detect_silence _ _ Hf Hfl Hq) as Hd.
  eexists; eexists; split;
    [apply (evaluate_audio_Ok self _ _ _ _ _ _ Hp Hd) | split; reflexivity].
Qed.

Lemma zeros_quiet (s : R) : In s [0; 0; 0] -> Rabs s <= 1e-6.
Proof.
  intros H; assert (s = 0) as -> by (simpl in H; intuition).
  rewrite Rabs_R0; lra.
Qed.

Lemma C6_quiet_buffer_witness :
  exists m compliant,
    Evaluator.evaluate_audio Evaluator.init [0; 0; 0] 100
    = Ok (m, compliant) /\
    Evaluator.m_non_speech_ratio m = 0 /\
    Evaluator.m_max_silence m = 0.
Proof.
  apply (C6_quiet_buffer_has_no_silence Evaluator.init [0; 0; 0] 100).
  - apply framable_3_at_100.
  - vm_compute; discriminate.
  - apply zeros_quiet.
Defined.

(** C6 as the specification states it fails: three samples of exact
    silence at 100 Hz
    (0.03 seconds) are reported with a non-speech ratio of 0, not 1, and a
    longest silence of 0 seconds, not 0.03. *)
Lemma C6_counterexample :
  exists m compliant,
    Evaluator.evaluate_audio Evaluator.init [0; 0; 0] 100
    = Ok (m, compliant) /\
    (forall s, In s [0; 0; 0] -> Rabs s <= 1e-6) /\
    Evaluator.m_non_speech_ratio m <> 1.0 /\
    Evaluator.m_max_silence m <> INR (length [0; 0; 0]) / IZR 100.
Proof.
  destruct (calculate_peak_Ok [0; 0; 0] ltac:(discriminate)) as (p & Hp & _).
  pose proof (quiet_buffer_detect_silence [0; 0; 0] 100
                (framable_3_at_100 _ _ _) ltac:(vm_compute; discriminate)
                zeros_quiet) as Hd.
  eexists; eexists; split;
    [apply (evaluate_audio_Ok Evaluator.init _ _ _ _ _ _ Hp Hd)|].
  split; [apply zeros_quiet|]; simpl; split; lra.
Qed.

(** * The compliance verdict *)

Lemma check_standards_iff (st : Evaluator.Standards) (m : Evaluator.Metrics) :
  Evaluator.check_standards st m = true <->
  Evaluator.m_rms_db m >= Evaluator.std_rms_db st /\
  Evaluator.m_peak_db m <= Evaluator.std_peak_db st /\
  Evaluator.m_cv m <= Evaluator.std_cv st /\
  Evaluator.m_snr m >= Evaluator.std_snr st /\
  Evaluator.m_non_speech_ratio m <= Evaluator.std_non_speech_ratio st /\
  Evaluator.m_max_silence m <= Evaluator.std_max_silence st.
Proof.
  unfold Evaluator.check_standards.
  rewrite !andb_true_iff, !Rgeb_true, !Rleb_true; tauto.
Qed.

Lemma evaluate_audio_verdict (self : Evaluator.AudioEvaluator)
    (audio_data : list R) (sr : Z) (m : Evaluator.Metrics) (compliant : bool) :
  Evaluator.evaluate_audio self audio_data sr = Ok (m, compliant) ->
  compliant = Evaluator.check_standards (Evaluator.standards self) m.
Proof.
  unfold Evaluator.evaluate_audio.
  destruct (Evaluator.calculate_rms audio_data) as [rms rms_db].
  intros E; inv_bind E; destruct a as [peak peak_db].
  inv_bind E; destruct a as [ratio silence].
  now injection E as <- <-.
Qed.

Lemma evaluate_zeros_returns :
  exists m compliant,
    Evaluator.evaluate_audio Evaluator.init [0; 0; 0] 100 = Ok (m, compliant).
Proof.
  destruct (calculate_peak_Ok [0; 0; 0] ltac:(discriminate)) as (p & Hp & _).
  pose proof (quiet_buffer_detect_silence [0; 0; 0] 100
                (framable_3_at_100 _ _ _) ltac:(vm_compute; discriminate)
                zeros_quiet) as Hd.
  eexists; eexists.
  apply (evaluate_audio_Ok Evaluator.init _ _ _ _ _ _ Hp Hd).
Qed.

Lemma evaluate_audio_inv (self : Evaluator.AudioEvaluator)
    (audio_data : list R) (sr : Z) (m : Evaluator.Metrics) (compliant : bool) :
  Evaluator.evaluate_audio self audio_data sr = Ok (m, compliant) ->
  Evaluator.calculate_rms audio_data
  = (Evaluator.m_rms m, Evaluator.m_rms_db m) /\
  Evaluator.calculate_peak audio_data
  = Ok (Evaluator.m_peak m, Evaluator.m_peak_db m) /\
  Evaluator.calculate_cv audio_data = Evaluator.m_cv m /\
  Evaluator.estimate_snr audio_data = Evaluator.m_snr m /\
  Evaluator.detect_silence audio_data sr (-45)
  = Ok (Evaluator.m_non_speech_ratio m, Evaluator.m_max_silence m).
Proof.
  unfold Evaluator.evaluate_audio.
  destruct (Evaluator.calculate_rms audio_data) as [rms0 rms_db].
  intros E; inv_bind E; destruct a as [peak peak_db].
  inv_bind E; destruct a as [ratio silence].
  injection E as <- _; simpl; auto.
Qed.

Lemma evaluate_audio_returns (self : Evaluator.AudioEvaluator)
    (audio_data : list R) (sr : Z) :
  framable audio_data sr ->
  returns (Evaluator.evaluate_audio self audio_data sr).
Proof.
  intros Hf.
  destruct (calculate_peak_Ok _ (framable_nonempty _ _ Hf)) as (p & Hp & _).
  destruct (frame_silence_Ok audio_data sr (-45) Hf) as (mask & Es & _).
  eexists.
  eapply evaluate_audio_Ok; [exact Hp|].
  unfold Evaluator.detect_silence; rewrite Es; reflexivity.
Qed.

(** C2. On every buffer that can be framed [evaluate_audio] returns, and
    the record it returns holds the six metrics of that buffer (with the
    RMS and the peak); the verdict it returns with the record is exactly the
    conjunction of the six non-strict comparisons against the standard,
    whose defaults are -30, 0, 0.5, 20, 0.3 and 1.0. Whatever the other
    metrics are, a buffer whose signal-to-noise estimate is 20.0 meets the
    signal-to-noise criterion, and the verdict is then the conjunction of
    the other five; a buffer whose estimate is 19.999, or any value below
    20, fails the criterion and is judged non-compliant. *)
Theorem C2_compliance_is_six_comparisons (self : Evaluator.AudioEvaluator)
    (audio_data : list R) (sr : Z) :
  (framable audio_data sr ->
   returns (Evaluator.evaluate_audio self audio_data sr)) /\
  forall (m : Evaluator.Metrics) (compliant : bool),
    Evaluator.evaluate_audio self audio_data sr = Ok (m, compliant) ->
    let st := Evaluator.standards self in
    (Evaluator.calculate_rms audio_data
     = (Evaluator.m_rms m, Evaluator.m_rms_db m) /\
     Evaluator.calculate_peak audio_data
     = Ok (Evaluator.m_peak m, Evaluator.m_peak_db m) /\
     Evaluator.calculate_cv audio_data = Evaluator.m_cv m /\
     Evaluator.estimate_snr audio_data = Evaluator.m_snr m /\
     Evaluator.detect_silence audio_data sr (-45)
     = Ok (Evaluator.m_non_speech_ratio m, Evaluator.m_max_silence m)) /\
    (compliant = true <->
     Evaluator.m_rms_db m >= Evaluator.std_rms_db st /\
     Evaluator.m_peak_db m <= Evaluator.std_peak_db st /\
     Evaluator.m_cv m <= Evaluator.std_cv st /\
     Evaluator.m_snr m >= Evaluator.std_snr st /\
     Evaluator.m_non_speech_ratio m <= Evaluator.std_non_speech_ratio st /\
     Evaluator.m_max_silence m <= Evaluator.std_max_silence st) /\
    Evaluator.standards Evaluator.init
    = {| Evaluator.std_rms_db := -30; Evaluator.std_peak_db := 0;
         Evaluator.std_cv := 0.5; Evaluator.std_snr := 20;
         Evaluator.std_non_speech_ratio := 0.3;
         Evaluator.std_max_silence := 1.0 |} /\
    (self = Evaluator.init -> Evaluator.m_snr m = 20.0 ->
     Rgeb (Evaluator.m_snr m) (Evaluator.std_snr st) = true /\
     (compliant = true <->
      Evaluator.m_rms_db m >= -30 /\ Evaluator.m_peak_db m <= 0 /\
      Evaluator.m_cv m <= 0.5 /\ Evaluator.m_non_speech_ratio m <= 0.3 /\
      Evaluator.m_max_silence m <= 1.0)) /\
    (self = Evaluator.init -> Evaluator.m_snr m = 19.999 ->
     Rgeb (Evaluator.m_snr m) (Evaluator.std_snr st) = false /\
     compliant = false) /\
    (self = Evaluator.init -> Evaluator.m_snr m < 20 ->
     Rgeb (Evaluator.m_snr m) (Evaluator.std_snr st) = false /\
     compliant = false).
Proof.
  split; [apply evaluate_audio_returns|].
  intros m compliant E st.
  pose proof (evaluate_audio_inv _ _ _ _ _ E) as Hm.
  destruct Hm as (Hrms & Hpeak & Hcv & Hsnr & Hsil).
  apply evaluate_audio_verdict in E; subst compliant.
  split; [repeat split; assumption|].
  split; [apply check_standards_iff|].
  split; [reflexivity|].
  assert (Hbelow : self = Evaluator.init ->
                   Evaluator.m_snr m < 20 ->
                   Rgeb (Evaluator.m_snr m) (Evaluator.std_snr st) = false /\
                   Evaluator.check_standards (Evaluator.standards self) m
                   = false).
  { intros -> Hlt.
    assert (Hf : Rgeb (Evaluator.m_snr m) (Evaluator.std_snr st) = false)
      by (apply Rgeb_false; simpl; lra).
    split; [exact Hf|].
    unfold Evaluator.check_standards; fold st; rewrite Hf.
    now rewrite !andb_false_r. }
  split; [|split; [|exact Hbelow]].
  - intros -> H20; split.
    + apply Rgeb_true; rewrite H20; simpl; lra.
    + rewrite check_standards_iff; subst st; simpl; rewrite H20.
      intuition lra.
  - intros Hself H19; apply (Hbelow Hself); rewrite H19; lra.
Qed.

(** ** Buffers on the boundary of the signal-to-noise criterion *)

Lemma framable_4_at_100 (a b c d : R) : framable [a; b; c; d] 100.
Proof. unfold framable; simpl; split; vm_compute; discriminate. Qed.

Lemma framable_2_at_100 (a b : R) : framable [a; b] 100.
Proof. unfold framable; simpl; split; vm_compute; discriminate. Qed.

(** Four samples of mean 33/64 and variance 11/4096: a power ratio of
    exactly 100. *)
Lemma estimate_snr_boundary :
  Evaluator.estimate_snr [0.59375; 0.46875; 0.46875; 0.53125] = 20.0.
Proof.
  unfold Evaluator.estimate_snr.
  assert (Hm : np.mean [0.59375; 0.46875; 0.46875; 0.53125] = 0.515625)
    by (unfold np.mean, np.sum; simpl; lra).
  rewrite Hm.
  assert (Hs : np.mean (np.square [0.59375; 0.46875; 0.46875; 0.53125])
               = 275 / 1024)
    by (unfold np.mean, np.square, np.sum; simpl; lra).
  assert (Hn : np.mean
                 (np.square
                    (map (fun x => x - 0.515625)
                       [0.59375; 0.46875; 0.46875; 0.53125]))
               = 11 / 4096)
    by (unfold np.mean, np.square, np.sum; simpl; lra).
  rewrite Hs, Hn.
  assert (Hg : Rgtb (11 / 4096) 0 = true) by (apply Rgtb_true; lra).
  rewrite Hg.
  replace (275 / 1024 / (11 / 4096)) with 100 by lra.
  rewrite log10_100; lra.
Qed.

Lemma log10_Rpower (x : R) : log10 (Rpower 10 x) = x.
Proof.
  unfold log10, Rpower; rewrite ln_exp.
  pose proof ln10_pos; field; lra.
Qed.

(** Two samples at [1 + s] and [1 - s] have mean 1 and variance [s * s]. *)
Lemma estimate_snr_pair (s : R) :
  s <> 0 ->
  Evaluator.estimate_snr [1 + s; 1 - s] = 10 * log10 (1 + / (s * s)).
Proof.
  intros Hs; unfold Evaluator.estimate_snr.
  assert (Hm : np.mean [1 + s; 1 - s] = 1)
    by (unfold np.mean, np.sum; simpl; lra).
  rewrite Hm.
  assert (Hsp : np.mean (np.square [1 + s; 1 - s]) = 1 + s * s)
    by (unfold np.mean, np.square, np.sum; simpl; field).
  assert (Hnp : np.mean (np.square (map (fun x => x - 1) [1 + s; 1 - s]))
                = s * s)
    by (unfold np.mean, np.square, np.sum; simpl; field).
  rewrite Hsp, Hnp.
  assert (Hpos : 0 < s * s) by nra.
  assert (Hg : Rgtb (s * s) 0 = true) by (apply Rgtb_true; lra).
  rewrite Hg; do 2 f_equal; field; lra.
Qed.

(** A deviation [s] for which the estimate is exactly 19.999 dB. *)
Lemma estimate_snr_just_below :
  exists s, 0 < s /\ Evaluator.estimate_snr [1 + s; 1 - s] = 19.999.
Proof.
  assert (H1 : 1 < Rpower 10 1.9999).
  { rewrite <- (Rpower_O 10) by lra.
    apply Rpower_lt; lra. }
  set (r := Rpower 10 1.9999) in *.
  assert (Hinv : 0 < / (r - 1)) by (apply Rinv_0_lt_compat; lra).
  exists (sqrt (/ (r - 1))); split; [now apply sqrt_lt_R0|].
  rewrite estimate_snr_pair
    by (apply Rgt_not_eq, Rlt_gt; now apply sqrt_lt_R0).
  rewrite sqrt_sqrt by lra.
  rewrite Rinv_inv.
  replace (1 + (r - 1)) with r by ring.
  subst r; rewrite log10_Rpower; lra.
Qed.

(** One loud sample among three: a power ratio of 3/2, under 2 dB. *)
Lemma estimate_snr_example : Evaluator.estimate_snr [1; 0; 0] < 20.
Proof.
  unfold Evaluator.estimate_snr.
  assert (Hm : np.mean [1; 0; 0] = / 3)
    by (unfold np.mean, np.sum; simpl; lra).
  rewrite Hm.
  assert (Hs : np.mean (np.square [1; 0; 0]) = / 3)
    by (unfold np.mean, np.square, np.sum; simpl; lra).
  assert (Hn : np.mean (np.square (map (fun x => x - / 3) [1; 0; 0]))
               = 2 / 9)
    by (unfold np.mean, np.square, np.sum; simpl; lra).
  rewrite Hs, Hn.
  assert (Hg : Rgtb (2 / 9) 0 = true) by (apply Rgtb_true; lra).
  rewrite Hg.
  replace (/ 3 / (2 / 9)) with 1.5 by lra.
  pose proof (log10_lt 1.5 100 ltac:(lra) ltac:(lra)) as Hlt.
  rewrite log10_100 in Hlt; lra.
Qed.

Lemma C2_compliance_witness :
  (exists m compliant,
     Evaluator.evaluate_audio Evaluator.init
       [0.59375; 0.46875; 0.46875; 0.53125] 100 = Ok (m, compliant) /\
     Evaluator.m_snr m = 20.0 /\
     Rgeb (Evaluator.m_snr m) 20 = true /\
     (compliant = true <->
      Evaluator.m_rms_db m >= -30 /\ Evaluator.m_peak_db m <= 0 /\
      Evaluator.m_cv m <= 0.5 /\ Evaluator.m_non_speech_ratio m <= 0.3 /\
      Evaluator.m_max_silence m <= 1.0)) /\
  (exists s m,
     0 < s /\
     Evaluator.evaluate_audio Evaluator.init [1 + s; 1 - s] 100
     = Ok (m, false) /\
     Evaluator.m_snr m = 19.999) /\
  (exists m,
     Evaluator.evaluate_audio Evaluator.init [1; 0; 0] 100 = Ok (m, false) /\
     Evaluator.m_snr m < 20).
Proof.
  split; [|split].
  - destruct (C2_compliance_is_six_comparisons Evaluator.init
                [0.59375; 0.46875; 0.46875; 0.53125] 100) as [Hret Hspec].
    destruct (Hret (framable_4_at_100 _ _ _ _)) as [[m compliant] E].
    destruct (Hspec m compliant E)
      as ((_ & _ & _ & Hsnr & _) & _ & _ & H20 & _).
    rewrite estimate_snr_boundary in Hsnr; symmetry in Hsnr.
    destruct (H20 eq_refl Hsnr) as [Hg Hiff].
    exists m, compliant; split; [exact E|]; split; [exact Hsnr|].
    split; [exact Hg | exact Hiff].
  - destruct estimate_snr_just_below as (s & Hs & Hsnr19).
    destruct (C2_compliance_is_six_comparisons Evaluator.init
                [1 + s; 1 - s] 100) as [Hret Hspec].
    destruct (Hret (framable_2_at_100 _ _)) as [[m compliant] E].
    destruct (Hspec m compliant E)
      as ((_ & _ & _ & Hsnr & _) & _ & _ & _ & H19 & _).
    rewrite Hsnr19 in Hsnr; symmetry in Hsnr.
    destruct (H19 eq_refl Hsnr) as [_ Hc].
    exists s, m; split; [exact Hs|]; split; [|exact Hsnr].
    rewrite E, Hc; reflexivity.
  - destruct (C2_compliance_is_six_comparisons Evaluator.init
                [1; 0; 0] 100) as [Hret Hspec].
    destruct (Hret (framable_3_at_100 _ _ _)) as [[m compliant] E].
    destruct (Hspec m compliant E)
      as ((_ & _ & _ & Hsnr & _) & _ & _ & _ & _ & Hlow).
    pose proof estimate_snr_example as Hlt; rewrite Hsnr in Hlt.
    destruct (Hlow eq_refl Hlt) as [_ Hc].
    exists m; split; [|exact Hlt].
    rewrite E, Hc; reflexivity.
Defined.

(** * Spectral subtraction *)

Lemma Cabs_nonneg (z : C) : 0 <= Cabs z.
Proof. apply sqrt_pos. Qed.

Lemma sum_nonneg (l : list R) : (forall x, In x l -> 0 <= x) -> 0 <= np.sum l.
Proof.
  induction l as [|x l IH]; intros H; simpl; [lra|].
  assert (0 <= x) by (apply H; simpl; auto).
  assert (0 <= np.sum l) by (apply IH; intros; apply H; simpl; auto).
  lra.
Qed.

Lemma mean_nonneg (l : list R) : (forall x, In x l -> 0 <= x) -> 0 <= np.mean l.
Proof.
  intros H; unfold np.mean, Rdiv.
  destruct l as [|x l]; [simpl; lra|].
  apply Rmult_le_pos; [now apply sum_nonneg|].
  left; apply Rinv_0_lt_compat, lt_0_INR; simpl; lia.
Qed.

Lemma subtract_bin_bounds (noise magnitude : R) :
  0 <= noise -> 0 <= magnitude ->
  0.01 * magnitude <= subtract_bin noise magnitude <= magnitude.
Proof.
  intros Hn Hm; unfold subtract_bin; split; [apply Rmax_r|].
  apply Rmax_lub; lra.
Qed.

Lemma nth_map_default {A B : Type} (f : A -> B) (l : list A) (i : nat)
    (d : A) (d' : B) :
  (i < length l)%nat -> nth i (map f l) d' = f (nth i l d).
Proof.
  intros H; rewrite (nth_indep _ d' (f d)) by (rewrite length_map; lia).
  apply map_nth.
Qed.

Lemma spectral_subtract_length (stft_mag : list (list R))
    (noise_spec : list R) :
  length noise_spec = length stft_mag ->
  length (spectral_subtract stft_mag noise_spec) = length stft_mag.
Proof.
  intros E; unfold spectral_subtract.
  rewrite length_map, length_combine; lia.
Qed.

Lemma spectral_subtract_row (stft_mag : list (list R)) (noise_spec : list R)
    (f : nat) :
  length noise_spec = length stft_mag -> (f < length stft_mag)%nat ->
  nth f (spectral_subtract stft_mag noise_spec) []
  = map (subtract_bin (nth f noise_spec 0)) (nth f stft_mag []).
Proof.
  intros E Hf; unfold spectral_subtract.
  rewrite (nth_map_default _ _ f ([], 0)) by (rewrite length_combine; lia).
  rewrite combine_nth by lia.
  reflexivity.
Qed.

Lemma spectral_subtract_bin (stft_mag : list (list R)) (noise_spec : list R)
    (f t : nat) :
  length noise_spec = length stft_mag -> (f < length stft_mag)%nat ->
  (t < length (nth f stft_mag []))%nat ->
  nth t (nth f (spectral_subtract stft_mag noise_spec) []) 0
  = subtract_bin (nth f noise_spec 0) (nth t (nth f stft_mag []) 0).
Proof.
  intros E Hf Ht; rewrite spectral_subtract_row by assumption.
  now apply nth_map_default.
Qed.

Lemma nth_nonneg (l : list R) (i : nat) :
  (forall x, In x l -> 0 <= x) -> 0 <= nth i l 0.
Proof.
  intros H; destruct (Nat.lt_ge_cases i (length l)).
  - apply H, nth_In; assumption.
  - rewrite nth_overflow by assumption; lra.
Qed.

Lemma magnitudes_nonneg (D : list (list C)) (f t : nat) :
  0 <= nth t (nth f (map (map Cabs) D) []) 0.
Proof.
  rewrite nth_map_rows; apply nth_nonneg.
  intros x Hx; apply in_map_iff in Hx; destruct Hx as (z & <- & _).
  apply Cabs_nonneg.
Qed.

Lemma noise_profile_nonneg (D : list (list C)) (f : nat) :
  0 <= nth f (npx.mean_axis1 (map (map Cabs) D)) 0.
Proof.
  apply nth_nonneg; unfold npx.mean_axis1.
  intros x Hx; apply in_map_iff in Hx; destruct Hx as (row & <- & Hrow).
  apply mean_nonneg.
  apply in_map_iff in Hrow; destruct Hrow as (zs & <- & _).
  intros y Hy; apply in_map_iff in Hy; destruct Hy as (z & <- & _).
  apply Cabs_nonneg.
Qed.

(** The branch [reduce_noise_standard] takes when some sample is silent. *)
Lemma reduce_noise_standard_spectral {T : Transforms} (self : NoiseReducer)
    (audio_data : list R) (silence_mask : list bool) :
  detect_silence self audio_data None = Ok silence_mask ->
  (0 < np.count silence_mask)%nat ->
  let noise_sample := np.select_loop audio_data silence_mask in
  let D := stft audio_data in
  let noise_spec := npx.mean_axis1 (map (map Cabs) (stft noise_sample)) in
  let masked := spectral_subtract (map (map Cabs) D) noise_spec in
  np.select audio_data silence_mask = Ok noise_sample /\
  reduce_noise_standard self audio_data
  = Ok (istft (with_phase masked D) (length audio_data)).
Proof.
  intros Hd Hc; cbv zeta.
  pose proof (detect_silence_length _ _ _ _ Hd) as Hlen.
  pose proof (select_Ok audio_data silence_mask Hlen) as Hs.
  split; [exact Hs|].
  unfold reduce_noise_standard; rewrite Hd; simpl.
  apply Nat.ltb_lt in Hc; rewrite Hc, Hs; reflexivity.
Qed.

(** The branch it takes when no sample is silent. *)
Lemma reduce_noise_standard_lowpass {T : Transforms} (self : NoiseReducer)
    (audio_data : list R) (silence_mask : list bool) :
  detect_silence self audio_data None = Ok silence_mask ->
  np.count silence_mask = O ->
  reduce_noise_standard self audio_data = filtfilt audio_data.
Proof.
  intros Hd Hc; unfold reduce_noise_standard; rewrite Hd; simpl.
  now rewrite Hc.
Qed.

(** C3. In the spectral-subtraction branch of [reduce_noise_standard], the
    magnitude handed to the inverse transform is, in every time-frequency
    bin, [max (magnitude - noise_profile, 0.01 * magnitude)]; the noise
    profile is non-negative, so the new magnitude lies between one percent
    of the original magnitude and the original magnitude. *)
Theorem C3_spectral_subtraction_floor {T : Transforms} (self : NoiseReducer)
    (audio_data : list R) (silence_mask : list bool) :
  detect_silence self audio_data None = Ok silence_mask ->
  (0 < np.count silence_mask)%nat ->
  exists noise_sample,
    np.select audio_data silence_mask = Ok noise_sample /\
    let D := stft audio_data in
    let stft_mag := map (map Cabs) D in
    let noise_spec := npx.mean_axis1 (map (map Cabs) (stft noise_sample)) in
    let masked_stft_mag := spectral_subtract stft_mag noise_spec in
    reduce_noise_standard self audio_data
    = Ok (istft (with_phase masked_stft_mag D) (length audio_data)) /\
    length masked_stft_mag = length stft_mag /\
    forall f t,
      (f < length stft_mag)%nat -> (t < length (nth f stft_mag []))%nat ->
      let magnitude := nth t (nth f stft_mag []) 0 in
      let noise_profile := nth f noise_spec 0 in
      let new_magnitude := nth t (nth f masked_stft_mag []) 0 in
      new_magnitude = Rmax (magnitude - noise_profile) (0.01 * magnitude) /\
      0 <= noise_profile /\
      0.01 * magnitude <= new_magnitude /\
      new_magnitude <= magnitude.
Proof.
  intros Hd Hc.
  destruct (reduce_noise_standard_spectral self audio_data silence_mask Hd Hc)
    as [Hs Hr].
  eexists; split; [exact Hs|]; cbv zeta.
  split; [exact Hr|].
  assert (Hrows : length (npx.mean_axis1
                            (map (map Cabs)
                               (stft (np.select_loop audio_data silence_mask))))
                  = length (map (map Cabs) (stft audio_data))).
  { unfold npx.mean_axis1; rewrite !length_map, !stft_rows; reflexivity. }
  split; [now apply spectral_subtract_length|].
  intros f t Hf Ht.
  rewrite spectral_subtract_bin by assumption.
  pose proof (noise_profile_nonneg
                (stft (np.select_loop audio_data silence_mask)) f) as Hn.
  pose proof (magnitudes_nonneg (stft audio_data) f t) as Hm.
  pose proof (subtract_bin_bounds _ _ Hn Hm) as [Hlo Hhi].
  repeat split; assumption.
Qed.

(** A buffer with a loud first sample and two silent ones, at 100 Hz: frames
    of 2 samples, hop of 1; the second frame is silent. *)
Lemma detect_silence_example :
  detect_silence (NoiseReducer_init 100) [1; 0; 0] None
  = Ok [false; true; true].
Proof.
  assert (E : frame_energy [1; 0; 0] 100 = Ok [1; 0]).
  { unfold frame_energy.
    change (librosa.frame [1; 0; 0] (frame_length_of 100) (hop_length_of 100))
      with (Ok [[1; 0]; [0; 0]]).
    simpl; do 3 f_equal; lra. }
  assert (Hmax : np.max [1; 0] = Ok 1).
  { simpl; f_equal; apply Rmax_left; lra. }
  rewrite (silence_detectors_closed_form (NoiseReducer_init 100) _ _ _ E Hmax).
  assert (H1 : Rltb (clamped_db 1 1) (-45) = false).
  { apply Rltb_false; rewrite clamped_db_loudest; lra. }
  assert (H0 : Rltb (clamped_db 1 0) (-45) = true).
  { apply Rltb_true; unfold clamped_db.
    rewrite (Rmax_left 1e-5 0), (Rmax_right 1e-5 1) by lra.
    rewrite log10_1e_5, log10_1; rewrite Rmax_right; lra. }
  cbn [map silence_threshold_db NoiseReducer_init sample_rate].
  rewrite H1, H0; reflexivity.
Qed.

Lemma C3_spectral_subtraction_witness :
  exists noise_sample,
    np.select [1; 0; 0] [false; true; true] = Ok noise_sample /\
    @reduce_noise_standard plain_transforms (NoiseReducer_init 100) [1; 0; 0]
    = Ok (@istft plain_transforms
            (with_phase
               (spectral_subtract
                  (map (map Cabs) (@stft plain_transforms [1; 0; 0]))
                  (npx.mean_axis1
                     (map (map Cabs) (@stft plain_transforms noise_sample))))
               (@stft plain_transforms [1; 0; 0]))
            (length [1; 0; 0])).
Proof.
  destruct (@C3_spectral_subtraction_floor plain_transforms
              (NoiseReducer_init 100) [1; 0; 0] [false; true; true]
              detect_silence_example ltac:(vm_compute; lia))
    as (noise_sample & Hs & Hr & _).
  exists noise_sample; split; [exact Hs | exact Hr].
Defined.

(** * Energy restoration in the wavelet denoiser *)

Lemma sum_square_scale (k : R) (xs : list R) :
  np.sum (np.square (map (fun x => x * k) xs))
  = k * k * np.sum (np.square xs).
Proof.
  unfold np.square, np.sum.
  induction xs as [|x xs IH]; simpl; [lra|].
  rewrite IH; lra.
Qed.

Lemma mean_square_nonneg (xs : list R) : 0 <= np.mean (np.square xs).
Proof.
  apply mean_nonneg; intros y Hy.
  apply in_map_iff in Hy; destruct Hy as (x & <- & _); nra.
Qed.

Lemma rms_nonneg (xs : list R) : 0 <= rms xs.
Proof. apply sqrt_pos. Qed.

Lemma rms_scale (k : R) (xs : list R) :
  rms (map (fun x => x * k) xs) = Rabs k * rms xs.
Proof.
  unfold rms, np.mean.
  rewrite sum_square_scale; unfold np.square; rewrite !length_map.
  replace (k * k * np.sum (map (fun x => x * x) xs) / INR (length xs))
    with (Rsqr k * (np.sum (map (fun x => x * x) xs) / INR (length xs)))
    by (unfold Rsqr, Rdiv; ring).
  rewrite sqrt_mult;
    [| apply Rle_0_sqr
     | pose proof (mean_square_nonneg xs) as Hm;
       unfold np.mean, np.square in Hm; rewrite length_map in Hm; exact Hm].
  now rewrite sqrt_Rsqr_abs.
Qed.

Lemma sum_square_zero (xs : list R) :
  np.sum (np.square xs) = 0 -> forall x, In x xs -> x = 0.
Proof.
  induction xs as [|y xs IH]; intros H x Hx; [easy|].
  change (y * y + np.sum (np.square xs) = 0) in H.
  pose proof (sum_square_nonneg xs).
  destruct Hx as [<-|Hx]; [nra|].
  apply IH; [nra | exact Hx].
Qed.

Lemma rms_zero_all_zero (xs : list R) :
  rms xs = 0 -> forall x, In x xs -> x = 0.
Proof.
  intros H; destruct xs as [|y xs]; [easy|].
  apply sum_square_zero.
  apply sqrt_eq_0 in H; [|apply mean_square_nonneg].
  unfold np.mean, Rdiv in H.
  apply Rmult_integral in H; destruct H as [H|H]; [exact H|].
  exfalso; revert H; apply Rinv_neq_0_compat, not_0_INR; simpl; lia.
Qed.

Lemma all_zero_rms (xs : list R) :
  (forall x, In x xs -> x = 0) -> rms xs = 0.
Proof.
  intros H; unfold rms, np.mean.
  assert (E : np.sum (np.square xs) = 0).
  { induction xs as [|y xs IH]; [reflexivity|].
    change (y * y + np.sum (np.square xs) = 0).
    rewrite IH by (intros; apply H; simpl; auto).
    rewrite (H y) by (simpl; auto); lra. }
  rewrite E; unfold Rdiv; rewrite Rmult_0_l; apply sqrt_0.
Qed.

Lemma peak_bounds (xs : list R) (peak : R) :
  np.max (np.abs xs) = Ok peak ->
  0 <= peak /\ forall x, In x xs -> Rabs x <= peak.
Proof.
  intros H; apply max_Ok in H; destruct H as [Hin Hub]; split.
  - apply in_map_iff in Hin; destruct Hin as (x & <- & _); apply Rabs_pos.
  - intros x Hx; apply Hub, in_map; exact Hx.
Qed.

Lemma rms_nonzero_peak (xs : list R) :
  rms xs <> 0 -> exists peak, np.max (np.abs xs) = Ok peak /\ 0 < peak.
Proof.
  intros Hr.
  destruct (max_returns (np.abs xs)) as [p Hp].
  - destruct xs; [|simpl; discriminate].
    exfalso; apply Hr, all_zero_rms; intros x [].
  - exists p; split; [exact Hp|].
    destruct (peak_bounds _ _ Hp) as [H0 Hub].
    destruct H0 as [Hpos|<-]; [exact Hpos|].
    exfalso; apply Hr, all_zero_rms; intros x Hx.
    specialize (Hub x Hx); pose proof (Rabs_pos x).
    destruct (Req_dec x 0) as [E|N]; [exact E|].
    apply Rabs_pos_lt in N; lra.
Qed.

Lemma rms_zero_peak (xs : list R) :
  xs <> [] -> rms xs = 0 -> np.max (np.abs xs) = Ok 0.
Proof.
  intros Hne Hr; pose proof (rms_zero_all_zero _ Hr) as Hz.
  apply max_Ok; split.
  - destruct xs as [|x xs]; [easy|].
    simpl; left; rewrite (Hz x) by (simpl; auto); apply Rabs_R0.
  - intros y Hy; apply in_map_iff in Hy; destruct Hy as (x & <- & Hx).
    rewrite (Hz x Hx), Rabs_R0; lra.
Qed.

Lemma wavelet_reconstruct_length {T : Transforms} (self : NoiseReducer)
    (audio_data : list R) :
  length (wavelet_reconstruct self audio_data) = length audio_data.
Proof.
  unfold wavelet_reconstruct, npx.mean_axis0.
  pose proof (cwt_rows audio_data) as Hrows.
  pose proof (cwt_cols audio_data) as Hcols.
  destruct (cwt audio_data) as [|row rows]; [discriminate|].
  simpl; rewrite !length_map, length_seq.
  apply Hcols; simpl; auto.
Qed.

(** The wavelet denoiser returns on every non-empty buffer. *)
Lemma reduce_noise_wavelet_Ok {T : Transforms} (self : NoiseReducer)
    (audio_data : list R) :
  audio_data <> [] ->
  exists out, reduce_noise_wavelet self audio_data = Ok out /\
              length out = length audio_data.
Proof.
  intros Hne; unfold reduce_noise_wavelet, normalize_peak.
  pose proof (wavelet_reconstruct_length self audio_data) as Hlen.
  destruct (max_returns (np.abs (wavelet_reconstruct self audio_data)))
    as [p Hp].
  - destruct (wavelet_reconstruct self audio_data); [|simpl; discriminate].
    destruct audio_data; [easy | discriminate].
  - rewrite Hp; simpl; eexists; split; [reflexivity|].
    unfold restore_energy.
    repeat match goal with |- context [if ?c then _ else _] => destruct c end;
      rewrite ?length_map; exact Hlen.
Qed.

Lemma reduce_noise_wavelet_empty {T : Transforms} (self : NoiseReducer) :
  reduce_noise_wavelet self [] = Raise ValueError.
Proof.
  unfold reduce_noise_wavelet, normalize_peak.
  pose proof (wavelet_reconstruct_length self []) as Hlen.
  destruct (wavelet_reconstruct self []); [reflexivity | discriminate].
Qed.

(** C4. When the signal reconstructed by the wavelet denoiser has non-zero
    RMS, the denoiser returns a buffer whose RMS is the RMS of the input: the
    reconstruction is normalised to unit peak and then scaled by
    [original_rms / denoised_rms]. When the reconstructed RMS is zero, both
    steps are skipped, nothing is divided, and the reconstruction is returned
    as it is. *)
Theorem C4_wavelet_restores_rms {T : Transforms} (self : NoiseReducer)
    (audio_data : list R) :
  let reconstructed := wavelet_reconstruct self audio_data in
  (rms reconstructed <> 0 ->
   exists normalized out,
     normalize_peak reconstructed = Ok normalized /\
     0 < rms normalized /\
     out = map (fun x => x * (rms audio_data / rms normalized)) normalized /\
     reduce_noise_wavelet self audio_data = Ok out /\
     rms out = rms audio_data) /\
  (rms reconstructed = 0 -> audio_data <> [] ->
   normalize_peak reconstructed = Ok reconstructed /\
   restore_energy audio_data reconstructed = reconstructed /\
   reduce_noise_wavelet self audio_data = Ok reconstructed).
Proof.
  intros reconstructed; split.
  - intros Hr.
    destruct (rms_nonzero_peak _ Hr) as (p & Hp & Hpos).
    assert (Hn : normalize_peak reconstructed
                 = Ok (map (fun x => x * / p) reconstructed)).
    { unfold normalize_peak; rewrite Hp; simpl.
      apply Rgtb_true in Hpos; rewrite Hpos; reflexivity. }
    assert (Hrn : 0 < rms (map (fun x => x * / p) reconstructed)).
    { rewrite rms_scale, Rabs_right
        by (left; apply Rinv_0_lt_compat; exact Hpos).
      pose proof (rms_nonneg reconstructed).
      apply Rmult_lt_0_compat; [apply Rinv_0_lt_compat; exact Hpos | lra]. }
    eexists; eexists; split; [exact Hn|]; split; [exact Hrn|].
    split; [reflexivity|]; split.
    + unfold reduce_noise_wavelet; fold reconstructed; rewrite Hn; simpl.
      unfold restore_energy.
      apply Rgtb_true in Hrn; rewrite Hrn; reflexivity.
    + rewrite rms_scale.
      pose proof (rms_nonneg audio_data).
      rewrite Rabs_right.
      * field; lra.
      * apply Rle_ge; unfold Rdiv; apply Rmult_le_pos; [lra|].
        left; apply Rinv_0_lt_compat; exact Hrn.
  - intros Hr Hne.
    assert (Hne' : reconstructed <> []).
    { pose proof (wavelet_reconstruct_length self audio_data) as Hlen.
      fold reconstructed in Hlen.
      destruct reconstructed; [|discriminate].
      destruct audio_data; [easy | discriminate]. }
    assert (Hn : normalize_peak reconstructed = Ok reconstructed).
    { unfold normalize_peak; rewrite (rms_zero_peak _ Hne' Hr); simpl.
      assert (Hf : Rgtb 0 0 = false) by (apply Rgtb_false; lra).
      now rewrite Hf. }
    assert (He : restore_energy audio_data reconstructed = reconstructed).
    { unfold restore_energy; rewrite Hr.
      assert (Hf : Rgtb 0 0 = false) by (apply Rgtb_false; lra).
      now rewrite Hf. }
    split; [exact Hn|]; split; [exact He|].
    unfold reduce_noise_wavelet; fold reconstructed; rewrite Hn; simpl.
    now rewrite He.
Qed.

(** The denoiser on the one-sample buffer [1], with the small transform
    implementation: the median of the coefficients is 0, the coefficient 1
    survives, and the reconstruction is [1/30]. *)

Lemma insert_zero_zeros (n : nat) :
  npx.insert 0 (repeat 0 n) = repeat 0 (S n).
Proof.
  destruct n; simpl; [reflexivity|].
  destruct (Rle_dec 0 0); [reflexivity | lra].
Qed.

Lemma sort_zeros (n : nat) : npx.sort (repeat 0 n) = repeat 0 n.
Proof.
  induction n as [|n IH]; [reflexivity|].
  change (npx.sort (repeat 0 (S n)))
    with (npx.insert 0 (npx.sort (repeat 0 n))).
  rewrite IH; apply insert_zero_zeros.
Qed.

Lemma insert_one_zeros (n : nat) :
  npx.insert 1 (repeat 0 n) = repeat 0 n ++ [1].
Proof.
  induction n as [|n IH]; simpl; [reflexivity|].
  destruct (Rle_dec 1 0); [lra|]; now rewrite IH.
Qed.

Lemma median_example :
  npx.median (np.abs (concat (@cwt plain_transforms [1]))) = 0.
Proof.
  change (np.abs (concat (@cwt plain_transforms [1])))
    with (Rabs 1 :: map Rabs (repeat 0 29)).
  assert (E : map Rabs (repeat 0 29) = repeat 0 29)
    by (rewrite map_repeat; now rewrite Rabs_R0).
  rewrite E, Rabs_R1; unfold npx.median.
  change (npx.sort (1 :: repeat 0 29))
    with (npx.insert 1 (npx.sort (repeat 0 29))).
  rewrite sort_zeros, insert_one_zeros.
  simpl; lra.
Qed.

Lemma wavelet_reconstruct_example :
  @wavelet_reconstruct plain_transforms (NoiseReducer_init 100) [1]
  = [1 / 30].
Proof.
  unfold wavelet_reconstruct, wavelet_threshold; rewrite median_example.
  cbn [NoiseReducer_init wavelet_threshold_mult].
  replace (2.5 * 0 / 0.6745) with 0 by lra.
  change (@cwt plain_transforms [1]) with ([1] :: repeat [0] 29).
  cbn [map]; rewrite map_repeat; cbn [map].
  rewrite hard_threshold_0.
  assert (H1 : hard_threshold 0 1 = 1).
  { rewrite hard_threshold_cases.
    destruct (Rle_dec (Rabs 1) 0) as [H|H];
      [rewrite Rabs_R1 in H; lra | reflexivity]. }
  rewrite H1.
  unfold npx.mean_axis0, np.mean; simpl; f_equal; lra.
Qed.

Lemma rms_example_nonzero :
  rms (@wavelet_reconstruct plain_transforms (NoiseReducer_init 100) [1]) <> 0.
Proof.
  rewrite wavelet_reconstruct_example; intros H.
  pose proof (rms_zero_all_zero _ H (1 / 30) ltac:(simpl; auto)); lra.
Qed.

Lemma C4_wavelet_restores_rms_witness :
  exists out,
    @reduce_noise_wavelet plain_transforms (NoiseReducer_init 100) [1]
    = Ok out /\
    rms out = rms [1].
Proof.
  destruct (proj1 (@C4_wavelet_restores_rms plain_transforms
                     (NoiseReducer_init 100) [1]) rms_example_nonzero)
    as (normalized & out & _ & _ & _ & Hr & Hrms).
  exists out; split; [exact Hr | exact Hrms].
Defined.

(** * When the denoisers return, and what they reject *)

Lemma detect_silence_Ok (self : NoiseReducer) (audio_data : list R)
    (threshold_db : option R) :
  framable audio_data (sample_rate self) ->
  exists mask, detect_silence self audio_data threshold_db = Ok mask.
Proof.
  intros Hf; unfold detect_silence.
  destruct (frame_silence_Ok audio_data (sample_rate self)
              match threshold_db with
              | Some t => t
              | None => silence_threshold_db self
              end Hf) as (mask & E & _).
  rewrite E; simpl; eauto.
Qed.

Lemma detect_silence_raises (self : NoiseReducer) (audio_data : list R)
    (threshold_db : option R) :
  ~ framable audio_data (sample_rate self) ->
  detect_silence self audio_data threshold_db = Raise ParameterError.
Proof.
  intros Hn; unfold detect_silence.
  now rewrite frame_silence_raises.
Qed.

Lemma detect_silence_inv (self : NoiseReducer) (audio_data : list R)
    (threshold_db : option R) (mask : list bool) :
  detect_silence self audio_data threshold_db = Ok mask ->
  framable audio_data (sample_rate self).
Proof.
  intros E.
  destruct (Z.lt_ge_cases (hop_length_of (sample_rate self)) 1);
    [|destruct (Z.lt_ge_cases (Z.of_nat (length audio_data))
                  (frame_length_of (sample_rate self)))].
  - rewrite detect_silence_raises in E; [discriminate|].
    unfold framable; lia.
  - rewrite detect_silence_raises in E; [discriminate|].
    unfold framable; lia.
  - split; lia.
Qed.

(** An empty buffer or a non-positive sample rate cannot be framed. *)
Lemma invalid_not_framable (audio_data : list R) (sr : Z) :
  audio_data = [] \/ (sr <= 0)%Z -> ~ framable audio_data sr.
Proof.
  intros [->|Hsr] [Hhop Hlen].
  - now apply (framable_nonempty [] sr); [split|].
  - unfold hop_length_of in Hhop.
    Z.to_euclidean_division_equations; lia.
Qed.

Lemma reduce_noise_standard_raises {T : Transforms} (self : NoiseReducer)
    (audio_data : list R) :
  ~ framable audio_data (sample_rate self) ->
  reduce_noise_standard self audio_data = Raise ParameterError.
Proof.
  intros Hn; unfold reduce_noise_standard.
  now rewrite detect_silence_raises.
Qed.

Lemma reduce_noise_standard_length {T : Transforms} (self : NoiseReducer)
    (audio_data out : list R) :
  reduce_noise_standard self audio_data = Ok out ->
  length out = length audio_data.
Proof.
  unfold reduce_noise_standard; intros E; inv_bind E.
  destruct (Nat.ltb 0 (np.count a)).
  - inv_bind E; injection E as <-; apply istft_length.
  - unfold filtfilt in E; destruct (Nat.leb (length audio_data) 27);
      [discriminate|].
    injection E as <-; apply butter_filtfilt_length.
Qed.

Lemma reduce_noise_standard_Ok {T : Transforms} (self : NoiseReducer)
    (audio_data : list R) :
  framable audio_data (sample_rate self) ->
  (27 < length audio_data)%nat ->
  exists out, reduce_noise_standard self audio_data = Ok out.
Proof.
  intros Hf Hlen.
  destruct (detect_silence_Ok self audio_data None Hf) as [mask Hd].
  destruct (Nat.eq_dec (np.count mask) 0) as [Hc|Hc].
  - rewrite (reduce_noise_standard_lowpass _ _ _ Hd Hc); unfold filtfilt.
    destruct (Nat.leb_spec (length audio_data) 27); [lia | eauto].
  - destruct (reduce_noise_standard_spectral self audio_data mask Hd
                ltac:(lia)) as [_ Hr].
    eauto.
Qed.

Lemma reduce_noise_standard_inv {T : Transforms} (self : NoiseReducer)
    (audio_data out : list R) :
  reduce_noise_standard self audio_data = Ok out ->
  exists mask, detect_silence self audio_data None = Ok mask.
Proof.
  unfold reduce_noise_standard; intros E; inv_bind E; eauto.
Qed.

Lemma reduce_noise_wavelet_length {T : Transforms} (self : NoiseReducer)
    (audio_data out : list R) :
  reduce_noise_wavelet self audio_data = Ok out ->
  length out = length audio_data.
Proof.
  intros E; destruct audio_data as [|x xs].
  - rewrite reduce_noise_wavelet_empty in E; discriminate.
  - destruct (reduce_noise_wavelet_Ok self (x :: xs) ltac:(discriminate))
      as (out' & E' & Hlen).
    rewrite E' in E; now injection E as <-.
Qed.

(** The staged denoiser, once its first stage has returned. *)
Lemma multi_stage_spec {T : Transforms} (self : NoiseReducer)
    (audio_data stage1_audio : list R) :
  reduce_noise_standard self audio_data = Ok stage1_audio ->
  exists stage2_audio silence_mask out,
    reduce_noise_wavelet self stage1_audio = Ok stage2_audio /\
    detect_silence self audio_data None = Ok silence_mask /\
    multi_stage_denoising self audio_data = Ok out /\
    length out = length audio_data /\
    forall i, (i < length audio_data)%nat ->
      nth i out 0
      = mix 0.9 0.6 0.4 (nth i silence_mask false)
          (nth i stage2_audio 0) (nth i audio_data 0).
Proof.
  intros E1.
  pose proof (reduce_noise_standard_length _ _ _ E1) as Hl1.
  destruct (reduce_noise_standard_inv _ _ _ E1) as [mask Hd].
  pose proof (detect_silence_length _ _ _ _ Hd) as Hlm.
  pose proof (framable_nonempty _ _ (detect_silence_inv _ _ _ _ Hd)) as Hne.
  destruct (reduce_noise_wavelet_Ok self stage1_audio) as (stage2 & E2 & Hl2).
  { destruct stage1_audio; [|discriminate].
    destruct audio_data; [easy | discriminate]. }
  destruct (mask_blend_spec mask stage2 audio_data 0.9 0.6 0.4)
    as (out & Hb & Hlo & Hnth); [lia | lia |].
  exists stage2, mask, out; repeat split; try assumption.
  unfold multi_stage_denoising; rewrite E1; simpl; rewrite E2; simpl.
  rewrite Hd; simpl; exact Hb.
Qed.

Lemma multi_stage_inv {T : Transforms} (self : NoiseReducer)
    (audio_data out : list R) :
  multi_stage_denoising self audio_data = Ok out ->
  exists stage1_audio, reduce_noise_standard self audio_data = Ok stage1_audio.
Proof.
  unfold multi_stage_denoising; intros E; inv_bind E; eauto.
Qed.

Lemma multi_stage_length {T : Transforms} (self : NoiseReducer)
    (audio_data out : list R) :
  multi_stage_denoising self audio_data = Ok out ->
  length out = length audio_data.
Proof.
  intros E; destruct (multi_stage_inv _ _ _ E) as [stage1 E1].
  destruct (multi_stage_spec _ _ _ E1)
    as (s2 & mask & out' & _ & _ & E' & H & _).
  rewrite E' in E; now injection E as <-.
Qed.

Lemma multi_stage_raises {T : Transforms} (self : NoiseReducer)
    (audio_data : list R) :
  ~ framable audio_data (sample_rate self) ->
  multi_stage_denoising self audio_data = Raise ParameterError.
Proof.
  intros Hn; unfold multi_stage_denoising.
  now rewrite reduce_noise_standard_raises.
Qed.

(** * Convolution with a boxcar *)

Lemma convolve_full_length (a v : list R) :
  length (npx.convolve_full a v) = (length a + length v - 1)%nat.
Proof. unfold npx.convolve_full; now rewrite length_map, length_seq. Qed.

Lemma convolve_same_Ok (a v : list R) :
  (1 <= length v)%nat -> (length v <= length a)%nat ->
  npx.convolve_same a v
  = Ok (firstn (length a)
          (skipn ((length v - 1) / 2) (npx.convolve_full a v))).
Proof.
  intros Hv Ha; unfold npx.convolve_same.
  destruct (Nat.eqb_spec (length a) 0); [lia|].
  destruct (Nat.eqb_spec (length v) 0); [lia|].
  destruct (Nat.ltb_spec (length a) (length v)); [lia | reflexivity].
Qed.

Lemma convolve_same_slice_length (a v : list R) :
  (1 <= length v)%nat ->
  length (firstn (length a)
            (skipn ((length v - 1) / 2) (npx.convolve_full a v)))
  = length a.
Proof.
  intros Hv; rewrite length_firstn, length_skipn, convolve_full_length.
  assert ((length v - 1) / 2 <= length v - 1)%nat
    by (apply Nat.Div0.div_le_upper_bound; lia).
  lia.
Qed.

Lemma sum_app (l1 l2 : list R) : np.sum (l1 ++ l2) = np.sum l1 + np.sum l2.
Proof.
  unfold np.sum; induction l1 as [|x l1 IH]; simpl; [lra|].
  rewrite IH; lra.
Qed.

Lemma sum_scale (h : nat -> R) (c : R) (l : list nat) :
  np.sum (map (fun i => h i * c) l) = np.sum (map h l) * c.
Proof.
  unfold np.sum; induction l as [|i l IH]; simpl; [lra|].
  rewrite IH; lra.
Qed.

(** Summing in the opposite order. *)
Lemma sum_reverse (f : nat -> R) (n : nat) :
  np.sum (map f (seq 0 (S n)))
  = np.sum (map (fun i => f (n - i)%nat) (seq 0 (S n))).
Proof.
  revert f; induction n as [|n IH]; intros f; [reflexivity|].
  assert (L : np.sum (map f (seq 0 (S (S n))))
              = f 0%nat + np.sum (map (fun x => f (S x)) (seq 0 (S n)))).
  { change (seq 0 (S (S n))) with (0%nat :: seq 1 (S n)).
    rewrite <- seq_shift, map_cons, map_map; reflexivity. }
  assert (U : np.sum (map (fun i => f (S n - i)%nat) (seq 0 (S (S n))))
              = np.sum (map (fun i => f (S n - i)%nat) (seq 0 (S n)))
                + f 0%nat).
  { rewrite (seq_S (S n)), map_app, sum_app; f_equal.
    unfold np.sum; cbn [map fold_right Nat.add].
    rewrite Nat.sub_diag; lra. }
  assert (E : map (fun i => f (S (n - i))) (seq 0 (S n))
              = map (fun i => f (S n - i)%nat) (seq 0 (S n))).
  { apply map_ext_in; intros i Hi; apply in_seq in Hi.
    f_equal; lia. }
  rewrite L, U, (IH (fun x => f (S x))), E; lra.
Qed.

(** A sum whose terms vanish from index [w] on. *)
Lemma sum_indicator (h : nat -> R) (w n : nat) :
  np.sum (map (fun i => if Nat.ltb i w then h i else 0) (seq 0 n))
  = np.sum (map h (seq 0 (Nat.min n w))).
Proof.
  induction n as [|n IH]; [reflexivity|].
  rewrite seq_S, map_app, sum_app, IH.
  unfold np.sum at 2; cbn [map fold_right Nat.add].
  destruct (Nat.ltb_spec n w).
  - replace (Nat.min (S n) w) with (S n) by lia.
    replace (Nat.min n w) with n by lia.
    rewrite seq_S, map_app, sum_app.
    unfold np.sum at 3; cbn [map fold_right Nat.add]; lra.
  - replace (Nat.min (S n) w) with (Nat.min n w) by lia; lra.
Qed.

Lemma nth_repeat_cases (c : R) (w i : nat) :
  nth i (repeat c w) 0 = if Nat.ltb i w then c else 0.
Proof.
  destruct (Nat.ltb_spec i w).
  - rewrite (nth_indep _ 0 c) by (rewrite repeat_length; lia).
    apply nth_repeat.
  - apply nth_overflow; rewrite repeat_length; lia.
Qed.

(** Entry [n] of the full convolution with [w] equal weights [c] is [c]
    times the sum of the [w] samples ending at [n], the buffer taken as zero
    before its start. *)
Lemma convolve_full_boxcar (a : list R) (c : R) (w n : nat) :
  np.sum (map (fun j => nth j a 0 * nth (n - j) (repeat c w) 0) (seq 0 (S n)))
  = np.sum (map (fun i => sample_at a (Z.of_nat n - Z.of_nat i)) (seq 0 w))
    * c.
Proof.
  rewrite sum_reverse.
  assert (E1 : map (fun i => nth (n - i) a 0
                             * nth (n - (n - i)) (repeat c w) 0) (seq 0 (S n))
               = map (fun i => if Nat.ltb i w then nth (n - i) a 0 * c else 0)
                   (seq 0 (S n))).
  { apply map_ext_in; intros i Hi; apply in_seq in Hi.
    replace (n - (n - i))%nat with i by lia.
    rewrite nth_repeat_cases; destruct (Nat.ltb i w); lra. }
  rewrite E1, (sum_indicator (fun i => nth (n - i) a 0 * c)), sum_scale.
  f_equal.
  assert (E2 : map (fun i => sample_at a (Z.of_nat n - Z.of_nat i)) (seq 0 w)
               = map (fun i => if Nat.ltb i (S n) then nth (n - i) a 0 else 0)
                   (seq 0 w)).
  { apply map_ext; intros i; unfold sample_at.
    destruct (Z.ltb_spec (Z.of_nat n - Z.of_nat i) 0),
             (Nat.ltb_spec i (S n)); try lia; try reflexivity.
    f_equal; lia. }
  rewrite E2, (sum_indicator (fun i => nth (n - i) a 0)).
  now rewrite Nat.min_comm.
Qed.

Lemma nth_firstn_skipn (l : list R) (m off k : nat) :
  (k < m)%nat -> nth k (firstn m (skipn off l)) 0 = nth (off + k) l 0.
Proof.
  intros Hk; rewrite nth_firstn.
  destruct (Nat.ltb_spec k m); [|lia].
  now rewrite nth_skipn.
Qed.

(** [np.convolve(x, np.ones(w)/w, mode='same')] is the boxcar moving average
    of [w] samples, at every sample of [x]. *)
Lemma convolve_same_boxcar (x : list R) (w : nat) :
  (1 <= w)%nat -> (w <= length x)%nat ->
  exists out,
    npx.convolve_same x (map (fun y => y / INR w) (np.ones w)) = Ok out /\
    length out = length x /\
    forall k, (k < length x)%nat -> nth k out 0 = moving_average w x k.
Proof.
  intros Hw Hx.
  assert (Ek : map (fun y => y / INR w) (np.ones w) = repeat (1 / INR w) w)
    by (unfold np.ones; rewrite map_repeat; reflexivity).
  assert (Hlk : length (repeat (1 / INR w) w) = w) by apply repeat_length.
  rewrite Ek.
  eexists; split; [apply convolve_same_Ok; rewrite Hlk; assumption|].
  split; [apply convolve_same_slice_length; rewrite Hlk; assumption|].
  intros k Hk; rewrite Hlk, nth_firstn_skipn by assumption.
  unfold npx.convolve_full.
  assert (Hoff : ((w - 1) / 2 <= w - 1)%nat)
    by (apply Nat.Div0.div_le_upper_bound; lia).
  rewrite (nth_map_default _ _ _ 0%nat)
    by (rewrite length_seq, Hlk; lia).
  rewrite seq_nth by (rewrite Hlk; lia).
  rewrite convolve_full_boxcar; unfold moving_average.
  replace (Z.of_nat (0 + ((w - 1) / 2 + k))) with
    (Z.of_nat k + Z.of_nat ((w - 1) / 2))%Z by lia.
  unfold Rdiv; now rewrite Rmult_1_l.
Qed.

(** * The enhanced denoiser *)

Lemma window_fits (audio_data : list R) (sr : Z) :
  framable audio_data sr ->
  (1 <= Z.to_nat (hop_length_of sr) <= length audio_data)%nat.
Proof.
  intros [Hhop Hlen]; unfold hop_length_of, frame_length_of in *.
  assert (0 <= sr)%Z by (Z.to_euclidean_division_equations; lia).
  assert (sr / 100 <= 2 * sr / 100)%Z
    by (apply Z.div_le_mono; lia).
  rewrite Z.quot_div_nonneg in * by lia.
  lia.
Qed.

Lemma enhanced_spec {T : Transforms} (self : NoiseReducer)
    (audio_data base : list R) :
  multi_stage_denoising self audio_data = Ok base ->
  exists silence_mask blended out,
    detect_silence self audio_data None = Ok silence_mask /\
    mask_blend silence_mask base audio_data 0.9 0.7 0.3 = Ok blended /\
    length blended = length audio_data /\
    (forall i, (i < length audio_data)%nat ->
       nth i blended 0
       = mix 0.9 0.7 0.3 (nth i silence_mask false)
           (nth i base 0) (nth i audio_data 0)) /\
    enhanced_multi_stage_denoising self audio_data true = Ok out /\
    length out = length audio_data /\
    forall k, (k < length audio_data)%nat ->
      nth k out 0
      = moving_average (Z.to_nat (hop_length_of (sample_rate self)))
          blended k.
Proof.
  intros Em.
  destruct (multi_stage_inv _ _ _ Em) as [stage1 E1].
  destruct (reduce_noise_standard_inv _ _ _ E1) as [mask Hd].
  pose proof (detect_silence_length _ _ _ _ Hd) as Hlm.
  pose proof (multi_stage_length _ _ _ Em) as Hlb.
  destruct (window_fits _ _ (detect_silence_inv _ _ _ _ Hd)) as [Hw1 Hw2].
  destruct (mask_blend_spec mask base audio_data 0.9 0.7 0.3 Hlm Hlb)
    as (blended & Hb & Hlbl & Hnth).
  destruct (convolve_same_boxcar blended
              (Z.to_nat (hop_length_of (sample_rate self))) Hw1
              ltac:(lia)) as (out & Hc & Hlo & Hma).
  exists mask, blended, out.
  repeat (split; [assumption|]).
  split; [|split; [lia | intros k Hk; apply Hma; lia]].
  unfold enhanced_multi_stage_denoising; rewrite Em; simpl.
  rewrite Hd; simpl; rewrite Hb; simpl; exact Hc.
Qed.

Lemma enhanced_length {T : Transforms} (self : NoiseReducer)
    (audio_data out : list R) (voice_preserve : bool) :
  enhanced_multi_stage_denoising self audio_data voice_preserve = Ok out ->
  length out = length audio_data.
Proof.
  intros E.
  assert (Hb : exists base, multi_stage_denoising self audio_data = Ok base).
  { unfold enhanced_multi_stage_denoising in E; inv_bind E; eauto. }
  destruct Hb as [base Em].
  destruct voice_preserve.
  - destruct (enhanced_spec _ _ _ Em)
      as (m & b & out' & _ & _ & _ & _ & E' & Hl & _).
    rewrite E' in E; now injection E as <-.
  - unfold enhanced_multi_stage_denoising in E; rewrite Em in E; simpl in E.
    injection E as <-; now apply (multi_stage_length self).
Qed.

Lemma enhanced_raises {T : Transforms} (self : NoiseReducer)
    (audio_data : list R) (voice_preserve : bool) :
  ~ framable audio_data (sample_rate self) ->
  enhanced_multi_stage_denoising self audio_data voice_preserve
  = Raise ParameterError.
Proof.
  intros Hn; unfold enhanced_multi_stage_denoising.
  now rewrite multi_stage_raises.
Qed.

(** The spectral branch on the example buffer. *)
Lemma reduce_noise_standard_example :
  exists stage1_audio,
    @reduce_noise_standard plain_transforms (NoiseReducer_init 100) [1; 0; 0]
    = Ok stage1_audio.
Proof.
  destruct (@reduce_noise_standard_spectral plain_transforms
              (NoiseReducer_init 100) [1; 0; 0] [false; true; true]
              detect_silence_example ltac:(vm_compute; lia)) as [_ Hr].
  eauto.
Qed.

(** * The staged denoisers *)

Lemma multi_stage_Ok {T : Transforms} (self : NoiseReducer)
    (audio_data : list R) :
  framable audio_data (sample_rate self) -> (27 < length audio_data)%nat ->
  exists out, multi_stage_denoising self audio_data = Ok out.
Proof.
  intros Hf Hlen.
  destruct (reduce_noise_standard_Ok self audio_data Hf Hlen) as [s1 E1].
  destruct (multi_stage_spec _ _ _ E1) as (s2 & m & out & _ & _ & E & _).
  eauto.
Qed.

(** C7. [multi_stage_denoising] returns, per sample, [0.9 * stage2] where
    the sample is marked silent and [0.6 * stage2 + 0.4 * original] where it
    is not; [stage2] is the wavelet denoiser applied to the output of the
    spectral-subtraction denoiser, and the silence mask is the one of the
    original input buffer. The output exists as soon as the first stage has
    one, which is the case on every buffer of at least one frame and more
    than 27 samples. *)
Theorem C7_multi_stage_mixing {T : Transforms} (self : NoiseReducer)
    (audio_data : list R) :
  (forall stage1_audio,
      reduce_noise_standard self audio_data = Ok stage1_audio ->
      exists stage2_audio silence_mask out,
        reduce_noise_wavelet self stage1_audio = Ok stage2_audio /\
        detect_silence self audio_data None = Ok silence_mask /\
        multi_stage_denoising self audio_data = Ok out /\
        length out = length audio_data /\
        forall i, (i < length audio_data)%nat ->
          nth i out 0
          = if nth i silence_mask false
            then 0.9 * nth i stage2_audio 0
            else 0.6 * nth i stage2_audio 0 + 0.4 * nth i audio_data 0) /\
  (framable audio_data (sample_rate self) -> (27 < length audio_data)%nat ->
   returns (multi_stage_denoising self audio_data)).
Proof.
  split; [exact (multi_stage_spec self audio_data)|].
  intros Hf Hlen; now apply multi_stage_Ok.
Qed.

Lemma C7_multi_stage_mixing_witness :
  exists out,
    @multi_stage_denoising plain_transforms (NoiseReducer_init 100) [1; 0; 0]
    = Ok out /\ length out = 3%nat.
Proof.
  destruct reduce_noise_standard_example as [stage1 E1].
  destruct (proj1 (@C7_multi_stage_mixing plain_transforms
                     (NoiseReducer_init 100) [1; 0; 0]) stage1 E1)
    as (s2 & mask & out & _ & _ & E & Hl & _).
  exists out; split; [exact E | exact Hl].
Defined.

(** C9. With voice preservation disabled, [enhanced_multi_stage_denoising]
    is [multi_stage_denoising]: its output is returned unmodified and
    unsmoothed. With voice preservation enabled, the output [base] of
    [multi_stage_denoising] is blended into [0.9 * base] on silent samples
    and [0.7 * base + 0.3 * original] on voiced samples, and the result is
    the 10 ms boxcar moving average of this blend at every sample. *)
Theorem C9_enhanced_voice_preserve {T : Transforms} (self : NoiseReducer)
    (audio_data : list R) :
  enhanced_multi_stage_denoising self audio_data false
  = multi_stage_denoising self audio_data /\
  forall base,
    multi_stage_denoising self audio_data = Ok base ->
    enhanced_multi_stage_denoising self audio_data false = Ok base /\
    exists silence_mask blended out,
      detect_silence self audio_data None = Ok silence_mask /\
      length blended = length audio_data /\
      (forall i, (i < length audio_data)%nat ->
         nth i blended 0
         = if nth i silence_mask false
           then 0.9 * nth i base 0
           else 0.7 * nth i base 0 + 0.3 * nth i audio_data 0) /\
      let window_size := Z.to_nat (Z.quot (sample_rate self) 100) in
      enhanced_multi_stage_denoising self audio_data true = Ok out /\
      npx.convolve_same blended
        (map (fun x => x / INR window_size) (np.ones window_size)) = Ok out /\
      length out = length audio_data /\
      forall k, (k < length audio_data)%nat ->
        nth k out 0 = moving_average window_size blended k.
Proof.
  split.
  { unfold enhanced_multi_stage_denoising.
    now destruct (multi_stage_denoising self audio_data). }
  intros base Em.
  assert (Hoff : enhanced_multi_stage_denoising self audio_data false
                 = Ok base).
  { unfold enhanced_multi_stage_denoising; rewrite Em; reflexivity. }
  split; [exact Hoff|].
  destruct (enhanced_spec _ _ _ Em)
    as (mask & blended & out & Hd & Hb & Hlb & Hnth & He & Hlo & Hma).
  exists mask, blended, out; cbv zeta.
  split; [exact Hd|]; split; [exact Hlb|]; split; [exact Hnth|].
  split; [exact He|]; split; [|split; [exact Hlo | exact Hma]].
  unfold enhanced_multi_stage_denoising in He; rewrite Em in He; simpl in He.
  rewrite Hd in He; simpl in He; rewrite Hb in He; exact He.
Qed.

Lemma C9_enhanced_voice_preserve_witness :
  exists base out,
    @enhanced_multi_stage_denoising plain_transforms (NoiseReducer_init 100)
      [1; 0; 0] false = Ok base /\
    @enhanced_multi_stage_denoising plain_transforms (NoiseReducer_init 100)
      [1; 0; 0] true = Ok out.
Proof.
  destruct reduce_noise_standard_example as [stage1 E1].
  destruct (@multi_stage_spec plain_transforms _ _ _ E1)
    as (s2 & mask & base & _ & _ & Em & _).
  destruct (proj2 (@C9_enhanced_voice_preserve plain_transforms
                     (NoiseReducer_init 100) [1; 0; 0]) base Em)
    as (Hoff & m & b & out & _ & _ & _ & Hon & _).
  exists base, out; split; [exact Hoff | exact Hon].
Defined.

(** * Length and sample rate *)

Lemma enhanced_Ok {T : Transforms} (self : NoiseReducer)
    (audio_data : list R) (voice_preserve : bool) :
  framable audio_data (sample_rate self) -> (27 < length audio_data)%nat ->
  exists out,
    enhanced_multi_stage_denoising self audio_data voice_preserve = Ok out.
Proof.
  intros Hf Hlen.
  destruct (multi_stage_Ok self audio_data Hf Hlen) as [base Em].
  destruct voice_preserve.
  - destruct (enhanced_spec _ _ _ Em)
      as (m & b & out & _ & _ & _ & _ & E & _).
    eauto.
  - exists base; unfold enhanced_multi_stage_denoising; now rewrite Em.
Qed.

Lemma process_file_inv {T : Transforms} (noise_reducer : NoiseReducer)
    (audio_data : list R) (sr : Z) (m : method) (processed : list R)
    (sr' : Z) :
  process_file noise_reducer audio_data sr m = Ok (processed, sr') ->
  length processed = length audio_data /\ sr' = sr.
Proof.
  unfold process_file; intros E; inv_bind E.
  injection E as <- <-; split; [|reflexivity].
  destruct m.
  - eapply reduce_noise_standard_length; eassumption.
  - eapply reduce_noise_wavelet_length; eassumption.
  - eapply multi_stage_length; eassumption.
  - eapply enhanced_length; eassumption.
Qed.

(** C1 (as amended). Whenever a denoiser returns, its output has exactly as
    many samples as its input, in the spectral-subtraction branch and the
    low-pass branch, with voice preservation on and off, and the processed
    buffer is handed back with the sample rate of the input. The wavelet
    denoiser returns on every non-empty buffer; the other three return on
    every buffer that holds at least one 20 ms frame (with a hop of at least
    one sample) and more than 27 samples, and the spectral-subtraction branch
    needs the frame only. On a buffer shorter than one frame (or with a hop
    of less than one sample) the other three raise ParameterError. *)
Theorem C1_denoisers_preserve_length {T : Transforms} (self : NoiseReducer)
    (audio_data : list R) :
  (forall out, reduce_noise_standard self audio_data = Ok out ->
               length out = length audio_data) /\
  (forall out, reduce_noise_wavelet self audio_data = Ok out ->
               length out = length audio_data) /\
  (forall out, multi_stage_denoising self audio_data = Ok out ->
               length out = length audio_data) /\
  (forall voice_preserve out,
      enhanced_multi_stage_denoising self audio_data voice_preserve = Ok out ->
      length out = length audio_data) /\
  (forall m sr processed sr',
      process_file self audio_data sr m = Ok (processed, sr') ->
      length processed = length audio_data /\ sr' = sr) /\
  (audio_data <> [] -> returns (reduce_noise_wavelet self audio_data)) /\
  (forall silence_mask,
      detect_silence self audio_data None = Ok silence_mask ->
      (0 < np.count silence_mask)%nat ->
      returns (reduce_noise_standard self audio_data)) /\
  (framable audio_data (sample_rate self) -> (27 < length audio_data)%nat ->
   returns (reduce_noise_standard self audio_data) /\
   returns (multi_stage_denoising self audio_data) /\
   forall voice_preserve,
     returns (enhanced_multi_stage_denoising self audio_data voice_preserve)) /\
  ((Z.of_nat (length audio_data) < frame_length_of (sample_rate self))%Z \/
   (hop_length_of (sample_rate self) < 1)%Z ->
   reduce_noise_standard self audio_data = Raise ParameterError /\
   multi_stage_denoising self audio_data = Raise ParameterError /\
   forall voice_preserve,
     enhanced_multi_stage_denoising self audio_data voice_preserve
     = Raise ParameterError).
Proof.
  split; [intros out; apply reduce_noise_standard_length|].
  split; [intros out; apply reduce_noise_wavelet_length|].
  split; [intros out; apply multi_stage_length|].
  split; [intros vp out; apply enhanced_length|].
  split; [intros m sr processed sr'; apply process_file_inv|].
  split.
  { intros Hne; destruct (reduce_noise_wavelet_Ok self audio_data Hne)
      as (out & E & _); exists out; exact E. }
  split.
  { intros mask Hd Hc.
    destruct (reduce_noise_standard_spectral self audio_data mask Hd Hc)
      as [_ Hr].
    eexists; exact Hr. }
  split.
  { intros Hf Hlen; split; [|split].
    - apply reduce_noise_standard_Ok; assumption.
    - apply multi_stage_Ok; assumption.
    - intros vp; apply enhanced_Ok; assumption. }
  intros Hshort.
  assert (Hn : ~ framable audio_data (sample_rate self))
    by (unfold framable; lia).
  split; [|split].
  - now apply reduce_noise_standard_raises.
  - now apply multi_stage_raises.
  - intros vp; now apply enhanced_raises.
Qed.

Lemma framable_28_at_100 : framable (repeat 0 28) 100.
Proof.
  unfold framable; rewrite repeat_length; split; vm_compute; discriminate.
Qed.

Lemma C1_denoisers_preserve_length_witness :
  (exists out,
     @reduce_noise_standard plain_transforms (NoiseReducer_init 100) [1; 0; 0]
     = Ok out /\ length out = 3%nat) /\
  returns (@enhanced_multi_stage_denoising plain_transforms
             (NoiseReducer_init 100) (repeat 0 28) true) /\
  @multi_stage_denoising plain_transforms (NoiseReducer_init 44100) [0.5]
  = Raise ParameterError.
Proof.
  split; [|split].
  - destruct reduce_noise_standard_example as [out E].
    exists out; split; [exact E|].
    exact (proj1 (@C1_denoisers_preserve_length plain_transforms
                    (NoiseReducer_init 100) [1; 0; 0]) out E).
  - destruct (@C1_denoisers_preserve_length plain_transforms
                (NoiseReducer_init 100) (repeat 0 28))
      as (_ & _ & _ & _ & _ & _ & _ & Hret & _).
    apply Hret; [exact framable_28_at_100 | rewrite repeat_length; lia].
  - destruct (@C1_denoisers_preserve_length plain_transforms
                (NoiseReducer_init 44100) [0.5])
      as (_ & _ & _ & _ & _ & _ & _ & _ & Hraise).
    apply Hraise; left; vm_compute; reflexivity.
Defined.

Lemma one_sample_not_framable (x : R) : ~ framable [x] 44100.
Proof. intros [_ H]; vm_compute in H; apply H; reflexivity. Qed.

(** C1 as the specification states it fails: a buffer of one sample at
    44100 Hz is not
    empty, yet it is shorter than the 882-sample frame, the framing of the
    silence detector raises, and the denoiser has no output. *)
Lemma C1_counterexample :
  [0.5] <> [] /\
  @reduce_noise_standard plain_transforms (NoiseReducer_init 44100) [0.5]
  = Raise ParameterError.
Proof.
  split; [discriminate|].
  apply reduce_noise_standard_raises, one_sample_not_framable.
Qed.

(** * Invalid input and numeric degeneracy *)

Lemma evaluate_audio_empty (self : Evaluator.AudioEvaluator) (sr : Z) :
  Evaluator.evaluate_audio self [] sr = Raise ValueError.
Proof. reflexivity. Qed.

Lemma evaluate_audio_raises (self : Evaluator.AudioEvaluator)
    (audio_data : list R) (sr : Z) :
  audio_data <> [] -> ~ framable audio_data sr ->
  Evaluator.evaluate_audio self audio_data sr = Raise ParameterError.
Proof.
  intros Hne Hn.
  destruct (calculate_peak_Ok _ Hne) as (p & Hp & _).
  unfold Evaluator.evaluate_audio; simpl; rewrite Hp; simpl.
  unfold Evaluator.detect_silence.
  now rewrite frame_silence_raises.
Qed.

Lemma all_zero_mean (xs : list R) :
  (forall x, In x xs -> x = 0) -> np.mean xs = 0.
Proof.
  intros H; unfold np.mean.
  assert (E : np.sum xs = 0).
  { induction xs as [|y xs IH]; [reflexivity|].
    change (y + np.sum xs = 0).
    rewrite IH by (intros; apply H; simpl; auto).
    rewrite (H y) by (simpl; auto); lra. }
  rewrite E; unfold Rdiv; apply Rmult_0_l.
Qed.

Lemma Rgtb_0_0 : Rgtb 0 0 = false.
Proof. apply Rgtb_false; lra. Qed.

(** The metrics of an all-zero buffer are the sentinel values. *)
Lemma evaluate_audio_zero_buffer (self : Evaluator.AudioEvaluator)
    (audio_data : list R) (sr : Z) :
  framable audio_data sr ->
  (forall x, In x audio_data -> x = 0) ->
  exists m compliant,
    Evaluator.evaluate_audio self audio_data sr = Ok (m, compliant) /\
    Evaluator.m_rms m = 0 /\ Evaluator.m_rms_db m = -100 /\
    Evaluator.m_peak m = 0 /\ Evaluator.m_peak_db m = -100 /\
    Evaluator.m_cv m = 1.0 /\ Evaluator.m_snr m = 100 /\
    Evaluator.m_non_speech_ratio m = 0 /\ Evaluator.m_max_silence m = 0.
Proof.
  intros Hf Hz.
  pose proof (framable_nonempty _ _ Hf) as Hne.
  pose proof (all_zero_rms _ Hz) as Hrms; unfold rms in Hrms.
  pose proof (rms_zero_peak _ Hne (all_zero_rms _ Hz)) as Hpk.
  assert (Hp : Evaluator.calculate_peak audio_data = Ok (0, -100)).
  { unfold Evaluator.calculate_peak; rewrite Hpk; simpl.
    now rewrite Rgtb_0_0. }
  pose proof (zero_buffer_detect_silence _ _ Hf Hz) as Hd.
  eexists; eexists; split;
    [apply (evaluate_audio_Ok self _ _ _ _ _ _ Hp Hd)|].
  unfold Evaluator.calculate_rms; simpl; rewrite Hrms, Rgtb_0_0.
  repeat (split; [reflexivity|]); split; [|split; [|split; reflexivity]].
  - unfold Evaluator.calculate_cv.
    rewrite all_zero_mean, Rgtb_0_0; [reflexivity|].
    intros x Hx; apply in_map_iff in Hx; destruct Hx as (y & <- & Hy).
    rewrite (Hz y Hy); apply Rabs_R0.
  - unfold Evaluator.estimate_snr.
    assert (E : np.mean
                  (np.square
                     (map (fun x => x - np.mean audio_data) audio_data)) = 0).
    { pose proof (all_zero_rms
                    (map (fun x => x - np.mean audio_data) audio_data)) as H.
      unfold rms in H; apply sqrt_eq_0; [apply mean_square_nonneg|].
      apply H; intros x Hx.
      apply in_map_iff in Hx; destruct Hx as (y & <- & Hy).
      rewrite (Hz y Hy), (all_zero_mean _ Hz); lra. }
    now rewrite E, Rgtb_0_0.
Qed.

(** The sentinel of each metric, on every buffer. *)
Lemma sentinels (audio_data : list R) :
  (fst (Evaluator.calculate_rms audio_data) = 0 ->
   snd (Evaluator.calculate_rms audio_data) = -100) /\
  (forall peak peak_db,
      Evaluator.calculate_peak audio_data = Ok (peak, peak_db) ->
      peak = 0 -> peak_db = -100) /\
  (np.mean (np.abs audio_data) = 0 ->
   Evaluator.calculate_cv audio_data = 1.0) /\
  (np.mean (np.square (map (fun x => x - np.mean audio_data) audio_data)) = 0
   -> Evaluator.estimate_snr audio_data = 100).
Proof.
  split; [|split; [|split]].
  - unfold Evaluator.calculate_rms; simpl; intros ->; now rewrite Rgtb_0_0.
  - unfold Evaluator.calculate_peak; intros peak peak_db E; inv_bind E.
    injection E as <- <-; intros ->; now rewrite Rgtb_0_0.
  - unfold Evaluator.calculate_cv; intros ->; now rewrite Rgtb_0_0.
  - unfold Evaluator.estimate_snr; intros ->; now rewrite Rgtb_0_0.
Qed.

(** C8 (as amended). [reduce_noise_standard], [multi_stage_denoising] and
    [enhanced_multi_stage_denoising] reject an empty buffer or a non-positive
    sample rate in their first statement, the framing of the silence
    detector, before any transform runs, and [evaluate_audio] rejects them
    too. [reduce_noise_wavelet] rejects an empty buffer, but it never
    consults the sample rate and returns on every non-empty buffer. Numeric
    degeneracy does not raise: a zero RMS or peak gives -100 dB, a zero mean
    amplitude gives a coefficient of variation of 1.0, a zero noise power
    gives 100 dB, and an all-zero buffer that can be framed is evaluated to
    exactly these values. *)
Theorem C8_invalid_input_and_degeneracy {T : Transforms}
    (self : NoiseReducer) (evaluator : Evaluator.AudioEvaluator)
    (audio_data : list R) (sr : Z) :
  (audio_data = [] \/ (sample_rate self <= 0)%Z ->
   detect_silence self audio_data None = Raise ParameterError /\
   reduce_noise_standard self audio_data = Raise ParameterError /\
   multi_stage_denoising self audio_data = Raise ParameterError /\
   forall voice_preserve,
     enhanced_multi_stage_denoising self audio_data voice_preserve
     = Raise ParameterError) /\
  (audio_data = [] \/ (sr <= 0)%Z ->
   raises (Evaluator.evaluate_audio evaluator audio_data sr)) /\
  (audio_data = [] ->
   reduce_noise_wavelet self audio_data = Raise ValueError) /\
  (forall sample_rate',
      reduce_noise_wavelet
        {| sample_rate := sample_rate';
           silence_threshold_db := silence_threshold_db self;
           wavelet_threshold_mult := wavelet_threshold_mult self;
           target_snr := target_snr self |} audio_data
      = reduce_noise_wavelet self audio_data) /\
  (audio_data <> [] -> returns (reduce_noise_wavelet self audio_data)) /\
  (forall m compliant,
      Evaluator.evaluate_audio evaluator audio_data sr = Ok (m, compliant) ->
      (Evaluator.m_rms m = 0 -> Evaluator.m_rms_db m = -100) /\
      (Evaluator.m_peak m = 0 -> Evaluator.m_peak_db m = -100) /\
      (np.mean (np.abs audio_data) = 0 -> Evaluator.m_cv m = 1.0) /\
      (np.mean (np.square (map (fun x => x - np.mean audio_data) audio_data))
       = 0 -> Evaluator.m_snr m = 100)) /\
  (framable audio_data sr -> (forall x, In x audio_data -> x = 0) ->
   exists m compliant,
     Evaluator.evaluate_audio evaluator audio_data sr = Ok (m, compliant) /\
     Evaluator.m_rms m = 0 /\ Evaluator.m_rms_db m = -100 /\
     Evaluator.m_peak m = 0 /\ Evaluator.m_peak_db m = -100 /\
     Evaluator.m_cv m = 1.0 /\ Evaluator.m_snr m = 100 /\
     Evaluator.m_non_speech_ratio m = 0 /\ Evaluator.m_max_silence m = 0).
Proof.
  split.
  { intros Hinv; pose proof (invalid_not_framable _ _ Hinv) as Hn.
    split; [now apply detect_silence_raises|].
    split; [now apply reduce_noise_standard_raises|].
    split; [now apply multi_stage_raises|].
    intros vp; now apply enhanced_raises. }
  split.
  { intros Hinv; destruct audio_data as [|x xs].
    - exists ValueError; apply evaluate_audio_empty.
    - exists ParameterError; apply evaluate_audio_raises; [discriminate|].
      apply invalid_not_framable.
      destruct Hinv as [Hinv|Hinv]; [discriminate | now right]. }
  split; [intros ->; apply reduce_noise_wavelet_empty|].
  split; [reflexivity|].
  split.
  { intros Hne; destruct (reduce_noise_wavelet_Ok self audio_data Hne)
      as (out & E & _); exists out; exact E. }
  split; [|apply evaluate_audio_zero_buffer].
  intros m compliant E.
  destruct (sentinels audio_data) as (Hrms & Hpeak & Hcv & Hsnr).
  unfold Evaluator.evaluate_audio in E.
  destruct (Evaluator.calculate_rms audio_data) as [rms0 rms_db] eqn:Er.
  inv_bind E; destruct a as [peak peak_db].
  inv_bind E; destruct a as [ratio silence].
  injection E as <- _; simpl in *.
  split; [exact Hrms|]; split; [apply (Hpeak _ _ E0)|].
  split; [exact Hcv | exact Hsnr].
Qed.

(** C8 as the specification states it fails: with a sample rate of -8000
    the wavelet
    denoiser is not rejected, it returns on the buffer [1]. *)
Lemma C8_counterexample :
  (sample_rate (NoiseReducer_init (-8000)) <= 0)%Z /\
  exists out,
    @reduce_noise_wavelet plain_transforms (NoiseReducer_init (-8000)) [1]
    = Ok out.
Proof.
  split; [simpl; lia|].
  destruct (@reduce_noise_wavelet_Ok plain_transforms
              (NoiseReducer_init (-8000)) [1] ltac:(discriminate))
    as (out & E & _).
  exists out; exact E.
Qed.

Lemma C8_invalid_input_and_degeneracy_witness :
  exists m compliant,
    Evaluator.evaluate_audio Evaluator.init [0; 0; 0] 100
    = Ok (m, compliant) /\
    Evaluator.m_rms_db m = -100 /\ Evaluator.m_peak_db m = -100 /\
    Evaluator.m_cv m = 1.0 /\ Evaluator.m_snr m = 100.
Proof.
  destruct (proj2 (proj2 (proj2 (proj2 (proj2 (proj2
              (@C8_invalid_input_and_degeneracy plain_transforms
                 (NoiseReducer_init 100) Evaluator.init [0; 0; 0] 100))))))
              (framable_3_at_100 _ _ _)
              ltac:(intros x Hx; simpl in Hx; intuition))
    as (m & c & E & _ & Hr & _ & Hp & Hcv & Hsnr & _).
  exists m, c; repeat split; assumption.
Defined.

(** * Further properties of the silence detector *)

Lemma set_range_nth (start stop : nat) (mask : list bool) (j : nat) :
  (j < length mask)%nat ->
  nth j (set_range start stop mask) false
  = (Nat.leb start j && Nat.ltb j stop) || nth j mask false.
Proof.
  intros Hj; unfold set_range.
  rewrite (nth_map_default _ _ j (O, false))
    by (rewrite length_combine, length_seq; lia).
  rewrite combine_nth by (rewrite length_seq; reflexivity).
  rewrite seq_nth by assumption; simpl.
  destruct (Nat.leb start j && Nat.ltb j stop); reflexivity.
Qed.

Lemma expand_loop_nth (frame_length hop_length n : nat)
    (l : list (nat * bool)) (acc : list bool) (j : nat) :
  length acc = n -> (j < n)%nat ->
  nth j
    (fold_left
       (fun full_mask '(i, is_silence) =>
          let start := (i * hop_length)%nat in
          let stop := Nat.min (start + frame_length) n in
          if is_silence : bool then set_range start stop full_mask
          else full_mask) l acc) false = true
  <-> nth j acc false = true \/
      exists i, In (i, true) l /\
                (i * hop_length <= j < i * hop_length + frame_length)%nat.
Proof.
  revert acc; induction l as [|[i b] l IH]; intros acc Hacc Hj.
  - simpl; split; [auto | intros [H|(i & [] & _)]; exact H].
  - cbn [fold_left]; destruct b.
    + rewrite IH by (rewrite ?set_range_length; assumption).
      rewrite set_range_nth by lia.
      rewrite orb_true_iff, andb_true_iff, Nat.leb_le, Nat.ltb_lt.
      split.
      * intros [[[H1 H2]|H]|(i' & Hin & Hr)].
        -- right; exists i; split; [left; reflexivity | lia].
        -- left; exact H.
        -- right; exists i'; split; [right; exact Hin | exact Hr].
      * intros [H|(i' & [E|Hin] & Hr)].
        -- left; right; exact H.
        -- injection E as <-; left; left; lia.
        -- right; exists i'; split; assumption.
    + rewrite IH by assumption.
      split.
      * intros [H|(i' & Hin & Hr)]; [left; exact H|].
        right; exists i'; split; [right; exact Hin | exact Hr].
      * intros [H|(i' & [E|Hin] & Hr)]; [left; exact H | discriminate|].
        right; exists i'; split; assumption.
Qed.

Lemma in_enumerate (silence_mask : list bool) (i : nat) (b : bool) :
  In (i, b) (combine (seq 0 (length silence_mask)) silence_mask)
  <-> (i < length silence_mask)%nat /\ nth i silence_mask false = b.
Proof.
  split.
  - intros H; apply (In_nth _ _ (O, false)) in H.
    destruct H as (k & Hk & E).
    rewrite length_combine, length_seq, Nat.min_id in Hk.
    rewrite combine_nth in E by (rewrite length_seq; reflexivity).
    rewrite seq_nth in E by assumption.
    injection E as <- <-; split; [assumption | reflexivity].
  - intros [Hi <-].
    replace (i, nth i silence_mask false)
      with (nth i (combine (seq 0 (length silence_mask)) silence_mask)
              (O, false)).
    + apply nth_In; rewrite length_combine, length_seq; lia.
    + rewrite combine_nth by (rewrite length_seq; reflexivity).
      now rewrite seq_nth by assumption.
Qed.

(** A sample is marked exactly when it lies inside a silent frame. *)
Lemma expand_mask_nth (n frame_length hop_length : nat)
    (silence_mask : list bool) (j : nat) :
  (j < n)%nat ->
  nth j (expand_mask n frame_length hop_length silence_mask) false = true
  <-> exists i, (i < length silence_mask)%nat /\
                nth i silence_mask false = true /\
                (i * hop_length <= j < i * hop_length + frame_length)%nat.
Proof.
  intros Hj; unfold expand_mask.
  rewrite expand_loop_nth by (rewrite ?repeat_length; auto).
  split.
  - intros [H|(i & Hin & Hr)].
    + rewrite nth_repeat_lt in H by assumption; discriminate.
    + apply in_enumerate in Hin; destruct Hin as [Hi Hn].
      exists i; auto.
  - intros (i & Hi & Hn & Hr); right; exists i; split; [|exact Hr].
    apply in_enumerate; auto.
Qed.

Lemma frame_count (x : list R) (frame_length hop_length : Z)
    (frames : list (list R)) :
  librosa.frame x frame_length hop_length = Ok frames ->
  Z.of_nat (length frames)
  = (1 + (Z.of_nat (length x) - frame_length) / hop_length)%Z /\
  (1 <= hop_length)%Z /\ (frame_length <= Z.of_nat (length x))%Z.
Proof.
  unfold librosa.frame.
  set (nf := (1 + (Z.of_nat (length x) - frame_length) / hop_length)%Z).
  destruct (Z.ltb_spec (Z.of_nat (length x)) frame_length); [discriminate|].
  destruct (Z.ltb_spec hop_length 1); [discriminate|].
  intros E; injection E as <-.
  rewrite length_map, length_seq.
  assert (0 <= (Z.of_nat (length x) - frame_length) / hop_length)%Z
    by (apply Z.div_pos; lia).
  lia.
Qed.

Lemma frame_silence_count (audio_data : list R) (sr : Z) (threshold_db : R)
    (mask : list bool) :
  frame_silence audio_data sr threshold_db = Ok mask ->
  framable audio_data sr /\
  Z.of_nat (length mask)
  = (1 + (Z.of_nat (length audio_data) - frame_length_of sr)
         / hop_length_of sr)%Z.
Proof.
  unfold frame_silence, frame_energy; intros E.
  destruct (librosa.frame audio_data (frame_length_of sr) (hop_length_of sr))
    as [frames|] eqn:Ef; [|discriminate].
  cbn [bind] in E.
  destruct (librosa.amplitude_to_db
              (map (fun f => np.sum (np.square f)) frames))
    as [db|] eqn:Ed; [|discriminate].
  cbn [bind] in E; injection E as <-.
  destruct (frame_count _ _ _ _ Ef) as (Hc & Hhop & Hlen).
  split; [split; assumption|].
  unfold librosa.amplitude_to_db, librosa.power_to_db in Ed.
  destruct (np.max (np.abs (map (fun f => np.sum (np.square f)) frames)))
    as [ref_value|]; [|discriminate].
  cbn [bind] in Ed.
  match type of Ed with
  | bind ?c _ = _ => destruct c as [top|]; [|discriminate]
  end.
  cbn [bind] in Ed; injection Ed as <-.
  unfold np.square, np.abs; rewrite !length_map; exact Hc.
Qed.

(** X1. The mask of [NoiseReducer.detect_silence] has one entry per sample,
    and a sample is marked silent exactly when it lies inside a silent
    frame, that is in [[i * hop, i * hop + frame_length)] for a frame [i]
    whose decibel value is below the threshold. Every frame lies inside the
    buffer, so the [min] of line 56 never shortens a frame, and the samples
    behind the last frame are never marked. *)
Theorem X1_silence_mask_marks_silent_frames (self : NoiseReducer)
    (audio_data : list R) (threshold_db : option R) (full_mask : list bool) :
  detect_silence self audio_data threshold_db = Ok full_mask ->
  let frame_length := Z.to_nat (frame_length_of (sample_rate self)) in
  let hop_length := Z.to_nat (hop_length_of (sample_rate self)) in
  exists silence_mask,
    frame_silence audio_data (sample_rate self)
      match threshold_db with
      | None => silence_threshold_db self
      | Some t => t
      end = Ok silence_mask /\
    length full_mask = length audio_data /\
    (forall i, (i < length silence_mask)%nat ->
               (i * hop_length + frame_length <= length audio_data)%nat) /\
    (forall j, (j < length audio_data)%nat ->
       (nth j full_mask false = true <->
        exists i, (i < length silence_mask)%nat /\
                  nth i silence_mask false = true /\
                  (i * hop_length <= j < i * hop_length + frame_length)%nat))
    /\
    (forall j, (((length silence_mask - 1) * hop_length + frame_length <= j)
                 %nat) ->
               nth j full_mask false = false).
Proof.
  intros Hd frame_length hop_length.
  pose proof (detect_silence_length _ _ _ _ Hd) as Hlen.
  unfold detect_silence in Hd; inv_bind Hd; injection Hd as <-.
  exists a; split; [exact E|]; split; [exact Hlen|].
  destruct (frame_silence_count _ _ _ _ E) as ([Hhop Hfl] & Hcount).
  assert (Hfits : forall i, (i < length a)%nat ->
             (i * hop_length + frame_length <= length audio_data)%nat).
  { intros i Hi.
    pose proof (Z.mul_div_le
                  (Z.of_nat (length audio_data)
                   - frame_length_of (sample_rate self))
                  (hop_length_of (sample_rate self)) ltac:(lia)) as Hq.
    pose proof (framable_frame_length _ _ (conj Hhop Hfl)) as H2.
    subst frame_length hop_length; nia. }
  split; [exact Hfits|]; split.
  - intros j Hj; now apply expand_mask_nth.
  - intros j Hj.
    destruct (Nat.lt_ge_cases j (length audio_data)) as [Hlt|Hge].
    + destruct (nth j (expand_mask _ _ _ a) false) eqn:En; [|reflexivity].
      apply expand_mask_nth in En; [|exact Hlt].
      destruct En as (i & Hi & _ & Hr).
      fold hop_length frame_length in Hr.
      assert (i * hop_length <= (length a - 1) * hop_length)%nat
        by (apply Nat.mul_le_mono_r; lia).
      lia.
    + apply nth_overflow; rewrite expand_mask_length; exact Hge.
Qed.

Lemma X1_silence_mask_witness :
  exists silence_mask,
    frame_silence [1; 0; 0] 100 (-45) = Ok silence_mask /\
    length [false; true; true] = length [1; 0; 0].
Proof.
  destruct (X1_silence_mask_marks_silent_frames (NoiseReducer_init 100)
              [1; 0; 0] None [false; true; true] detect_silence_example)
    as (sm & E & Hl & _).
  exists sm; split; [exact E | exact Hl].
Defined.

(** * The longest silent run *)

Lemma longest_run_final (silence_mask : list bool) :
  Evaluator.longest_run silence_mask = run_final silence_mask 0 0.
Proof. reflexivity. Qed.

Lemma run_final_nil (mx cur : nat) : run_final [] mx cur = Nat.max mx cur.
Proof. reflexivity. Qed.

Lemma run_final_true (l : list bool) (mx cur : nat) :
  run_final (true :: l) mx cur = run_final l mx (S cur).
Proof. reflexivity. Qed.

Lemma run_final_false (l : list bool) (mx cur : nat) :
  run_final (false :: l) mx cur = run_final l (Nat.max mx cur) 0.
Proof. reflexivity. Qed.

(** One iteration of the loop, by computation. *)
Ltac run_step :=
  match goal with
  | |- context [run_final (true :: ?l) ?m ?c] =>
      change (run_final (true :: l) m c) with (run_final l m (S c))
  | |- context [run_final (false :: ?l) ?m ?c] =>
      change (run_final (false :: l) m c)
        with (run_final l (Nat.max m c) 0)
  | |- context [run_final [] ?m ?c] =>
      change (run_final [] m c) with (Nat.max m c)
  end.

Lemma run_final_ge (l : list bool) (mx cur : nat) :
  (Nat.max mx cur <= run_final l mx cur)%nat.
Proof.
  revert mx cur; induction l as [|[|] l IH]; intros mx cur.
  - run_step; lia.
  - run_step; specialize (IH mx (S cur)); lia.
  - run_step; specialize (IH (Nat.max mx cur) 0%nat); lia.
Qed.

Lemma run_final_leading (k : nat) (post : list bool) (mx cur : nat) :
  (cur + k <= run_final (repeat true k ++ post) mx cur)%nat.
Proof.
  revert cur; induction k as [|k IH]; intros cur.
  - simpl; pose proof (run_final_ge post mx cur); lia.
  - cbn [repeat app]; run_step.
    specialize (IH (S cur)); lia.
Qed.

Lemma run_final_block (pre : list bool) (k : nat) (post : list bool)
    (mx cur : nat) :
  (k <= run_final (pre ++ repeat true k ++ post) mx cur)%nat.
Proof.
  revert mx cur; induction pre as [|[|] pre IH]; intros mx cur.
  - simpl; pose proof (run_final_leading k post mx cur); lia.
  - cbn [app]; run_step; apply IH.
  - cbn [app]; run_step; apply IH.
Qed.

Lemma run_final_attained (l : list bool) (mx cur : nat) :
  run_final l mx cur = mx \/
  (exists k post, l = repeat true k ++ post /\
                  run_final l mx cur = (cur + k)%nat) \/
  (exists pre post,
      l = pre ++ repeat true (run_final l mx cur) ++ post).
Proof.
  revert mx cur; induction l as [|[|] l IH]; intros mx cur.
  - run_step.
    destruct (Nat.max_spec mx cur) as [[_ E]|[_ E]]; rewrite E.
    + right; left; exists 0%nat, []; split; [reflexivity | lia].
    + left; reflexivity.
  - run_step.
    destruct (IH mx (S cur)) as [E|[(k & post & El & E)|(pre & post & El)]].
    + left; exact E.
    + right; left; exists (S k), post; split; [|lia].
      cbn [repeat app]; f_equal; exact El.
    + right; right; exists (true :: pre), post.
      cbn [app]; f_equal; exact El.
  - run_step.
    destruct (IH (Nat.max mx cur) 0%nat)
      as [E|[(k & post & El & E)|(pre & post & El)]].
    + destruct (Nat.max_spec mx cur) as [[_ E']|[_ E']].
      * right; left; exists 0%nat, (false :: l).
        split; [reflexivity | lia].
      * left; lia.
    + right; right; exists [false], post.
      rewrite E; cbn [app Nat.add]; f_equal; exact El.
    + right; right; exists (false :: pre), post.
      cbn [app]; f_equal; exact El.
Qed.

Lemma run_final_le_count (l : list bool) (mx cur : nat) :
  (run_final l mx cur <= Nat.max mx (cur + np.count l))%nat.
Proof.
  revert mx cur; induction l as [|[|] l IH]; intros mx cur.
  - run_step; unfold np.count; simpl; lia.
  - run_step; specialize (IH mx (S cur)).
    unfold np.count in *; simpl; lia.
  - run_step; specialize (IH (Nat.max mx cur) 0%nat).
    unfold np.count in *; simpl; lia.
Qed.

(** X3. The loop of [AudioEvaluator.detect_silence] computes the length of
    the longest run of consecutive silent frames: every block of [k]
    consecutive silent frames has [k] at most the result, and the mask does
    contain a block of silent frames of exactly the result's length; the
    result never exceeds the number of silent frames. *)
Theorem X3_longest_run_is_longest (silence_mask : list bool) :
  (forall pre k post,
      silence_mask = pre ++ repeat true k ++ post ->
      (k <= Evaluator.longest_run silence_mask)%nat) /\
  (exists pre post,
      silence_mask
      = pre ++ repeat true (Evaluator.longest_run silence_mask) ++ post) /\
  (Evaluator.longest_run silence_mask <= np.count silence_mask)%nat.
Proof.
  rewrite longest_run_final; split; [|split].
  - intros pre k post ->; apply run_final_block.
  - destruct (run_final_attained silence_mask 0 0)
      as [E|[(k & post & El & E)|H]].
    + exists [], silence_mask; rewrite E; reflexivity.
    + exists [], post; rewrite E; exact El.
    + exact H.
  - pose proof (run_final_le_count silence_mask 0 0); lia.
Qed.

(** * Bounds on the silence metrics *)

Lemma count_le_length (mask : list bool) :
  (np.count mask <= length mask)%nat.
Proof. unfold np.count; apply filter_length_le. Qed.

Lemma count_lt_length (mask : list bool) :
  In false mask -> (np.count mask < length mask)%nat.
Proof.
  unfold np.count; induction mask as [|b mask IH]; intros Hin;
    [destruct Hin|].
  pose proof (filter_length_le (fun b => b) mask) as Hle.
  destruct Hin as [E|H]; simpl.
  - subst b; simpl; lia.
  - destruct b; simpl; [specialize (IH H); lia | lia].
Qed.

(** With a threshold of at most 0 dB the loudest frame is not silent. *)
Lemma frame_silence_has_voiced (audio_data : list R) (sr : Z)
    (threshold_db : R) (mask : list bool) :
  threshold_db <= 0 ->
  frame_silence audio_data sr threshold_db = Ok mask ->
  In false mask.
Proof.
  intros Hth E.
  assert (He : exists energy, frame_energy audio_data sr = Ok energy).
  { unfold frame_silence in E.
    destruct (frame_energy audio_data sr) as [energy|];
      [eauto | discriminate]. }
  destruct He as [energy He].
  destruct (frame_silence_clamped _ _ threshold_db _ He) as (M & HM & _ & Hs).
  rewrite Hs in E; injection E as <-.
  apply in_map_iff; exists M; split.
  - apply Rltb_false; rewrite clamped_db_loudest; exact Hth.
  - apply max_Ok, HM.
Qed.

(** X2. For every threshold of at most 0 dB (the evaluator uses -45), the
    non-speech ratio returned by [AudioEvaluator.detect_silence] lies in
    [0, 1): the loudest frame is never silent, so the ratio never reaches 1.
    The longest silence is non-negative and at most
    [(len - frame_length) / sr] seconds, hence strictly shorter than the
    buffer. *)
Theorem X2_silence_metrics_bounds (audio_data : list R) (sr : Z)
    (threshold_db non_speech_ratio max_silence : R) :
  threshold_db <= 0 ->
  Evaluator.detect_silence audio_data sr threshold_db
  = Ok (non_speech_ratio, max_silence) ->
  0 <= non_speech_ratio < 1 /\
  0 <= max_silence /\
  max_silence
  <= IZR (Z.of_nat (length audio_data) - frame_length_of sr) / IZR sr /\
  max_silence < INR (length audio_data) / IZR sr.
Proof.
  intros Hth E; unfold Evaluator.detect_silence in E.
  destruct (frame_silence audio_data sr threshold_db) as [mask|] eqn:Es;
    [|discriminate].
  cbn [bind] in E; injection E as <- <-.
  pose proof (frame_silence_has_voiced _ _ _ _ Hth Es) as Hv.
  pose proof (count_lt_length _ Hv) as Hc.
  destruct (frame_silence_count _ _ _ _ Es) as ([Hhop Hfl] & Hn).
  pose proof (framable_frame_length _ _ (conj Hhop Hfl)) as Hfl2.
  assert (Hsr : (100 <= sr)%Z).
  { unfold hop_length_of in Hhop; Z.to_euclidean_division_equations; lia. }
  assert (Hsr' : 0 < IZR sr) by (apply IZR_lt; lia).
  assert (Hlen : 0 < INR (length mask)) by (apply lt_0_INR; lia).
  split.
  { split.
    - apply Rmult_le_pos; [apply pos_INR|].
      left; now apply Rinv_0_lt_compat.
    - apply Rmult_lt_reg_r with (INR (length mask)); [exact Hlen|].
      unfold Rdiv; rewrite Rmult_assoc, Rinv_l by lra.
      rewrite Rmult_1_r, Rmult_1_l; now apply lt_INR. }
  pose proof (run_final_le_count mask 0 0) as Hrun.
  rewrite <- longest_run_final in Hrun.
  assert (Hprod : INR (Evaluator.longest_run mask) * IZR (hop_length_of sr)
                  <= IZR (Z.of_nat (length audio_data) - frame_length_of sr)).
  { rewrite INR_IZR_INZ, <- mult_IZR; apply IZR_le.
    pose proof (Z.mul_div_le
                  (Z.of_nat (length audio_data) - frame_length_of sr)
                  (hop_length_of sr) ltac:(lia)).
    nia. }
  assert (Hinv : 0 < / IZR sr) by now apply Rinv_0_lt_compat.
  split; [|split].
  - unfold Rdiv; apply Rmult_le_pos; [|lra].
    apply Rmult_le_pos; [apply pos_INR | apply IZR_le; lia].
  - unfold Rdiv; apply Rmult_le_compat_r; [lra | exact Hprod].
  - unfold Rdiv; apply Rmult_lt_compat_r; [exact Hinv|].
    eapply Rle_lt_trans; [exact Hprod|].
    rewrite INR_IZR_INZ; apply IZR_lt; lia.
Qed.

Lemma X2_silence_metrics_witness :
  0 <= 0 < 1 /\ 0 <= 0 /\
  0 <= IZR (Z.of_nat (length [0; 0; 0]) - frame_length_of 100) / IZR 100 /\
  0 < INR (length [0; 0; 0]) / IZR 100.
Proof.
  apply (X2_silence_metrics_bounds [0; 0; 0] 100 (-45) 0 0).
  - lra.
  - apply quiet_buffer_detect_silence.
    + apply framable_3_at_100.
    + vm_compute; discriminate.
    + apply zeros_quiet.
Defined.

(** * The signal-to-noise estimate *)




(** * Constant buffers *)

Lemma frame_exact_length (x : list R) (frame_length hop_length : Z)
    (frames : list (list R)) (f : list R) :
  librosa.frame x frame_length hop_length = Ok frames ->
  (0 <= frame_length)%Z -> In f frames ->
  length f = Z.to_nat frame_length.
Proof.
  unfold librosa.frame.
  set (nf := (1 + (Z.of_nat (length x) - frame_length) / hop_length)%Z).
  destruct (Z.ltb_spec (Z.of_nat (length x)) frame_length); [discriminate|].
  destruct (Z.ltb_spec hop_length 1); [discriminate|].
  intros E Hfl Hf; injection E as <-.
  apply in_map_iff in Hf; destruct Hf as (i & <- & Hi).
  apply in_seq in Hi.
  rewrite length_firstn, length_skipn.
  pose proof (Z.mul_div_le (Z.of_nat (length x) - frame_length) hop_length
                ltac:(lia)) as Hq.
  assert (0 <= (Z.of_nat (length x) - frame_length) / hop_length)%Z
    by (apply Z.div_pos; lia).
  subst nf; nia.
Qed.

Lemma sum_square_constant (c : R) (f : list R) :
  (forall s, In s f -> s = c) ->
  np.sum (np.square f) = INR (length f) * (c * c).
Proof.
  induction f as [|s f IH]; intros H; [simpl; lra|].
  change (np.sum (np.square (s :: f))) with (s * s + np.sum (np.square f)).
  rewrite length_cons, S_INR, IH by (intros; apply H; simpl; auto).
  rewrite (H s) by (simpl; auto); ring.
Qed.

Lemma sum_constant (c : R) (f : list R) :
  (forall s, In s f -> s = c) -> np.sum f = INR (length f) * c.
Proof.
  induction f as [|s f IH]; intros H; [simpl; lra|].
  change (np.sum (s :: f)) with (s + np.sum f).
  rewrite length_cons, S_INR, IH by (intros; apply H; simpl; auto).
  rewrite (H s) by (simpl; auto); ring.
Qed.

Lemma mean_constant (c : R) (f : list R) :
  f <> [] -> (forall s, In s f -> s = c) -> np.mean f = c.
Proof.
  intros Hne H; unfold np.mean; rewrite (sum_constant c) by assumption.
  field; apply not_0_INR; destruct f; [easy | discriminate].
Qed.

Lemma mean_square_constant (c : R) (f : list R) :
  f <> [] -> (forall s, In s f -> s = c) -> np.mean (np.square f) = c * c.
Proof.
  intros Hne H; apply mean_constant.
  - destruct f; [easy | discriminate].
  - intros s Hs; apply in_map_iff in Hs; destruct Hs as (y & <- & Hy).
    now rewrite (H y Hy).
Qed.

Lemma mean_square_zero (f : list R) :
  (forall s, In s f -> s = 0) -> np.mean (np.square f) = 0.
Proof.
  intros H; pose proof (all_zero_rms f H) as Hr; unfold rms in Hr.
  apply sqrt_eq_0; [apply mean_square_nonneg | exact Hr].
Qed.

(** No frame silent: the evaluator reports no silence at all. *)
Lemma detect_silence_all_voiced (audio_data : list R) (sr : Z)
    (threshold_db : R) (mask : list bool) :
  frame_silence audio_data sr threshold_db = Ok mask ->
  (forall b, In b mask -> b = false) ->
  Evaluator.detect_silence audio_data sr threshold_db = Ok (0, 0).
Proof.
  intros E Hfalse; unfold Evaluator.detect_silence; rewrite E; simpl.
  unfold Evaluator.longest_run.
  rewrite (longest_run_loop_false _ Hfalse), (count_false _ Hfalse); simpl.
  do 2 f_equal; unfold Rdiv; lra.
Qed.

(** Frames of equal energy all measure 0 dB. *)
Lemma constant_buffer_no_silence (c : R) (audio_data : list R) (sr : Z)
    (threshold_db : R) :
  framable audio_data sr -> threshold_db <= 0 ->
  (forall s, In s audio_data -> s = c) ->
  exists mask,
    frame_silence audio_data sr threshold_db = Ok mask /\
    forall b, In b mask -> b = false.
Proof.
  intros Hf Hth Hc.
  destruct (frame_energy_Ok _ _ Hf) as (frames & Hfr & Hne & _ & E).
  destruct (frame_silence_clamped _ _ threshold_db _ E) as (M & HM & _ & Hs).
  pose proof (framable_frame_length _ _ Hf) as Hfl.
  assert (Heq : forall e,
             In e (map (fun f => np.sum (np.square f)) frames) ->
             e = INR (Z.to_nat (frame_length_of sr)) * (c * c)).
  { intros e He; apply in_map_iff in He; destruct He as (f & <- & Hin).
    rewrite (sum_square_constant c).
    - now rewrite (frame_exact_length _ _ _ _ _ Hfr ltac:(lia) Hin).
    - intros s Hs'; apply Hc; eapply frame_members; eauto. }
  eexists; split; [exact Hs|].
  intros b Hb; apply in_map_iff in Hb; destruct Hb as (e & <- & He).
  apply Rltb_false.
  rewrite (Heq e He), <- (Heq M) by (apply max_Ok, HM).
  rewrite clamped_db_loudest; exact Hth.
Qed.

Lemma log10_tenth : log10 0.1 = -1.
Proof.
  replace 0.1 with (/ 10 ^ 1) by lra.
  rewrite log10_pow10_inv; simpl; lra.
Qed.

(** The evaluation of a constant buffer. *)
Lemma constant_buffer_evaluation (c : R) (audio_data : list R)
    (sr : Z) :
  framable audio_data sr ->
  (forall s, In s audio_data -> s = c) ->
  c <> 0 ->
  exists m compliant,
    Evaluator.evaluate_audio Evaluator.init audio_data sr
    = Ok (m, compliant) /\
    Evaluator.m_rms m = Rabs c /\ Evaluator.m_peak m = Rabs c /\
    Evaluator.m_cv m = 0 /\ Evaluator.m_snr m = 100 /\
    Evaluator.m_non_speech_ratio m = 0 /\ Evaluator.m_max_silence m = 0 /\
    (0.1 <= Rabs c <= 1 -> compliant = true).
Proof.
  intros Hf Hc Hc0.
  pose proof (framable_nonempty _ _ Hf) as Hne.
  pose proof (Rabs_pos_lt c Hc0) as Hpos.
  assert (Hrms : sqrt (np.mean (np.square audio_data)) = Rabs c).
  { rewrite (mean_square_constant c) by assumption.
    apply sqrt_Rsqr_abs. }
  assert (Hpk : np.max (np.abs audio_data) = Ok (Rabs c)).
  { apply max_Ok; split.
    - destruct audio_data as [|x xs]; [easy|].
      simpl; left; now rewrite (Hc x) by (simpl; auto).
    - intros y Hy; apply in_map_iff in Hy; destruct Hy as (x & <- & Hx).
      rewrite (Hc x Hx); lra. }
  assert (Hp : Evaluator.calculate_peak audio_data
               = Ok (Rabs c, 20 * log10 (Rabs c))).
  { unfold Evaluator.calculate_peak; rewrite Hpk; simpl.
    apply Rgtb_true in Hpos; now rewrite Hpos. }
  destruct (constant_buffer_no_silence c audio_data sr (-45) Hf
              ltac:(lra) Hc) as (mask & Es & Hfalse).
  pose proof (detect_silence_all_voiced _ _ _ _ Es Hfalse) as Hd.
  assert (Hcv : Evaluator.calculate_cv audio_data = 0).
  { unfold Evaluator.calculate_cv.
    assert (Habs : forall s, In s (np.abs audio_data) -> s = Rabs c).
    { intros s Hs; apply in_map_iff in Hs; destruct Hs as (x & <- & Hx).
      now rewrite (Hc x Hx). }
    assert (Hnea : np.abs audio_data <> [])
      by (destruct audio_data; [easy | discriminate]).
    rewrite (mean_constant (Rabs c) (np.abs audio_data)) by assumption.
    pose proof Hpos as Hg; apply Rgtb_true in Hg; rewrite Hg.
    unfold np.std.
    rewrite (mean_constant (Rabs c) (np.abs audio_data)) by assumption.
    rewrite mean_square_zero, sqrt_0; [unfold Rdiv; ring|].
    intros s Hs; apply in_map_iff in Hs; destruct Hs as (x & <- & Hx).
    rewrite (Habs x Hx); ring. }
  assert (Hsnr : Evaluator.estimate_snr audio_data = 100).
  { unfold Evaluator.estimate_snr.
    rewrite (mean_constant c audio_data) by assumption.
    rewrite (mean_square_zero (map (fun x => x - c) audio_data)),
      Rgtb_0_0; [reflexivity|].
    intros s Hs; apply in_map_iff in Hs; destruct Hs as (x & <- & Hx).
    rewrite (Hc x Hx); ring. }
  eexists; eexists; split;
    [apply (evaluate_audio_Ok Evaluator.init _ _ _ _ _ _ Hp Hd)|].
  unfold Evaluator.calculate_rms; cbn [fst snd Evaluator.m_rms
    Evaluator.m_peak Evaluator.m_cv Evaluator.m_snr
    Evaluator.m_non_speech_ratio Evaluator.m_max_silence].
  rewrite Hrms, Hcv, Hsnr.
  repeat (split; [reflexivity|]).
  intros [Hlo Hhi]; apply check_standards_iff; simpl.
  apply Rgtb_true in Hpos; rewrite Hpos.
  assert (log10 0.1 <= log10 (Rabs c)) by (apply log10_le; lra).
  assert (log10 (Rabs c) <= log10 1)
    by (apply log10_le; [apply Rgtb_true in Hpos; exact Hpos | exact Hhi]).
  rewrite log10_tenth in *; rewrite log10_1 in *.
  repeat split; lra.
Qed.

(** X6. A constant buffer (pure DC, every sample equal to [c]) with
    [0.1 <= |c| <= 1] that can be framed passes the default compliance
    check, although it carries no signal at all: [evaluate_audio] returns
    the verdict [true], with a peak of [|c|], a signal-to-noise estimate
    that meets the 20 dB criterion, and no silence reported. *)
Theorem X6_constant_buffer_is_compliant (c : R) (audio_data : list R)
    (sr : Z) :
  framable audio_data sr ->
  (forall s, In s audio_data -> s = c) ->
  0.1 <= Rabs c <= 1 ->
  exists m,
    Evaluator.evaluate_audio Evaluator.init audio_data sr = Ok (m, true) /\
    Evaluator.m_peak m = Rabs c /\
    Evaluator.m_snr m >= 20 /\
    Evaluator.m_non_speech_ratio m = 0 /\ Evaluator.m_max_silence m = 0.
Proof.
  intros Hf Hc Hr.
  assert (Hc0 : c <> 0).
  { intros ->; rewrite Rabs_R0 in Hr; lra. }
  destruct (constant_buffer_evaluation c audio_data sr Hf Hc Hc0)
    as (m & compliant & E & _ & Hpeak & _ & Hsnr & Hratio & Hsil & Hcomp).
  exists m; rewrite E, (Hcomp Hr).
  split; [reflexivity|]; split; [exact Hpeak|]; split; [lra|].
  split; assumption.
Qed.

Lemma halves_constant (s : R) : In s [0.5; 0.5; 0.5] -> s = 0.5.
Proof. simpl; intuition. Qed.

Lemma X6_constant_buffer_witness :
  exists m,
    Evaluator.evaluate_audio Evaluator.init [0.5; 0.5; 0.5] 100
    = Ok (m, true) /\ Evaluator.m_snr m >= 20.
Proof.
  destruct (X6_constant_buffer_is_compliant 0.5 [0.5; 0.5; 0.5] 100
              (framable_3_at_100 _ _ _) halves_constant
              ltac:(rewrite Rabs_right; lra))
    as (m & E & _ & Hsnr & _).
  exists m; split; [exact E | exact Hsnr].
Defined.

(** A constant buffer of amplitude 0.5 is judged compliant. *)
Lemma constant_buffer_compliant_example :
  exists m,
    Evaluator.evaluate_audio Evaluator.init [0.5; 0.5; 0.5] 100
    = Ok (m, true).
Proof.
  destruct (constant_buffer_evaluation 0.5 [0.5; 0.5; 0.5] 100
              (framable_3_at_100 _ _ _) halves_constant ltac:(lra))
    as (m & c & E & _ & _ & _ & _ & _ & _ & Hc).
  exists m; rewrite E, Hc; [reflexivity|].
  rewrite Rabs_right; lra.
Qed.


(** * Loudness metrics *)

Lemma log10_nonpos_iff (x : R) : 0 < x -> (log10 x <= 0 <-> x <= 1).
Proof.
  intros Hx; split; intros H.
  - destruct (Rle_lt_dec x 1) as [Hle|Hgt]; [exact Hle|].
    pose proof (log10_lt 1 x ltac:(lra) Hgt) as Hl.
    rewrite log10_1 in Hl; lra.
  - rewrite <- log10_1; now apply log10_le.
Qed.

(** X7. In every record [evaluate_audio] returns, the peak is the magnitude
    of one of the samples and no sample exceeds it, and the peak level is at
    most 0 dBFS exactly when no sample exceeds full scale (a magnitude of
    1). The peak criterion of the default standard is therefore a check for
    samples beyond full scale: every sample of a buffer judged compliant
    lies in [-1, 1]. *)
Theorem X7_peak_is_full_scale_check (self : Evaluator.AudioEvaluator)
    (audio_data : list R) (sr : Z) (m : Evaluator.Metrics) (compliant : bool) :
  Evaluator.evaluate_audio self audio_data sr = Ok (m, compliant) ->
  0 <= Evaluator.m_rms m /\
  (exists x, In x audio_data /\ Evaluator.m_peak m = Rabs x) /\
  (forall x, In x audio_data -> Rabs x <= Evaluator.m_peak m) /\
  (Evaluator.m_peak_db m <= 0 <->
   forall x, In x audio_data -> Rabs x <= 1) /\
  (self = Evaluator.init -> compliant = true ->
   forall x, In x audio_data -> -1 <= x <= 1).
Proof.
  intros E.
  pose proof (evaluate_audio_verdict _ _ _ _ _ E) as Hv.
  destruct (evaluate_audio_inv _ _ _ _ _ E) as (Hrms & Hpeak & _).
  unfold Evaluator.calculate_rms in Hrms; injection Hrms as Hrms _.
  unfold Evaluator.calculate_peak in Hpeak.
  destruct (np.max (np.abs audio_data)) as [p|] eqn:Hp; [|discriminate].
  cbn [bind] in Hpeak; injection Hpeak as Hpk Hdb.
  destruct (peak_bounds _ _ Hp) as [H0 Hub].
  assert (Hatt : exists x, In x audio_data /\ p = Rabs x).
  { apply max_Ok in Hp; destruct Hp as [Hin _].
    apply in_map_iff in Hin; destruct Hin as (x & Hx & Hin).
    exists x; split; [exact Hin | now symmetry]. }
  assert (Hfull : Evaluator.m_peak_db m <= 0 <->
                  forall x, In x audio_data -> Rabs x <= 1).
  { rewrite <- Hdb.
    assert (Hp1 : p <= 1 <-> forall x, In x audio_data -> Rabs x <= 1).
    { split.
      - intros Hle x Hx; specialize (Hub x Hx); lra.
      - intros Hall; destruct Hatt as (x & Hx & ->); now apply Hall. }
    rewrite <- Hp1.
    destruct (Rgtb p 0) eqn:Hg.
    - apply Rgtb_true in Hg.
      rewrite <- (log10_nonpos_iff p) by lra.
      split; lra.
    - apply Rgtb_false in Hg; split; intros; lra. }
  split; [rewrite <- Hrms; apply sqrt_pos|].
  split; [rewrite <- Hpk; exact Hatt|].
  split; [rewrite <- Hpk; exact Hub|].
  split; [exact Hfull|].
  intros -> -> x Hx.
  symmetry in Hv; apply check_standards_iff in Hv.
  destruct Hv as (_ & Hpd & _); simpl in Hpd.
  pose proof (proj1 Hfull Hpd x Hx) as Hx1.
  unfold Rabs in Hx1; destruct (Rcase_abs x); lra.
Qed.

Lemma X7_peak_witness :
  exists m,
    Evaluator.evaluate_audio Evaluator.init [0.5; 0.5; 0.5] 100
    = Ok (m, true) /\
    forall x, In x [0.5; 0.5; 0.5] -> -1 <= x <= 1.
Proof.
  destruct constant_buffer_compliant_example as [m E].
  exists m; split; [exact E|].
  destruct (X7_peak_is_full_scale_check Evaluator.init [0.5; 0.5; 0.5] 100
              m true E) as (_ & _ & _ & _ & Hin).
  exact (Hin eq_refl eq_refl).
Defined.

(** * The low-pass branch *)

Lemma expand_mask_all_false (n frame_length hop_length : nat)
    (silence_mask : list bool) :
  (forall b, In b silence_mask -> b = false) ->
  expand_mask n frame_length hop_length silence_mask = repeat false n.
Proof.
  intros H; unfold expand_mask.
  assert (Hl : forall i b,
             In (i, b) (combine (seq 0 (length silence_mask)) silence_mask) ->
             b = false).
  { intros i b Hin; apply in_combine_r in Hin; now apply H. }
  revert Hl; generalize (combine (seq 0 (length silence_mask)) silence_mask).
  generalize (repeat false n).
  intros acc l; revert acc; induction l as [|[i b] l IH]; intros acc Hl.
  - reflexivity.
  - cbn [fold_left]; rewrite (Hl i b) by (left; reflexivity).
    apply IH; intros i' b' Hin; apply (Hl i'); now right.
Qed.

Lemma count_repeat_false (n : nat) : np.count (repeat false n) = O.
Proof.
  apply count_false; intros b Hb; now apply repeat_spec in Hb.
Qed.

(** X8. On a buffer whose samples are all within [a] of zero, where a whole
    frame of such samples has an energy of at most [1e-5] (every buffer of
    amplitude at most 1e-6 at usual sample rates, and every all-zero buffer),
    the silence detector marks no sample, [reduce_noise_standard] has no
    noise estimate and takes the low-pass branch: it returns the filtered
    buffer when the buffer has more than 27 samples and raises ValueError
    otherwise. *)
Theorem X8_quiet_buffer_takes_lowpass {T : Transforms} (self : NoiseReducer)
    (audio_data : list R) (a : R) :
  framable audio_data (sample_rate self) ->
  0 <= a -> IZR (frame_length_of (sample_rate self)) * (a * a) <= 1e-5 ->
  silence_threshold_db self <= 0 ->
  (forall s, In s audio_data -> Rabs s <= a) ->
  detect_silence self audio_data None
  = Ok (repeat false (length audio_data)) /\
  reduce_noise_standard self audio_data = filtfilt audio_data /\
  ((length audio_data <= 27)%nat ->
   reduce_noise_standard self audio_data = Raise ValueError) /\
  ((27 < length audio_data)%nat ->
   reduce_noise_standard self audio_data = Ok (butter_filtfilt audio_data)).
Proof.
  intros Hf Ha Hfl Hth Hq.
  destruct (bounded_buffer_no_silence a _ _ (silence_threshold_db self)
              Hf Ha Hfl Hth Hq) as (mask & E & _ & Hfalse).
  assert (Hd : detect_silence self audio_data None
               = Ok (repeat false (length audio_data))).
  { unfold detect_silence; rewrite E; cbn [bind].
    now rewrite expand_mask_all_false. }
  pose proof (reduce_noise_standard_lowpass self _ _ Hd
                (count_repeat_false _)) as Hr.
  split; [exact Hd|]; split; [exact Hr|]; split; intros Hlen;
    rewrite Hr; unfold filtfilt.
  - destruct (Nat.leb_spec (length audio_data) 27); [reflexivity | lia].
  - destruct (Nat.leb_spec (length audio_data) 27); [lia | reflexivity].
Qed.

Lemma zeros_quiet_eq (s : R) : In s [0; 0; 0] -> s = 0.
Proof. simpl; intuition. Qed.

Lemma X8_quiet_buffer_witness :
  @reduce_noise_standard plain_transforms (NoiseReducer_init 100) [0; 0; 0]
  = Raise ValueError.
Proof.
  apply (proj1 (proj2 (proj2
           (@X8_quiet_buffer_takes_lowpass plain_transforms
              (NoiseReducer_init 100) [0; 0; 0] 0
              (framable_3_at_100 _ _ _) ltac:(lra) ltac:(lra)
              ltac:(simpl; lra)
              ltac:(intros s Hs; rewrite (zeros_quiet_eq s Hs), Rabs_R0;
                    lra))))).
  simpl; lia.
Defined.

(** * More on the wavelet denoiser *)

Lemma in_insert (x y : R) (l : list R) :
  In x (npx.insert y l) -> x = y \/ In x l.
Proof.
  induction l as [|z l IH]; simpl.
  - intros [E|[]]; left; now symmetry.
  - destruct (Rle_dec y z); simpl.
    + intros [E|H]; [left; now symmetry | right; exact H].
    + intros [E|H]; [right; left; exact E|].
      destruct (IH H) as [E|Hin]; [left; exact E | right; right; exact Hin].
Qed.

Lemma in_sort (x : R) (l : list R) : In x (npx.sort l) -> In x l.
Proof.
  induction l as [|y l IH]; simpl; [easy|].
  intros H; destruct (in_insert _ _ _ H) as [E|Hin];
    [left; now symmetry | right; now apply IH].
Qed.

Lemma median_nonneg (l : list R) :
  (forall x, In x l -> 0 <= x) -> 0 <= npx.median l.
Proof.
  intros H; unfold npx.median.
  assert (Hs : forall i, 0 <= nth i (npx.sort l) 0).
  { intros i; apply nth_nonneg; intros x Hx; apply H, in_sort, Hx. }
  destruct (Nat.even (length (npx.sort l))); [|apply Hs].
  pose proof (Hs (length (npx.sort l) / 2 - 1)%nat).
  pose proof (Hs (length (npx.sort l) / 2)%nat).
  lra.
Qed.

Lemma wavelet_threshold_nonneg (self : NoiseReducer)
    (coeffs : list (list R)) :
  0 <= wavelet_threshold_mult self -> 0 <= wavelet_threshold self coeffs.
Proof.
  intros Hm; unfold wavelet_threshold.
  assert (0 <= npx.median (np.abs (concat coeffs))).
  { apply median_nonneg; intros x Hx.
    apply in_map_iff in Hx; destruct Hx as (y & <- & _); apply Rabs_pos. }
  unfold Rdiv; apply Rmult_le_pos; [apply Rmult_le_pos; assumption|].
  left; apply Rinv_0_lt_compat; lra.
Qed.

(** X9. The threshold of the wavelet denoiser is never negative when the
    multiplier is not (2.5 as constructed). With such a threshold, hard
    thresholding is idempotent, never raises the magnitude of a
    coefficient, and leaves the thresholded matrix unchanged when applied to
    it again with the same threshold. *)
Theorem X9_hard_threshold_idempotent {T : Transforms} (sr : Z)
    (audio_data : list R) :
  let self := NoiseReducer_init sr in
  let coeffs := cwt audio_data in
  let threshold := wavelet_threshold self coeffs in
  0 <= threshold /\
  (forall c, hard_threshold threshold (hard_threshold threshold c)
             = hard_threshold threshold c) /\
  (forall c, Rabs (hard_threshold threshold c) <= Rabs c) /\
  map (map (hard_threshold threshold))
    (map (map (hard_threshold threshold)) coeffs)
  = map (map (hard_threshold threshold)) coeffs.
Proof.
  cbv zeta.
  assert (Hth : 0 <= wavelet_threshold (NoiseReducer_init sr)
                       (cwt audio_data))
    by (apply wavelet_threshold_nonneg; simpl; lra).
  set (threshold := wavelet_threshold (NoiseReducer_init sr)
                      (cwt audio_data)) in *.
  assert (Hidem : forall c, hard_threshold threshold
                              (hard_threshold threshold c)
                            = hard_threshold threshold c).
  { intros c; rewrite (hard_threshold_cases threshold c).
    destruct (Rle_dec (Rabs c) threshold) as [Hle|Hgt].
    - apply hard_threshold_0.
    - rewrite hard_threshold_cases.
      destruct (Rle_dec (Rabs c) threshold); [contradiction | reflexivity]. }
  split; [exact Hth|]; split; [exact Hidem|]; split.
  - intros c; rewrite hard_threshold_cases.
    destruct (Rle_dec (Rabs c) threshold); [|lra].
    rewrite Rabs_R0; apply Rabs_pos.
  - rewrite map_map; apply map_ext; intros row.
    rewrite map_map; apply map_ext; exact Hidem.
Qed.

(** The wavelet denoiser's output, the peak normalisation cancelled. *)
Lemma reduce_noise_wavelet_closed_form {T : Transforms} (self : NoiseReducer)
    (audio_data : list R) :
  let reconstructed := wavelet_reconstruct self audio_data in
  rms reconstructed <> 0 ->
  exists peak normalized,
    np.max (np.abs reconstructed) = Ok peak /\ 0 < peak /\
    normalize_peak reconstructed = Ok normalized /\
    np.max (np.abs normalized) = Ok 1 /\
    reduce_noise_wavelet self audio_data
    = Ok (map (fun x => x * (rms audio_data / rms reconstructed))
            reconstructed).
Proof.
  intros reconstructed Hr.
  destruct (rms_nonzero_peak _ Hr) as (p & Hp & Hpos).
  pose proof (rms_nonneg reconstructed) as Hr0.
  assert (Hinv : 0 < / p) by now apply Rinv_0_lt_compat.
  assert (Hn : normalize_peak reconstructed
               = Ok (map (fun x => x * / p) reconstructed)).
  { unfold normalize_peak; rewrite Hp; simpl.
    apply Rgtb_true in Hpos; rewrite Hpos; reflexivity. }
  assert (Hrn : rms (map (fun x => x * / p) reconstructed)
                = / p * rms reconstructed).
  { rewrite rms_scale, Rabs_right by lra; reflexivity. }
  exists p, (map (fun x => x * / p) reconstructed).
  split; [exact Hp|]; split; [exact Hpos|]; split; [exact Hn|]; split.
  - apply max_Ok in Hp; destruct Hp as [Hin Hub].
    apply in_map_iff in Hin; destruct Hin as (x0 & Ex0 & Hx0).
    apply max_Ok; split.
    + apply in_map_iff; exists (x0 * / p); split.
      * rewrite Rabs_mult, Ex0, (Rabs_right (/ p)) by lra.
        field; lra.
      * apply in_map_iff; exists x0; auto.
    + intros y Hy; apply in_map_iff in Hy; destruct Hy as (z & <- & Hz).
      apply in_map_iff in Hz; destruct Hz as (x & <- & Hx).
      rewrite Rabs_mult, (Rabs_right (/ p)) by lra.
      assert (Rabs x <= p) by (apply Hub, in_map; exact Hx).
      apply Rmult_le_reg_r with p; [exact Hpos|].
      rewrite Rmult_assoc, Rinv_l by lra; lra.
  - unfold reduce_noise_wavelet; fold reconstructed; rewrite Hn; simpl.
    unfold restore_energy.
    assert (Hg : Rgtb (rms (map (fun x => x * / p) reconstructed)) 0 = true).
    { apply Rgtb_true; rewrite Hrn.
      apply Rmult_lt_0_compat; [exact Hinv | lra]. }
    rewrite Hg, Hrn, map_map; f_equal.
    apply map_ext; intros x; field; split; lra.
Qed.

(** X10. When the reconstruction of the wavelet denoiser has non-zero RMS,
    its normalised form has a peak of exactly 1, and the output is the
    reconstruction scaled by [original_rms / reconstructed_rms]: the
    unit-peak normalisation of lines 130-131 cancels out in the result. *)
Theorem X10_peak_normalisation_cancels {T : Transforms} (self : NoiseReducer)
    (audio_data : list R) :
  let reconstructed := wavelet_reconstruct self audio_data in
  rms reconstructed <> 0 ->
  exists peak normalized,
    np.max (np.abs reconstructed) = Ok peak /\ 0 < peak /\
    normalize_peak reconstructed = Ok normalized /\
    np.max (np.abs normalized) = Ok 1 /\
    reduce_noise_wavelet self audio_data
    = Ok (map (fun x => x * (rms audio_data / rms reconstructed))
            reconstructed).
Proof. exact (reduce_noise_wavelet_closed_form self audio_data). Qed.

Lemma X10_peak_normalisation_witness :
  @reduce_noise_wavelet plain_transforms (NoiseReducer_init 100) [1]
  = Ok (map (fun x => x * (rms [1]
                           / rms (@wavelet_reconstruct plain_transforms
                                    (NoiseReducer_init 100) [1])))
          (@wavelet_reconstruct plain_transforms (NoiseReducer_init 100)
             [1])).
Proof.
  destruct (@X10_peak_normalisation_cancels plain_transforms
              (NoiseReducer_init 100) [1] rms_example_nonzero)
    as (p & n & _ & _ & _ & _ & E).
  exact E.
Defined.

(** * The two blends of the enhanced denoiser, composed *)

(** X11. With voice preservation enabled, the blend that
    [enhanced_multi_stage_denoising] smooths is, in terms of the wavelet
    stage [stage2] and the original buffer, [0.81 * stage2] on silent
    samples and [0.42 * stage2 + 0.58 * original] on voiced samples: the
    blend of [multi_stage_denoising] and the voice-preserving blend use the
    same mask and compose per sample. *)
Theorem X11_enhanced_composite_weights {T : Transforms} (self : NoiseReducer)
    (audio_data stage1_audio : list R) :
  reduce_noise_standard self audio_data = Ok stage1_audio ->
  exists stage2_audio silence_mask blended out,
    reduce_noise_wavelet self stage1_audio = Ok stage2_audio /\
    detect_silence self audio_data None = Ok silence_mask /\
    length blended = length audio_data /\
    (forall i, (i < length audio_data)%nat ->
       nth i blended 0
       = if nth i silence_mask false
         then 0.81 * nth i stage2_audio 0
         else 0.42 * nth i stage2_audio 0 + 0.58 * nth i audio_data 0) /\
    enhanced_multi_stage_denoising self audio_data true = Ok out /\
    forall k, (k < length audio_data)%nat ->
      nth k out 0
      = moving_average (Z.to_nat (hop_length_of (sample_rate self)))
          blended k.
Proof.
  intros E1.
  destruct (multi_stage_spec _ _ _ E1)
    as (stage2 & mask & base & E2 & Hd & Em & _ & Hbase).
  destruct (enhanced_spec _ _ _ Em)
    as (mask' & blended & out & Hd' & _ & Hlb & Hbl & He & _ & Hma).
  rewrite Hd in Hd'; injection Hd' as <-.
  exists stage2, mask, blended, out.
  repeat (split; [assumption|]); split; [|split; assumption].
  intros i Hi; rewrite (Hbl i Hi), (Hbase i Hi); unfold mix.
  destruct (nth i mask false); lra.
Qed.

Lemma X11_enhanced_composite_witness :
  exists out,
    @enhanced_multi_stage_denoising plain_transforms (NoiseReducer_init 100)
      [1; 0; 0] true = Ok out.
Proof.
  destruct reduce_noise_standard_example as [stage1 E1].
  destruct (@X11_enhanced_composite_weights plain_transforms
              (NoiseReducer_init 100) [1; 0; 0] stage1 E1)
    as (s2 & mask & blended & out & _ & _ & _ & _ & E & _).
  exists out; exact E.
Defined.

(** * The comparison of an original and a processed buffer *)

Lemma calculate_cv_nonneg (audio_data : list R) :
  0 <= Evaluator.calculate_cv audio_data.
Proof.
  unfold Evaluator.calculate_cv.
  destruct (Rgtb (np.mean (np.abs audio_data)) 0) eqn:Hg; [|lra].
  apply Rgtb_true in Hg; unfold Rdiv.
  apply Rmult_le_pos; [unfold np.std; apply sqrt_pos|].
  left; apply Rinv_0_lt_compat; lra.
Qed.

(** The loudness metrics of every returned record are non-negative. *)
Lemma metrics_nonneg (self : Evaluator.AudioEvaluator) (audio_data : list R)
    (sr : Z) (m : Evaluator.Metrics) (compliant : bool) :
  Evaluator.evaluate_audio self audio_data sr = Ok (m, compliant) ->
  0 <= Evaluator.m_rms m /\ 0 <= Evaluator.m_peak m /\
  0 <= Evaluator.m_cv m.
Proof.
  intros E; unfold Evaluator.evaluate_audio in E.
  destruct (Evaluator.calculate_rms audio_data) as [rms0 rms_db] eqn:Er.
  inv_bind E; destruct a as [peak peak_db].
  inv_bind E; destruct a as [ratio silence].
  injection E as <- _; simpl.
  unfold Evaluator.calculate_rms in Er; injection Er as <- _.
  unfold Evaluator.calculate_peak in E0.
  destruct (np.max (np.abs audio_data)) as [p|] eqn:Hp; [|discriminate].
  cbn [bind] in E0; injection E0 as <- _.
  split; [apply sqrt_pos|]; split;
    [apply (peak_bounds _ _ Hp) | apply calculate_cv_nonneg].
Qed.

Lemma relative_change_bound (original processed : R) :
  0 <= processed ->
  -100 <= (if Rgtb original 0
           then ((processed - original) / original) * 100 else 0).
Proof.
  intros Hp; destruct (Rgtb original 0) eqn:Hg; [|lra].
  apply Rgtb_true in Hg.
  replace ((processed - original) / original * 100)
    with (processed * / original * 100 - 100) by (field; lra).
  assert (0 <= processed * / original).
  { apply Rmult_le_pos; [exact Hp|].
    left; apply Rinv_0_lt_compat; lra. }
  lra.
Qed.

Lemma analyze_audio_pair_inv (evaluator : Evaluator.AudioEvaluator)
    (original_audio processed_audio : list R) (sr : Z)
    (a : Runner.Analysis) :
  Runner.analyze_audio_pair evaluator original_audio processed_audio sr
  = Ok a ->
  let min_len := Nat.min (length original_audio) (length processed_audio) in
  Evaluator.evaluate_audio evaluator (firstn min_len original_audio) sr
  = Ok (Runner.original_metrics a, Runner.original_compliant a) /\
  Evaluator.evaluate_audio evaluator (firstn min_len processed_audio) sr
  = Ok (Runner.processed_metrics a, Runner.processed_compliant a).
Proof.
  unfold Runner.analyze_audio_pair; intros E; cbv zeta.
  destruct (Evaluator.evaluate_audio evaluator
              (firstn (Nat.min (length original_audio)
                         (length processed_audio)) original_audio) sr)
    as [[om oc]|] eqn:Eo; [|discriminate].
  cbn [bind] in E.
  destruct (Evaluator.evaluate_audio evaluator
              (firstn (Nat.min (length original_audio)
                         (length processed_audio)) processed_audio) sr)
    as [[pm pc]|] eqn:Ep; [|discriminate].
  cbn [bind] in E; injection E as <-; split; reflexivity.
Qed.

(** X13. Whenever [analyze_audio_pair] returns, both buffers were evaluated
    at their common length (the shorter of the two), and the relative RMS,
    peak and CV improvements it reports are at least -100 percent; they are
    0 when the original metric is 0. *)
Theorem X13_improvements_bounded (evaluator : Evaluator.AudioEvaluator)
    (original_audio processed_audio : list R) (sr : Z)
    (a : Runner.Analysis) :
  Runner.analyze_audio_pair evaluator original_audio processed_audio sr
  = Ok a ->
  let min_len := Nat.min (length original_audio) (length processed_audio) in
  let imp := Runner.improvements a in
  Evaluator.evaluate_audio evaluator (firstn min_len original_audio) sr
  = Ok (Runner.original_metrics a, Runner.original_compliant a) /\
  Evaluator.evaluate_audio evaluator (firstn min_len processed_audio) sr
  = Ok (Runner.processed_metrics a, Runner.processed_compliant a) /\
  -100 <= Runner.rms_improvement imp /\
  -100 <= Runner.peak_improvement imp /\
  -100 <= Runner.cv_improvement imp /\
  (Evaluator.m_rms (Runner.original_metrics a) = 0 ->
   Runner.rms_improvement imp = 0) /\
  (Evaluator.m_peak (Runner.original_metrics a) = 0 ->
   Runner.peak_improvement imp = 0) /\
  Runner.snr_improvement imp
  = Evaluator.m_snr (Runner.processed_metrics a)
    - Evaluator.m_snr (Runner.original_metrics a).
Proof.
  intros E; cbv zeta.
  destruct (analyze_audio_pair_inv _ _ _ _ _ E) as [Eo Ep].
  split; [exact Eo|]; split; [exact Ep|].
  destruct (metrics_nonneg _ _ _ _ _ Ep) as (Hr & Hp & Hc).
  unfold Runner.analyze_audio_pair in E; cbv zeta in E.
  rewrite Eo in E; cbn [bind] in E; rewrite Ep in E; cbn [bind] in E.
  injection E as <-; cbn [Runner.improvements Runner.rms_improvement
    Runner.peak_improvement Runner.cv_improvement Runner.snr_improvement
    Runner.original_metrics Runner.processed_metrics].
  split; [now apply relative_change_bound|].
  split; [now apply relative_change_bound|].
  split; [now apply relative_change_bound|].
  split; [intros ->; now rewrite Rgtb_0_0|].
  split; [intros ->; now rewrite Rgtb_0_0 | reflexivity].
Qed.

Lemma analyze_zeros_returns :
  exists a,
    Runner.analyze_audio_pair Evaluator.init [0; 0; 0] [0; 0; 0; 0] 100
    = Ok a.
Proof.
  destruct evaluate_zeros_returns as (m & c & E).
  unfold Runner.analyze_audio_pair; cbv zeta.
  change (firstn (Nat.min (length [0; 0; 0]) (length [0; 0; 0; 0]))
            [0; 0; 0]) with [0; 0; 0].
  change (firstn (Nat.min (length [0; 0; 0]) (length [0; 0; 0; 0]))
            [0; 0; 0; 0]) with [0; 0; 0].
  rewrite E; cbn [bind]; eauto.
Qed.

Lemma X13_improvements_bounded_witness :
  exists a,
    Runner.analyze_audio_pair Evaluator.init [0; 0; 0] [0; 0; 0; 0] 100
    = Ok a /\
    -100 <= Runner.rms_improvement (Runner.improvements a).
Proof.
  destruct analyze_zeros_returns as [a E].
  exists a; split; [exact E|].
  exact (proj1 (proj2 (proj2 (X13_improvements_bounded _ _ _ _ _ E)))).
Defined.

(** X14. [analyze_audio_pair] raises when either buffer is empty (there is
    nothing left to evaluate after the cut to the common length), depends on
    the two buffers only through their first [min_len] samples, and on two
    identical buffers reports equal metrics, equal verdicts and four
    improvements of 0. *)
Theorem X14_analysis_edge_cases (evaluator : Evaluator.AudioEvaluator)
    (original_audio processed_audio : list R) (sr : Z) :
  (original_audio = [] \/ processed_audio = [] ->
   Runner.analyze_audio_pair evaluator original_audio processed_audio sr
   = Raise ValueError) /\
  (let min_len := Nat.min (length original_audio) (length processed_audio) in
   Runner.analyze_audio_pair evaluator original_audio processed_audio sr
   = Runner.analyze_audio_pair evaluator
       (firstn min_len original_audio) (firstn min_len processed_audio) sr)
  /\
  (forall a,
      Runner.analyze_audio_pair evaluator original_audio original_audio sr
      = Ok a ->
      Runner.processed_metrics a = Runner.original_metrics a /\
      Runner.processed_compliant a = Runner.original_compliant a /\
      Runner.rms_improvement (Runner.improvements a) = 0 /\
      Runner.peak_improvement (Runner.improvements a) = 0 /\
      Runner.snr_improvement (Runner.improvements a) = 0 /\
      Runner.cv_improvement (Runner.improvements a) = 0).
Proof.
  split; [|split].
  - intros Hempty.
    assert (Hmin : Nat.min (length original_audio) (length processed_audio)
                   = 0%nat) by (destruct Hempty as [-> | ->]; simpl; lia).
    unfold Runner.analyze_audio_pair; cbv zeta; rewrite Hmin; simpl firstn.
    now rewrite evaluate_audio_empty.
  - cbv zeta; unfold Runner.analyze_audio_pair; cbv zeta.
    rewrite !length_firstn.
    replace (Nat.min
               (Nat.min (Nat.min (length original_audio)
                           (length processed_audio)) (length original_audio))
               (Nat.min (Nat.min (length original_audio)
                           (length processed_audio))
                  (length processed_audio)))
      with (Nat.min (length original_audio) (length processed_audio)) by lia.
    now rewrite !firstn_firstn, Nat.min_id.
  - intros a E.
    destruct (analyze_audio_pair_inv _ _ _ _ _ E) as [Eo Ep].
    cbv zeta in Eo, Ep; rewrite Eo in Ep; injection Ep as Hm Hc.
    unfold Runner.analyze_audio_pair in E; cbv zeta in E.
    rewrite Eo in E; cbn [bind] in E.
    injection E as <-; cbn [Runner.improvements Runner.rms_improvement
      Runner.peak_improvement Runner.cv_improvement Runner.snr_improvement
      Runner.original_metrics Runner.processed_metrics
      Runner.original_compliant Runner.processed_compliant].
    repeat split;
      try match goal with
          | |- (if ?c then _ else _) = 0 => destruct c; [|reflexivity]
          end; unfold Rdiv; ring.
Qed.
